(** * e-notify: a shallow embedding of [e_notify.py] and [src/notify.py]

    The program watches a process by pid and mails a notification when it
    ends.  Python values are embedded as Rocq data, the operating system,
    the SMTP server and the file system as an oracle record [World], and
    the effects of the code as a state-and-outcome monad [M] whose state
    carries the trace of observable events. *)

From Stdlib Require Import ZArith Ascii String DecimalString PrimFloat.
From stdpp Require Import base strings list gmap.

Open Scope string_scope.
Open Scope Z_scope.
Open Scope list_scope.

(** ** Python string methods used by the program *)

Module Str.

(** [sep.join(l)] *)
Fixpoint join (sep : string) (l : list string) : string :=
  match l with
  | [] => ""
  | [x] => x
  | x :: rest => x +:+ sep +:+ join sep rest
  end.

(** [s.split(c)] for a one-character separator: n occurrences of the
    separator give n + 1 pieces, the last one possibly empty. *)
Fixpoint split (c : ascii) (s : string) : list string :=
  match s with
  | EmptyString => [""]
  | String a rest =>
      if Ascii.eqb a c then "" :: split c rest
      else match split c rest with
           | [] => [String a ""]
           | piece :: pieces => String a piece :: pieces
           end
  end.

(** [s.split(c, 1)]: at most one cut, at the first separator. *)
Fixpoint split_once (c : ascii) (s : string) : list string :=
  match s with
  | EmptyString => [""]
  | String a rest =>
      if Ascii.eqb a c then [""; rest]
      else match split_once c rest with
           | [] => [String a ""]
           | piece :: pieces => String a piece :: pieces
           end
  end.

(** Iterating a [str] yields its characters as one-character strings. *)
Fixpoint chars (s : string) : list string :=
  match s with
  | EmptyString => []
  | String a rest => String a "" :: chars rest
  end.

Definition upper (a : ascii) : ascii :=
  let n := nat_of_ascii a in
  if (97 <=? n)%nat && (n <=? 122)%nat then ascii_of_nat (n - 32) else a.

Definition lower (a : ascii) : ascii :=
  let n := nat_of_ascii a in
  if (65 <=? n)%nat && (n <=? 90)%nat then ascii_of_nat (n + 32) else a.

Fixpoint map_ascii (f : ascii -> ascii) (s : string) : string :=
  match s with
  | EmptyString => EmptyString
  | String a rest => String (f a) (map_ascii f rest)
  end.

(** [s.capitalize()]: first character upper-cased, the rest lower-cased. *)
Definition capitalize (s : string) : string :=
  match s with
  | EmptyString => EmptyString
  | String a rest => String (upper a) (map_ascii lower rest)
  end.

(** [os.path.basename(p)]: what follows the last slash. *)
Fixpoint basename (p : string) : string :=
  match p with
  | EmptyString => EmptyString
  | String a rest =>
      if Ascii.eqb a "/"%char then basename rest
      else if existsb (Ascii.eqb "/"%char) (list_ascii_of_string rest)
           then basename rest
           else p
  end.

(** [str(n)] for an int. *)
Definition of_int (n : Z) : string := NilZero.string_of_int (Z.to_int n).

(** The newline character. *)
Definition nl : ascii := "010"%char.

(** The carriage return. *)
Definition cr : ascii := "013"%char.

(** [b.splitlines()] on the encoded text: a line ends at a line feed, at a
    carriage return or at the two together; [line] is the line under way. *)
Fixpoint splitlines_from (line s : string) : list string :=
  match s with
  | EmptyString => if String.eqb line "" then [] else [line]
  | String a rest =>
      if Ascii.eqb a nl then line :: splitlines_from "" rest
      else if Ascii.eqb a cr then
        match rest with
        | String b rest' =>
            if Ascii.eqb b nl then line :: splitlines_from "" rest'
            else line :: splitlines_from "" rest
        | EmptyString => [line]
        end
      else splitlines_from (line +:+ String a "") rest
  end.

Definition splitlines (s : string) : list string := splitlines_from "" s.

End Str.


(** ** Exceptions and outcomes *)

(** The exception classes the program meets.  [KeyboardInterrupt] stands for
    the classes outside [Exception], which [except Exception] lets pass. *)
Inductive ExnClass :=
| ProcessLookupError
| PermissionError
| TypeError
| NameError
| KeyError
| AttributeError
| ValueError
| NoSuchProcess
| SMTPAuthenticationError
| KeyboardInterrupt
| OtherException (name : string).

Record Exn := mkExn { exn_class : ExnClass; exn_msg : string }.

(** [isinstance(e, Exception)] *)
Definition is_Exception (e : Exn) : bool :=
  match exn_class e with
  | KeyboardInterrupt => false
  | _ => true
  end.

Definition is_SMTPAuthenticationError (e : Exn) : bool :=
  match exn_class e with
  | SMTPAuthenticationError => true
  | _ => false
  end.

Definition is_ProcessLookupError (e : Exn) : bool :=
  match exn_class e with
  | ProcessLookupError => true
  | _ => false
  end.

(** How a call ends: it returns, raises, leaves the interpreter through
    [exit(code)], or is still running when the fuel of a loop of the model
    is used up. *)
Inductive Outcome (A : Type) :=
| Ret (a : A)
| Raise (e : Exn)
| Exit (code : Z)
| Running.

Arguments Ret {A} a.
Arguments Raise {A} e.
Arguments Exit {A} code.
Arguments Running {A}.

(** ** Data model *)

(** [class ReturnValue(Enum)] *)
Inductive ReturnValue := Success | LoginError | OtherError.

Definition ReturnValue_value (r : ReturnValue) : Z :=
  match r with Success => 0 | LoginError => 1 | OtherError => 2 end.

(** A [ConfigParser]: sections in file order, each an ordered list of
    options. *)
Definition Options := list (string * string).
Definition Configuration := list (string * Options).

(** The namespace argparse builds for the [notify] subcommand:
    [--pid] (int, required), [--attach] (one str), [--to] (nargs="*") and
    [--destlist] (a file opened for reading, here its content). *)
Record NotifyArgs := mkNotifyArgs {
  pid : Z;
  attachments : option string;
  to : option (list string);
  destlist : option string
}.

(** One part added by [email.add_attachment]. *)
Record Attachment := mkAttachment {
  att_data : list Byte.byte;
  att_maintype : string;
  att_subtype : string;
  att_filename : string
}.

(** The [EmailMessage] under construction, by what the program puts into
    it: the values assigned to the [Subject], [From] and [To] headers, the
    text given to [set_content] and the parts added.  What the message
    gives back is computed from these by the library, see [get_content],
    [recipients] and [To_header] below. *)
Record Email := mkEmail {
  em_subject : string;
  em_from : string;
  em_content : string;
  em_to : option string;
  em_parts : list Attachment
}.

(** A [psutil.Process] object: the pid and the attributes the program
    reads back later.  [_create_time] is a private attribute of the
    library, [None] until the library fills it: the program never calls
    [create_time()].  [_name] is filled by [name()], [_cmdline] by the
    program itself. *)
Record Process := mkProcess {
  proc_pid : Z;
  _name : option string;
  _create_time : option float;
  _cmdline : option string
}.

Inductive LogLevel := DEBUG | INFO | WARNING | ERROR.

(** What [_send_mail] is given as its first argument: the namespace in the
    credential test, a message afterwards. *)
Inductive MailArg := MailNamespace (args : NotifyArgs) | MailMessage (m : Email).

(** Observable effects. *)
Inductive Event :=
| EvLog (level : LogLevel) (text : string)
| EvPrint (text : string)
| EvPrintHelp
| EvKill (target : Z) (sig : Z)
| EvGetenv (name : string)
| EvGetpass (prompt : string)
| EvConnect (server port : string)
| EvEhlo
| EvStartTls
| EvLogin (user password : string)
| EvSendMessage (m : MailArg)
| EvQuit
| EvFork
| EvProcessLookup (target : Z)
| EvProcessName (target : Z)
| EvProcessCmdline (target : Z)
| EvWaitProcs (targets : list Z)
| EvReadDestlist
| EvGlob (pattern : string)
| EvIsFile (path : string)
| EvOpenRead (path : string)
| EvWriteConf (c : Configuration).

(** ** The environment *)

(** What the process table says about a pid at one observation. *)
Record ProcInfo := mkProcInfo {
  p_name : string;
  p_create_time : float;
  p_cmdline : list string;
  p_may_signal : bool
}.

(** The script of one SMTP connection: for each step the exception it
    raises, if any.  [s_quit] is what leaving the [with] block raises. *)
Record Session := mkSession {
  s_connect : option Exn;
  s_ehlo1 : option Exn;
  s_starttls : option Exn;
  s_ehlo2 : option Exn;
  s_login : option Exn;
  s_send : option Exn;
  s_quit : option Exn
}.

(** What the program cannot decide itself:
    - [environ]: the environment variables;
    - [getpass_input n]: what is typed at the [n]-th password prompt;
    - [proc_table t target]: what the [t]-th look at the process table
      finds for [target], [None] when there is no such process (for
      [os.kill] a non-positive target stands for a process group);
    - [smtp_session n]: how the [n]-th SMTP connection goes;
    - [fork_result]: what [os.fork()] returns, 0 in the child;
    - [strftime_local]: [time.strftime] of [time.localtime] of a timestamp;
    - [time_now t]: what the clock shows, [time.time()], once the process
      table has been looked at [t] times;
    - [caches_create_time]: whether the constructor [psutil.Process(pid)]
      leaves the creation time in [_create_time] (psutil 5.9 does, psutil 7
      leaves [None] there until [create_time()] is called);
    - [address_list value]: the entries of the address list an
      [EmailMessage] holds once [value] is assigned to its [To] header,
      each as the header gives it back;
    - [fs_glob], [fs_isfile], [fs_read]: [glob.iglob], [os.path.isfile] and
      reading a file opened in binary mode;
    - [guess_type]: [mimetypes.guess_type]. *)
Record World := mkWorld {
  environ : string -> option string;
  getpass_input : nat -> string;
  proc_table : nat -> Z -> option ProcInfo;
  smtp_session : nat -> Session;
  fork_result : Z;
  strftime_local : float -> string;
  fs_glob : string -> list string;
  fs_isfile : string -> bool;
  fs_read : string -> Exn + list Byte.byte;
  guess_type : string -> option string * option string;
  time_now : nat -> float;
  caches_create_time : bool;
  address_list : string -> list string
}.

(** ** Program state *)

(** - [st_obs]: the looks at the process table so far;
    - [st_prompts]: the password prompts so far;
    - [st_sessions]: the SMTP connections opened so far;
    - [st_destlist_read]: whether the recipient-list file has been read;
    - [st_notify_conf]: the module-level [conf] of src/notify.py, unbound
      until [set_conf] is called;
    - [st_conf]: the [conf] of e_notify.py;
    - [st_conf_ini]: the configuration conf.ini holds, as a
      [ConfigParser] reads it. *)
Record State := mkState {
  st_obs : nat;
  st_prompts : nat;
  st_sessions : nat;
  st_destlist_read : bool;
  st_notify_conf : option Configuration;
  st_conf : Configuration;
  st_conf_ini : Configuration
}.

Definition bump_obs (s : State) : State :=
  mkState (S (st_obs s)) (st_prompts s) (st_sessions s) (st_destlist_read s)
          (st_notify_conf s) (st_conf s) (st_conf_ini s).

Definition bump_prompts (s : State) : State :=
  mkState (st_obs s) (S (st_prompts s)) (st_sessions s) (st_destlist_read s)
          (st_notify_conf s) (st_conf s) (st_conf_ini s).

Definition bump_sessions (s : State) : State :=
  mkState (st_obs s) (st_prompts s) (S (st_sessions s)) (st_destlist_read s)
          (st_notify_conf s) (st_conf s) (st_conf_ini s).

Definition mark_destlist_read (s : State) : State :=
  mkState (st_obs s) (st_prompts s) (st_sessions s) true
          (st_notify_conf s) (st_conf s) (st_conf_ini s).

Definition with_notify_conf (c : option Configuration) (s : State) : State :=
  mkState (st_obs s) (st_prompts s) (st_sessions s) (st_destlist_read s)
          c (st_conf s) (st_conf_ini s).

Definition with_conf (c : Configuration) (s : State) : State :=
  mkState (st_obs s) (st_prompts s) (st_sessions s) (st_destlist_read s)
          (st_notify_conf s) c (st_conf_ini s).

Definition with_conf_ini (c : Configuration) (s : State) : State :=
  mkState (st_obs s) (st_prompts s) (st_sessions s) (st_destlist_read s)
          (st_notify_conf s) (st_conf s) c.

(** ** The monad of effects

    A computation takes the state and gives its outcome, the new state and
    the events it caused, oldest first. *)

Definition M (A : Type) : Type := State -> Outcome A * State * list Event.

Definition ret {A} (a : A) : M A := fun s => (Ret a, s, []).

Definition bind {A B} (m : M A) (k : A -> M B) : M B :=
  fun s =>
    match m s with
    | (Ret a, s', tr) =>
        match k a s' with
        | (o, s'', tr') => (o, s'', tr ++ tr')
        end
    | (Raise e, s', tr) => (Raise e, s', tr)
    | (Exit c, s', tr) => (Exit c, s', tr)
    | (Running, s', tr) => (Running, s', tr)
    end.

Definition raise {A} (e : Exn) : M A := fun s => (Raise e, s, []).
Definition exit {A} (code : Z) : M A := fun s => (Exit code, s, []).
Definition out_of_fuel {A} : M A := fun s => (Running, s, []).
Definition gets {A} (f : State -> A) : M A := fun s => (Ret (f s), s, []).
Definition modify (f : State -> State) : M unit := fun s => (Ret tt, f s, []).
Definition emit (e : Event) : M unit := fun s => (Ret tt, s, [e]).
Definition log (level : LogLevel) (text : string) : M unit := emit (EvLog level text).

(** The three components of a run. *)
Definition outcome_of {A} (r : Outcome A * State * list Event) : Outcome A := fst (fst r).
Definition state_of {A} (r : Outcome A * State * list Event) : State := snd (fst r).
Definition events_of {A} (r : Outcome A * State * list Event) : list Event := snd r.

(** An oracle step that raises what the script says. *)
Definition step (e : Event) (script : option Exn) : M unit :=
  bind (emit e) (fun _ => match script with Some x => raise x | None => ret tt end).

Declare Scope eff_scope.
Delimit Scope eff_scope with eff.
Notation "x <- m ;; k" := (bind m (fun x => k))
  (at level 100, m at next level, right associativity) : eff_scope.
Notation "m ;;; k" := (bind m (fun _ => k))
  (at level 100, right associativity) : eff_scope.
Open Scope eff_scope.

(** [for x in l: body x], stopping at the first exception or exit. *)
Fixpoint for_each {A} (l : list A) (body : A -> M unit) : M unit :=
  match l with
  | [] => ret tt
  | x :: rest => body x ;;; for_each rest body
  end.

(** [for x in l: acc = body acc x] for a loop that updates an object. *)
Fixpoint fold_m {A B} (body : B -> A -> M B) (l : list A) (acc : B) : M B :=
  match l with
  | [] => ret acc
  | x :: rest => acc' <- body acc x ;; fold_m body rest acc'
  end.

(** [try: body / except <handled>: handler] *)
Definition try_except {A} (body : M A) (handled : Exn -> bool)
    (handler : Exn -> M A) : M A :=
  fun s =>
    match body s with
    | (Raise e, s', tr) =>
        if handled e
        then match handler e s' with
             | (o, s'', tr') => (o, s'', tr ++ tr')
             end
        else (Raise e, s', tr)
    | r => r
    end.

(** Lookup in an ordered dict. *)
Fixpoint assoc {A} (k : string) (l : list (string * A)) : option A :=
  match l with
  | [] => None
  | (k', v) :: rest => if decide (k' = k) then Some v else assoc k rest
  end.

(** Assignment to an existing key of an ordered dict keeps its place. *)
Fixpoint assoc_set {A} (k : string) (v : A) (l : list (string * A)) : list (string * A) :=
  match l with
  | [] => [(k, v)]
  | (k', v') :: rest =>
      if decide (k' = k) then (k', v) :: rest else (k', v') :: assoc_set k v rest
  end.

Inductive SSLContext := DefaultContext.

(** * src/notify.py *)

Section WithWorld.

Variable w : World.

(** One more look at the process table. *)
Definition observe : M nat :=
  t <- gets st_obs ;; modify bump_obs ;;; ret t.

(** [set_conf(config)]: binds the module-level [conf]. *)
Definition set_conf (config : Configuration) : M unit :=
  modify (with_notify_conf (Some config)).

(** [conf[section][key]] on the module-level [conf] of src/notify.py. *)
Definition conf_get (section key : string) : M string :=
  c <- gets st_notify_conf ;;
  match c with
  | None => raise (mkExn NameError "name 'conf' is not defined")
  | Some c =>
      match assoc section c with
      | None => raise (mkExn KeyError section)
      | Some options =>
          match assoc key options with
          | None => raise (mkExn KeyError key)
          | Some v => ret v
          end
      end
  end.

(** [args.destlist.read()]: the whole file the first time, nothing left
    afterwards. *)
Definition destlist_read (content : string) : M string :=
  emit EvReadDestlist ;;;
  consumed <- gets st_destlist_read ;;
  modify mark_destlist_read ;;;
  ret (if consumed : bool then "" else content).

(** Lines 41-52 of [_format_mail]: the value of the [To] header. *)
Definition resolve_to (args : NotifyArgs) : M string :=
  match to args with
  | Some addresses => ret (Str.join ", " addresses)
  | None =>
      match destlist args with
      | Some content =>
          data <- destlist_read content ;;
          let receivers := Str.split Str.nl data in
          ret (Str.join ", " receivers)
      | None =>
          receiver <- conf_get "defaults" "receiver" ;;
          log INFO ("E-mail header 'To' wasn't fed to cmd, defaulting to " +:+ receiver) ;;;
          conf_get "defaults" "receiver"
      end
  end.

(** Lines 69-78 of [_format_mail]: the MIME type of an attachment. *)
Definition resolve_mime (attach_file : string) : M (string * string) :=
  let '(ctype, encoding) := guess_type w attach_file in
  ctype <- match ctype, encoding with
           | Some guessed, None => ret guessed
           | _, _ =>
               let ctype := "application/octet-stream" in
               log INFO ("The MIME type for the file '" +:+ attach_file
                         +:+ "' could not be guessed, default to '" +:+ ctype +:+ "'") ;;;
               ret ctype
           end ;;
  match Str.split_once "/" ctype with
  | [maintype; subtype] => ret (maintype, subtype)
  | _ => raise (mkExn ValueError "not enough values to unpack (expected 2, got 1)")
  end.

(** [email.get_content()]: [set_content] keeps the lines of the text, each
    ended by one line feed. *)
Definition get_content (email : Email) : string :=
  Str.join (String Str.nl "") (Str.splitlines (em_content email)) +:+ String Str.nl "".

(** The entries of the address list the [To] header holds. *)
Definition recipients (email : Email) : list string :=
  match em_to email with
  | Some value => address_list w value
  | None => []
  end.

(** [email['To']] as a string: the entries, separated by a comma and a
    blank. *)
Definition To_header (email : Email) : string :=
  match em_to email with
  | Some _ => Str.join ", " (recipients email)
  | None => "None"
  end.

Definition add_attachment (email : Email) (part : Attachment) : Email :=
  mkEmail (em_subject email) (em_from email) (em_content email) (em_to email)
          (em_parts email ++ [part]).

(** The body of the inner loop of [_format_mail], lines 62-86. *)
Definition attach_file_to (email : Email) (attach_file : string) : M Email :=
  emit (EvIsFile attach_file) ;;;
  if negb (fs_isfile w attach_file) then
    log WARNING (Str.capitalize attach_file +:+ " doesn't exist or isn't a file, skipping it") ;;;
    ret email
  else
    mime <- resolve_mime attach_file ;;
    let '(maintype, subtype) := mime in
    emit (EvOpenRead attach_file) ;;;
    match fs_read w attach_file with
    | inl e => raise e
    | inr data =>
        let email := add_attachment email
                       (mkAttachment data maintype subtype (Str.basename attach_file)) in
        log DEBUG ("Successfully attached the file " +:+ attach_file +:+ " the the mail") ;;;
        ret email
    end.

(** The outer loop, lines 58-86, over whatever [args.attachments] yields
    when iterated. *)
Definition attach_all (email : Email) (patterns : list string) : M Email :=
  fold_m (fun email attach_path =>
            emit (EvGlob attach_path) ;;;
            fold_m attach_file_to (fs_glob w attach_path) email)
         patterns email.

Definition _format_mail (args : NotifyArgs) (sender subject body : string) : M Email :=
  log DEBUG ("Changed the email header 'From' to " +:+ sender) ;;;
  to_header <- resolve_to args ;;
  let email := mkEmail subject sender body (Some to_header) [] in
  log DEBUG ("Changed the email header 'To' to " +:+ To_header email) ;;;
  match attachments args with
  | None => ret email
  | Some attachments => attach_all email (Str.chars attachments)
  end.

(** [server.send_message(mail)]: only a message has what it reads. *)
Definition send_message (sess : Session) (mail : MailArg) : M unit :=
  emit (EvSendMessage mail) ;;;
  match mail with
  | MailNamespace _ =>
      raise (mkExn AttributeError "'Namespace' object has no attribute 'get_all'")
  | MailMessage _ =>
      match s_send sess with
      | Some e => raise e
      | None => ret tt
      end
  end.

(** [with smtplib.SMTP(server, port) as server: body]: the constructor
    connects; leaving the block, however it is left, says QUIT. *)
Definition with_SMTP {A} (smtp_server smtp_port : string) (body : Session -> M A) : M A :=
  n <- gets st_sessions ;;
  modify bump_sessions ;;;
  let sess := smtp_session w n in
  step (EvConnect smtp_server smtp_port) (s_connect sess) ;;;
  fun s =>
    match body sess s with
    | (Running, s', tr) => (Running, s', tr)
    | (o, s', tr) =>
        match step EvQuit (s_quit sess) s' with
        | (Raise e, s'', tr') => (Raise e, s'', tr ++ tr')
        | (_, s'', tr') => (o, s'', tr ++ tr')
        end
    end.

Definition _send_mail (mail : MailArg) (smtp_server smtp_port sender_email password : string)
    (ssl_context : SSLContext) (test_login : bool) : M ReturnValue :=
  with_SMTP smtp_server smtp_port (fun server =>
    log DEBUG "Initiating ehlo for the tls handshake" ;;;
    step EvEhlo (s_ehlo1 server) ;;;
    step EvStartTls (s_starttls server) ;;;
    step EvEhlo (s_ehlo2 server) ;;;
    log DEBUG "Ended ehlo for the tls handshake" ;;;
    emit (EvLogin sender_email password) ;;;
    match s_login server with
    | Some err =>
        if is_SMTPAuthenticationError err then
          log ERROR "Error during the login process, most probably the username/password combination was wrong" ;;;
          ret LoginError
        else if is_Exception err then
          log ERROR ("An unexpected error occured : " +:+ exn_msg err) ;;;
          ret OtherError
        else raise err
    | None =>
        (if negb test_login then
           log INFO "Sending the mail" ;;;
           send_message server mail
         else ret tt) ;;;
        ret Success
    end).

(** [psutil.Process(pid)]: fails for a pid the process table does not
    have.  Whether the constructor leaves the creation time in
    [_create_time] depends on the library installed. *)
Definition psutil_Process (target : Z) : M Process :=
  emit (EvProcessLookup target) ;;;
  t <- observe ;;
  match proc_table w t target with
  | None => raise (mkExn NoSuchProcess "process PID not found")
  | Some info =>
      ret (mkProcess target None
                     (if caches_create_time w then Some (p_create_time info) else None)
                     None)
  end.

(** [proc.name()]: reads the name and keeps it in [_name]. *)
Definition Process_name (proc : Process) : M (string * Process) :=
  emit (EvProcessName (proc_pid proc)) ;;;
  t <- observe ;;
  match proc_table w t (proc_pid proc) with
  | None => raise (mkExn NoSuchProcess "process no longer exists")
  | Some info =>
      ret (p_name info,
           mkProcess (proc_pid proc) (Some (p_name info)) (_create_time proc) (_cmdline proc))
  end.

(** [proc.cmdline()] *)
Definition Process_cmdline (proc : Process) : M (list string) :=
  emit (EvProcessCmdline (proc_pid proc)) ;;;
  t <- observe ;;
  match proc_table w t (proc_pid proc) with
  | None => raise (mkExn NoSuchProcess "process no longer exists")
  | Some info => ret (p_cmdline info)
  end.

Definition is_gone (t : nat) (proc : Process) : bool :=
  match proc_table w t (proc_pid proc) with
  | None => true
  | Some _ => false
  end.

(** [psutil.wait_procs(procs, timeout=1)]: one bounded wait, after which
    the processes are split into those gone and those still alive. *)
Definition wait_procs (procs : list Process) : M (list Process * list Process) :=
  emit (EvWaitProcs (map proc_pid procs)) ;;;
  t <- observe ;;
  ret (List.filter (is_gone t) procs, List.filter (fun p => negb (is_gone t p)) procs).

(** The generator object [_wait_process(args)] returns: not started yet,
    suspended at its [yield] with the processes still alive, or finished. *)
Inductive Generator :=
| GenCreated (args : NotifyArgs)
| GenSuspended (alive : list Process)
| GenFinished.

Definition _wait_process (args : NotifyArgs) : Generator := GenCreated args.

(** Lines 131-133: the attributes cached for later. *)
Definition cache_attributes (proc : Process) : M Process :=
  named <- Process_name proc ;;
  let proc := snd named in
  cmdline <- Process_cmdline proc ;;
  ret (mkProcess (proc_pid proc) (_name proc) (_create_time proc)
                 (Some (Str.join " " cmdline))).

Fixpoint map_m {A B} (f : A -> M B) (l : list A) : M (list B) :=
  match l with
  | [] => ret []
  | x :: rest => y <- f x ;; ys <- map_m f rest ;; ret (y :: ys)
  end.

(** Lines 135-137: the loop test, one wait and the [yield]. *)
Definition poll (alive : list Process) : M (option (list Process) * Generator) :=
  if negb (length alive =? 0)%nat then
    waited <- wait_procs alive ;;
    let '(ended, alive) := waited in
    ret (Some ended, GenSuspended alive)
  else ret (None, GenFinished).

(** [next(generator)]: the batch yielded, or [None] at [StopIteration]. *)
Definition next (g : Generator) : M (option (list Process) * Generator) :=
  match g with
  | GenCreated args =>
      procs <- psutil_Process (pid args) ;;
      alive <- map_m cache_attributes [procs] ;;
      poll alive
  | GenSuspended alive => poll alive
  | GenFinished => ret (None, GenFinished)
  end.

(** [for batch in generator: body batch], with fuel for the iterations. *)
Fixpoint for_generator (fuel : nat) (g : Generator) (body : list Process -> M unit) : M unit :=
  match fuel with
  | O => out_of_fuel
  | S fuel =>
      yielded <- next g ;;
      match yielded with
      | (None, _) => ret tt
      | (Some batch, g) => body batch ;;; for_generator fuel g body
      end
  end.

(** Lines 153-156: the password, from the environment or the terminal. *)
Definition resolve_password : M string :=
  emit (EvGetenv "E_NOTIFY_PASS") ;;;
  match environ w "E_NOTIFY_PASS" with
  | Some password => ret password
  | None =>
      emit (EvGetpass "Your password :") ;;;
      n <- gets st_prompts ;;
      modify bump_prompts ;;;
      ret (getpass_input w n)
  end.

(** Lines 150-172: [for _ in range(n)] with its [break] and its [exit(0)];
    the loop leaves [authentication_success] and the last [password]. *)
Fixpoint auth_loop (n : nat) (args : NotifyArgs) (smtp_server smtp_port sender_email : string)
    (ssl_context : SSLContext) (password : option string) : M (bool * option string) :=
  match n with
  | O => ret (false, password)
  | S n =>
      password <- resolve_password ;;
      return_value <- _send_mail (MailNamespace args) smtp_server smtp_port sender_email
                        password ssl_context true ;;
      match return_value with
      | Success => ret (true, Some password)
      | OtherError => exit 0
      | LoginError =>
          auth_loop n args smtp_server smtp_port sender_email ssl_context (Some password)
      end
  end.

Definition format_option (o : option string) : string :=
  match o with Some s => s | None => "None" end.

(** [time.localtime(secs)]: of the clock when [secs] is [None]. *)
Definition localtime_of (secs : option float) : M float :=
  match secs with
  | Some t => ret t
  | None => t <- gets st_obs ;; ret (time_now w t)
  end.

(** The f-string of lines 186-190. *)
Definition notification_body (name : option string) (created : float) (cmdline : string)
    : string :=
  String Str.nl "Process name : " +:+ format_option name +:+
  String Str.nl "Creation time : " +:+ strftime_local w created +:+
  String " " (String Str.nl "Command line used to invoke it : '") +:+ cmdline +:+
  String "'" (String Str.nl "                ").

(** Lines 185-194: what is done for one ended process. *)
Definition notify_ended (args : NotifyArgs) (smtp_server smtp_port sender_email : string)
    (password : option string) (ssl_context : SSLContext) (ended_proc : Process) : M unit :=
  let subject := "The process with pid : " +:+ Str.of_int (proc_pid ended_proc) +:+ " has ended" in
  created <- localtime_of (_create_time ended_proc) ;;
  cmdline <- match _cmdline ended_proc with
             | Some c => ret c
             | None => raise (mkExn AttributeError "'Process' object has no attribute '_cmdline'")
             end ;;
  let body := notification_body (_name ended_proc) created cmdline in
  mail <- _format_mail args sender_email subject body ;;
  password <- match password with
              | Some p => ret p
              | None => raise (mkExn (OtherException "UnboundLocalError") "password")
              end ;;
  _send_mail (MailMessage mail) smtp_server smtp_port sender_email password ssl_context false ;;;
  ret tt.

(** Lines 174-177: without a successful test the run ends here. *)
Definition stop_unless (authentication_success : bool) : M unit :=
  if negb authentication_success then
    emit (EvPrint "You failed your password too much times") ;;;
    log WARNING "The username/password combination was failed too much time" ;;;
    exit 0
  else ret tt.

(** Lines 181-197: the fork; the child watches and notifies, the parent
    returns the pid of the child. *)
Definition fork_and_watch (fuel : nat) (args : NotifyArgs)
    (smtp_server smtp_port sender_email : string) (password : option string)
    (ssl_context : SSLContext) : M (option Z) :=
  emit EvFork ;;;
  let pid := fork_result w in
  if pid =? 0 then
    for_generator fuel (_wait_process args) (fun ended_processes =>
      for_each ended_processes
        (notify_ended args smtp_server smtp_port sender_email password ssl_context)) ;;;
    ret None
  else ret (Some pid).

(** [notify(args)]: [Some pid] is the parent's return value, [None] what
    the child returns when the watch is over. *)
Definition notify (fuel : nat) (args : NotifyArgs) : M (option Z) :=
  smtp_server <- conf_get "SMTP.servers" "server" ;;
  smtp_port <- conf_get "SMTP.port" "port" ;;
  sender_email <- conf_get "SMTP.login" "sender" ;;
  let ssl_context := DefaultContext in
  auth <- auth_loop 3 args smtp_server smtp_port sender_email ssl_context None ;;
  let '(authentication_success, password) := auth in
  stop_unless authentication_success ;;;
  fork_and_watch fuel args smtp_server smtp_port sender_email password ssl_context.

(** * e_notify.py *)

(** [os.kill(pid, 0)]: no signal is sent, the existence and permission
    checks are made. *)
Definition os_kill (target sig : Z) : M unit :=
  emit (EvKill target sig) ;;;
  t <- observe ;;
  match proc_table w t target with
  | None => raise (mkExn ProcessLookupError "[Errno 3] No such process")
  | Some info =>
      if p_may_signal info then ret tt
      else raise (mkExn PermissionError "[Errno 1] Operation not permitted")
  end.

(** In e_notify.py the name [notify] is bound by
    [import src.notify as notify]: calling it calls a module. *)
Definition call_notify_module (args : NotifyArgs) : M unit :=
  raise (mkExn TypeError "'module' object is not callable").

Definition notify_target (args : NotifyArgs) : M unit :=
  try_except (os_kill (pid args) 0) is_ProcessLookupError
    (fun _ => raise (mkExn ProcessLookupError
                       ("The Process with PID : " +:+ Str.of_int (pid args) +:+ " does not exist"))) ;;;
  call_notify_module args.

(** The namespace argparse builds for the [config] subcommand: one
    attribute per option name, [None] when the flag is absent. *)
Definition ConfigArgs := gmap string (option string).

Definition getattr (args : ConfigArgs) (name : string) : M (option string) :=
  match args !! name with
  | Some v => ret v
  | None => raise (mkExn AttributeError ("'Namespace' object has no attribute '" +:+ name +:+ "'"))
  end.

(** [args.logger.debug(text)]: the namespace has a [logger] attribute only
    when an option is called so, and then it is a str or [None]. *)
Definition args_logger_debug (args : ConfigArgs) (text : string) : M unit :=
  logger <- getattr args "logger" ;;
  raise (mkExn AttributeError
           (match logger with
            | Some _ => "'str' object has no attribute 'debug'"
            | None => "'NoneType' object has no attribute 'debug'"
            end)).

(** [conf[conf_key]] on the [conf] of e_notify.py. *)
Definition conf_section (conf_key : string) : M Options :=
  c <- gets st_conf ;;
  match assoc conf_key c with
  | Some options => ret options
  | None => raise (mkExn KeyError conf_key)
  end.

(** [value.replace('%%', '')] *)
Fixpoint drop_escaped_percents (value : string) : string :=
  match value with
  | String a rest =>
      match rest with
      | String b rest' =>
          if Ascii.eqb a "%" && Ascii.eqb b "%" then drop_escaped_percents rest'
          else String a (drop_escaped_percents rest)
      | EmptyString => value
      end
  | EmptyString => EmptyString
  end.

(** Where a scan for the references [%(name)s] stands: outside of one,
    after its [%], after its [(], inside a name that is not empty, or
    after its [)]. *)
Inductive KeyScan := Outside | AfterPercent | AfterOpen | InName | AfterClose.

Definition key_scan (st : KeyScan) (a : ascii) : option KeyScan :=
  match st with
  | Outside => Some (if Ascii.eqb a "%" then AfterPercent else Outside)
  | AfterPercent => if Ascii.eqb a "(" then Some AfterOpen else None
  | AfterOpen => if Ascii.eqb a ")" then None else Some InName
  | InName => Some (if Ascii.eqb a ")" then AfterClose else InName)
  | AfterClose => if Ascii.eqb a "s" then Some Outside else None
  end.

(** No [%] is left once the references [%(name)s] are taken out. *)
Fixpoint only_references (st : KeyScan) (value : string) : bool :=
  match value with
  | EmptyString => match st with Outside => true | _ => false end
  | String a rest =>
      match key_scan st a with
      | Some st' => only_references st' rest
      | None => false
      end
  end.

(** What [BasicInterpolation.before_set] lets pass: after the escaped
    [%%] and the references [%(name)s] are taken out, no [%] is left. *)
Definition valid_interpolation (value : string) : bool :=
  only_references Outside (drop_escaped_percents value).

(** [conf[conf_key][section_key] = value]: the parser refuses a value
    whose interpolation syntax is invalid with [ValueError] (its text goes
    on with the value and the position). *)
Definition conf_set (conf_key section_key value : string) : M unit :=
  options <- conf_section conf_key ;;
  if valid_interpolation value then
    modify (fun s =>
      with_conf (assoc_set conf_key (assoc_set section_key value options) (st_conf s)) s)
  else raise (mkExn ValueError "invalid interpolation syntax").

(** [conf.write(open("conf.ini", "w"))] *)
Definition conf_write : M unit :=
  c <- gets st_conf ;;
  emit (EvWriteConf c) ;;;
  modify (with_conf_ini c).

(** Lines 16-20: one option of one section. *)
Definition edit_option (args : ConfigArgs) (conf_key section_key : string) : M unit :=
  given <- getattr args section_key ;;
  match given with
  | None => ret tt
  | Some value =>
      conf_set conf_key section_key value ;;;
      args_logger_debug args
        ("Changed the configuration pair : " +:+ section_key +:+ " = " +:+ value)
  end.

(** Lines 15-20: the options of one section. *)
Definition edit_section (args : ConfigArgs) (conf_key : string) : M unit :=
  options <- conf_section conf_key ;;
  for_each (map fst options) (edit_option args conf_key).

Definition config_target (args : ConfigArgs) : M unit :=
  sections <- gets (fun s => map fst (st_conf s)) ;;
  for_each sections (edit_section args) ;;;
  conf_write.

(** What [parser.parse_args()] returns: the namespace of one of the two
    subcommands, with its [func], or a namespace without [func]. *)
Inductive Parsed :=
| ParsedConfig (args : ConfigArgs)
| ParsedNotify (args : NotifyArgs)
| ParsedNone.

Definition option_names (c : Configuration) : list string :=
  concat (map (fun section => map fst (snd section)) c).

(** The namespace of [config --name value ...] for a command line the
    parser accepts: the parser has one [--name] per option of the
    configuration read at startup, [None] by default, and the last value
    given wins.  It is built only when the option names are pairwise
    different, and it takes the command line only when every flag names an
    option (argparse ends the run with status 2 otherwise); an option
    name with a dash is stored under the name with an underscore, so the
    names here have none. *)
Definition config_namespace (c : Configuration) (flags : list (string * string)) : ConfigArgs :=
  let names := option_names c in
  foldl (fun (ns : ConfigArgs) flag =>
           if decide (fst flag ∈ names) then <[fst flag := Some (snd flag)]> ns else ns)
        (list_to_map (map (fun name => (name, None)) names))
        flags.

(** The [__main__] block. *)
Definition main (parsed : Parsed) : M unit :=
  modify (fun s => with_conf (st_conf_ini s) s) ;;;
  match parsed with
  | ParsedConfig args => config_target args
  | ParsedNotify args => notify_target args
  | ParsedNone => emit EvPrintHelp
  end.

End WithWorld.

(** The state the interpreter starts in: nothing observed yet, [conf] of
    src/notify.py unbound, [conf.ini] as found on disk. *)
Definition initial_state (conf_ini : Configuration) : State :=
  mkState 0 0 0 false None [] conf_ini.

(** The exit status the shell sees: 0 after a normal end, 1 after an
    uncaught exception, the argument of [exit] otherwise. *)
Definition exit_status {A} (o : Outcome A) : option Z :=
  match o with
  | Ret _ => Some 0
  | Raise _ => Some 1
  | Exit code => Some code
  | Running => None
  end.

(** * Sample environments *)

Module Sample.

Definition sleep_info : ProcInfo :=
  mkProcInfo "sleep" 1700000000.5%float ["sleep"; "100"] true.

Definition init_info : ProcInfo :=
  mkProcInfo "systemd" 1690000000%float ["/sbin/init"] false.

Definition accepting : Session := mkSession None None None None None None None.

(** A reader of address lists that cuts at the commas, drops the blanks
    around the pieces and leaves the empty pieces out. *)
Fixpoint strip_left (s : string) : string :=
  match s with
  | String " " rest => strip_left rest
  | _ => s
  end.

Fixpoint strip_right (s : string) : string :=
  match s with
  | EmptyString => EmptyString
  | String a rest =>
      match strip_right rest with
      | EmptyString => if Ascii.eqb a " " then EmptyString else String a EmptyString
      | kept => String a kept
      end
  end.

Definition comma_separated (value : string) : list string :=
  List.filter (fun piece => negb (String.eqb piece ""))
              (map (fun piece => strip_right (strip_left piece)) (Str.split "," value)).

Definition rejecting : Session :=
  mkSession None None None None
            (Some (mkExn SMTPAuthenticationError "(535, b'5.7.8 Username and Password not accepted')"))
            None None.

Definition refusing : Session :=
  mkSession (Some (mkExn (OtherException "ConnectionRefusedError") "[Errno 111] Connection refused"))
            None None None None None None.

(** Pid 42 is a [sleep 100] that is seen alive at the first [alive_for]
    observations; pid 1 belongs to another user; the directory holds the
    regular file [a.txt] and nothing else; the library keeps the creation
    time of a process in its object, and address lists are read by
    [comma_separated]. *)
Definition world (alive_for : nat) (session : nat -> Session) (password : option string) : World :=
  mkWorld
    (fun name => if decide (name = "E_NOTIFY_PASS") then password else None)
    (fun n => "secret" +:+ Str.of_int (Z.of_nat n))
    (fun t target =>
       if decide (target = 42) then
         (if decide (t < alive_for)%nat then Some sleep_info else None)
       else if decide (target = 1) then Some init_info
       else None)
    session
    0
    (fun _ => "Tue, 14 Nov 2023 22:13:20")
    (fun pattern =>
       if decide (pattern = "a.txt") then ["a.txt"]
       else if decide (pattern = ".") then ["."]
       else [])
    (fun path => bool_decide (path = "a.txt"))
    (fun path => inr [])
    (fun path => (None, None))
    (fun _ => 1700003600%float)
    true
    comma_separated.

Definition conf : Configuration :=
  [("SMTP.servers", [("server", "smtp.example.org")]);
   ("SMTP.port", [("port", "587")]);
   ("SMTP.login", [("sender", "me@example.org")]);
   ("defaults", [("receiver", "you@example.org")])].

Definition args (target : Z) : NotifyArgs := mkNotifyArgs target None None None.

(** A session of the interpreter in which [set_conf] has been called. *)
Definition configured : State := with_notify_conf (Some conf) (initial_state conf).

Example configured_by_set_conf : set_conf conf (initial_state conf) = (Ret tt, configured, []).
Proof. reflexivity. Qed.

End Sample.

(** * Validation of the target pid *)

Definition not_found_message (target : Z) : string :=
  "The Process with PID : " +:+ Str.of_int target +:+ " does not exist".

(** C1, as the code has it: for a pid that names no live process the notify
    subcommand ends at once with [ProcessLookupError], which carries the
    message; the only effect is the probe, so nothing is authenticated,
    watched or sent; the exception is not caught and the exit status is 1. *)
Theorem notify_dead_pid_raises (w : World) (args : NotifyArgs) (conf_ini : Configuration) :
  proc_table w 0 (pid args) = None ->
  let run := main w (ParsedNotify args) (initial_state conf_ini) in
  outcome_of run = Raise (mkExn ProcessLookupError (not_found_message (pid args)))
  /\ events_of run = [EvKill (pid args) 0]
  /\ st_sessions (state_of run) = 0%nat
  /\ exit_status (outcome_of run) = Some 1.
Proof.
  intros Hdead run. subst run.
  unfold main, notify_target, try_except, os_kill, observe, bind, modify, gets, emit.
  cbn. rewrite Hdead. cbn. auto.
Qed.

Lemma notify_dead_pid_raises_witness :
  let run := main (Sample.world 0 (fun _ => Sample.accepting) None)
                  (ParsedNotify (Sample.args 7)) (initial_state Sample.conf) in
  outcome_of run = Raise (mkExn ProcessLookupError "The Process with PID : 7 does not exist")
  /\ events_of run = [EvKill 7 0]
  /\ st_sessions (state_of run) = 0%nat
  /\ exit_status (outcome_of run) = Some 1.
Proof.
  apply (notify_dead_pid_raises (Sample.world 0 (fun _ => Sample.accepting) None)
                                (Sample.args 7) Sample.conf).
  reflexivity.
Defined.

(** C1 as stated fails: with pid 7 dead the exit status is not 0. *)
Lemma notify_dead_pid_exit_status_not_zero :
  proc_table (Sample.world 0 (fun _ => Sample.accepting) None) 0 7 = None
  /\ exit_status (outcome_of (main (Sample.world 0 (fun _ => Sample.accepting) None)
                                   (ParsedNotify (Sample.args 7))
                                   (initial_state Sample.conf))) <> Some 0.
Proof. split; [reflexivity | vm_compute; discriminate]. Qed.

(** C2, as the code has it: when the probe [os.kill(pid, 0)] returns, the
    notify subcommand raises [TypeError]; the probe is its only effect, no
    connection is opened, and the [conf] of src/notify.py is still unbound. *)
Theorem notify_live_pid_calls_module (w : World) (args : NotifyArgs)
    (conf_ini : Configuration) (info : ProcInfo) :
  proc_table w 0 (pid args) = Some info ->
  p_may_signal info = true ->
  let run := main w (ParsedNotify args) (initial_state conf_ini) in
  outcome_of run = Raise (mkExn TypeError "'module' object is not callable")
  /\ events_of run = [EvKill (pid args) 0]
  /\ st_sessions (state_of run) = 0%nat
  /\ st_notify_conf (state_of run) = None.
Proof.
  intros Hlive Hperm run. subst run.
  unfold main, notify_target, call_notify_module, try_except, os_kill, observe,
    bind, modify, gets, emit, raise.
  cbn. rewrite Hlive. cbn. rewrite Hperm. cbn. auto.
Qed.

Lemma notify_live_pid_calls_module_witness :
  let run := main (Sample.world 5 (fun _ => Sample.accepting) None)
                  (ParsedNotify (Sample.args 42)) (initial_state Sample.conf) in
  outcome_of run = Raise (mkExn TypeError "'module' object is not callable")
  /\ events_of run = [EvKill 42 0]
  /\ st_sessions (state_of run) = 0%nat
  /\ st_notify_conf (state_of run) = None.
Proof.
  apply (notify_live_pid_calls_module (Sample.world 5 (fun _ => Sample.accepting) None)
                                      (Sample.args 42) Sample.conf Sample.sleep_info);
    reflexivity.
Defined.

(** C2 as stated fails: pid 1 is alive, and the run ends with
    [PermissionError], not with [TypeError]. *)
Lemma notify_live_pid_permission_error :
  proc_table (Sample.world 0 (fun _ => Sample.accepting) None) 0 1 = Some Sample.init_info
  /\ outcome_of (main (Sample.world 0 (fun _ => Sample.accepting) None)
                      (ParsedNotify (Sample.args 1)) (initial_state Sample.conf))
     = Raise (mkExn PermissionError "[Errno 1] Operation not permitted")
  /\ PermissionError <> TypeError.
Proof. split; [reflexivity | split; [reflexivity | discriminate]]. Qed.

(** * MIME resolution *)

(** A string with a slash is cut in two by [split("/", 1)]. *)
Lemma split_once_two (s : string) :
  "/"%char ∈ list_ascii_of_string s ->
  exists maintype subtype, Str.split_once "/" s = [maintype; subtype].
Proof.
  induction s as [|a rest IH]; cbn [list_ascii_of_string Str.split_once]; intros Hin.
  - inversion Hin.
  - destruct (Ascii.eqb_spec a "/"%char) as [->|Hne]; [eauto |].
    apply elem_of_cons in Hin as [Heq | Hin]; [congruence |].
    destruct (IH Hin) as (maintype & subtype & ->). eauto.
Qed.

(** C10: when [guess_type] gives no type, or gives one together with an
    encoding, [resolve_mime] returns the pair
    [("application", "octet-stream")]; and it raises for no path whose
    guessed type, if there is one, has the form type/subtype that
    [guess_type] documents. *)
Theorem mime_fallback (w : World) (attach_file : string) (s : State) :
  (fst (guess_type w attach_file) = None \/ snd (guess_type w attach_file) <> None ->
   outcome_of (resolve_mime w attach_file s) = Ret ("application", "octet-stream"))
  /\ ((forall guessed, fst (guess_type w attach_file) = Some guessed ->
                       "/"%char ∈ list_ascii_of_string guessed) ->
      exists resolved, outcome_of (resolve_mime w attach_file s) = Ret resolved).
Proof.
  unfold resolve_mime.
  destruct (guess_type w attach_file) as [[ctype|] [encoding|]]; cbn; split;
    try (intros [H|H]; try discriminate; try (exfalso; apply H; reflexivity));
    try reflexivity; try (intros _; eexists; reflexivity).
  intros Hform. destruct (split_once_two ctype (Hform ctype eq_refl))
    as (maintype & subtype & Hsplit).
  unfold bind, ret, outcome_of. cbn. rewrite Hsplit. eauto.
Qed.

Lemma mime_fallback_witness :
  (fst (guess_type (Sample.world 0 (fun _ => Sample.accepting) None) "notes.zzz") = None
   \/ snd (guess_type (Sample.world 0 (fun _ => Sample.accepting) None) "notes.zzz") <> None)
  /\ outcome_of (resolve_mime (Sample.world 0 (fun _ => Sample.accepting) None) "notes.zzz"
                              Sample.configured)
     = Ret ("application", "octet-stream").
Proof.
  split; [left; reflexivity |].
  apply (proj1 (mime_fallback (Sample.world 0 (fun _ => Sample.accepting) None) "notes.zzz"
                              Sample.configured)).
  left; reflexivity.
Defined.

(** A guessed type without encoding is cut at its first slash. *)
Lemma split_once_slash (maintype subtype : string) :
  (forall a, a ∈ list_ascii_of_string maintype -> a <> "/"%char) ->
  Str.split_once "/" (maintype +:+ String "/" subtype) = [maintype; subtype].
Proof.
  induction maintype as [|a rest IH]; intros Hslash.
  - reflexivity.
  - change (String a rest +:+ String "/" subtype)
      with (String a (rest +:+ String "/" subtype)).
    cbn [Str.split_once].
    destruct (Ascii.eqb_spec a "/"%char) as [->|Hne].
    + exfalso. apply (Hslash "/"%char); [left | reflexivity].
    + rewrite IH; [reflexivity |].
      intros b Hb. apply Hslash. cbn. right. exact Hb.
Qed.

Lemma mime_guessed (w : World) (attach_file maintype subtype : string) (s : State) :
  guess_type w attach_file = (Some (maintype +:+ String "/" subtype), None) ->
  (forall a, a ∈ list_ascii_of_string maintype -> a <> "/"%char) ->
  resolve_mime w attach_file s = (Ret (maintype, subtype), s, []).
Proof.
  intros Hguess Hslash. unfold resolve_mime. rewrite Hguess.
  unfold bind, ret. rewrite (split_once_slash _ _ Hslash). reflexivity.
Qed.

(** * Authenticating and sending *)

(** The steps around the login succeed. *)
Definition handshake_ok (sess : Session) : Prop :=
  s_connect sess = None /\ s_ehlo1 sess = None /\ s_starttls sess = None
  /\ s_ehlo2 sess = None /\ s_quit sess = None.

(** The three outcomes of a session whose other steps succeed. *)
Lemma send_mail_login_cases (w : World) (mail : MailArg)
    (smtp_server smtp_port sender_email password : string) (ssl_context : SSLContext)
    (test_login : bool) (s : State) :
  handshake_ok (smtp_session w (st_sessions s)) ->
  let sess := smtp_session w (st_sessions s) in
  let out := outcome_of (_send_mail w mail smtp_server smtp_port sender_email password
                                    ssl_context test_login s) in
  (forall e, s_login sess = Some e -> is_SMTPAuthenticationError e = true ->
             out = Ret LoginError)
  /\ (forall e, s_login sess = Some e -> is_SMTPAuthenticationError e = false ->
                is_Exception e = true -> out = Ret OtherError)
  /\ (s_login sess = None ->
      test_login = true \/ (exists m, mail = MailMessage m) /\ s_send sess = None ->
      out = Ret Success).
Proof.
  intros (Hc & He1 & Htls & He2 & Hq) sess out. subst sess out.
  unfold _send_mail, with_SMTP, send_message, step, log, emit, bind, modify, gets,
    raise, ret, outcome_of.
  cbn. destruct (smtp_session w (st_sessions s)) as [c e1 tls e2 lg sd q].
  cbn in *. subst. cbn. repeat split.
  - intros e -> Hauth. rewrite Hauth. reflexivity.
  - intros e -> Hauth Hexn. rewrite Hauth, Hexn. reflexivity.
  - intros -> [-> | [[m ->] ->]]; [reflexivity |].
    destruct test_login; reflexivity.
Qed.

(** C6, as the code has it: when the steps around the login succeed,
    [_send_mail] returns one of the three values: [LoginError] for rejected
    credentials, [OtherError] for any other [Exception] of the login, and
    [Success] after a login that succeeds (and, outside the test-only mode,
    a message that is transmitted). *)
Theorem send_mail_classifies_login (w : World) (mail : MailArg)
    (smtp_server smtp_port sender_email password : string) (ssl_context : SSLContext)
    (test_login : bool) (s : State) :
  handshake_ok (smtp_session w (st_sessions s)) ->
  let sess := smtp_session w (st_sessions s) in
  let out := outcome_of (_send_mail w mail smtp_server smtp_port sender_email password
                                    ssl_context test_login s) in
  (forall e, s_login sess = Some e -> is_SMTPAuthenticationError e = true ->
             out = Ret LoginError)
  /\ (forall e, s_login sess = Some e -> is_SMTPAuthenticationError e = false ->
                is_Exception e = true -> out = Ret OtherError)
  /\ (s_login sess = None ->
      test_login = true \/ (exists m, mail = MailMessage m) /\ s_send sess = None ->
      out = Ret Success).
Proof.
  apply send_mail_login_cases.
Qed.

Lemma send_mail_classifies_login_witness :
  handshake_ok (smtp_session (Sample.world 5 (fun _ => Sample.rejecting) None)
                             (st_sessions Sample.configured))
  /\ outcome_of (_send_mail (Sample.world 5 (fun _ => Sample.rejecting) None)
                            (MailNamespace (Sample.args 42)) "smtp.example.org" "587"
                            "me@example.org" "secret" DefaultContext true Sample.configured)
     = Ret LoginError.
Proof.
  split; [repeat split |].
  refine (proj1 (send_mail_classifies_login
                   (Sample.world 5 (fun _ => Sample.rejecting) None)
                   (MailNamespace (Sample.args 42)) "smtp.example.org" "587"
                   "me@example.org" "secret" DefaultContext true Sample.configured _)
                _ eq_refl eq_refl).
  repeat split.
Defined.

(** C6 as stated fails: a refused connection is not turned into a value of
    the enumeration, the exception leaves [_send_mail]. *)
Lemma send_mail_connection_refused_escapes :
  outcome_of (_send_mail (Sample.world 5 (fun _ => Sample.refusing) None)
                         (MailNamespace (Sample.args 42)) "smtp.example.org" "587"
                         "me@example.org" "secret" DefaultContext true Sample.configured)
  = Raise (mkExn (OtherException "ConnectionRefusedError") "[Errno 111] Connection refused").
Proof. reflexivity. Qed.

(** Whatever a step other than the login raises leaves [_send_mail]. *)
Lemma send_mail_connect_failure (w : World) (mail : MailArg)
    (smtp_server smtp_port sender_email password : string) (ssl_context : SSLContext)
    (test_login : bool) (s : State) (e : Exn) :
  s_connect (smtp_session w (st_sessions s)) = Some e ->
  _send_mail w mail smtp_server smtp_port sender_email password ssl_context test_login s
  = (Raise e, bump_sessions s, [EvConnect smtp_server smtp_port]).
Proof.
  intros Hc. unfold _send_mail, with_SMTP, step, emit, bind, modify, gets, raise.
  cbn. rewrite Hc. reflexivity.
Qed.

(** * Reasoning about runs *)

Lemma bind_Ret_inv {A B} (m : M A) (k : A -> M B) (s s' : State) (b : B) (tr : list Event) :
  bind m k s = (Ret b, s', tr) ->
  exists a s1 tr1 tr2,
    m s = (Ret a, s1, tr1) /\ k a s1 = (Ret b, s', tr2) /\ tr = tr1 ++ tr2.
Proof.
  unfold bind. destruct (m s) as [[[a|e|c|] s1] tr1]; try discriminate.
  destruct (k a s1) as [[o s2] tr2] eqn:Hk. intros [= -> -> <-].
  exists a, s1, tr1, tr2. auto.
Qed.

Lemma bind_Ret_run {A B} (m : M A) (k : A -> M B) (s s1 : State) (a : A) (tr1 : list Event) :
  m s = (Ret a, s1, tr1) ->
  bind m k s = (outcome_of (k a s1), state_of (k a s1), tr1 ++ events_of (k a s1)).
Proof.
  intros Hm. unfold bind. rewrite Hm. destruct (k a s1) as [[o s2] tr2]. reflexivity.
Qed.

Lemma bind_Ret_pure {A B} (m : M A) (k : A -> M B) (s : State) (a : A) :
  m s = (Ret a, s, []) -> bind m k s = k a s.
Proof.
  intros Hm. unfold bind. rewrite Hm. destruct (k a s) as [[o s'] tr]. reflexivity.
Qed.

Lemma bind_not_Ret_run {A B} (m : M A) (k : A -> M B) (s : State) :
  (forall a, outcome_of (m s) <> Ret a) ->
  outcome_of (bind m k s) = match outcome_of (m s) with
                            | Ret _ => Running
                            | Raise e => Raise e
                            | Exit c => Exit c
                            | Running => Running
                            end
  /\ state_of (bind m k s) = state_of (m s)
  /\ events_of (bind m k s) = events_of (m s).
Proof.
  unfold bind, outcome_of, state_of, events_of.
  destruct (m s) as [[[a|e|c|] s1] tr1]; cbn; intros H; auto.
  exfalso. apply (H a). reflexivity.
Qed.

(** Event counting. *)
Definition count (p : Event -> bool) (tr : list Event) : nat := length (List.filter p tr).

Lemma count_app (p : Event -> bool) (tr1 tr2 : list Event) :
  count p (tr1 ++ tr2) = (count p tr1 + count p tr2)%nat.
Proof. unfold count. rewrite List.filter_app, length_app. reflexivity. Qed.

Definition is_send (e : Event) : bool :=
  match e with EvSendMessage _ => true | _ => false end.
Definition is_connect (e : Event) : bool :=
  match e with EvConnect _ _ => true | _ => false end.
Definition is_login (e : Event) : bool :=
  match e with EvLogin _ _ => true | _ => false end.
Definition is_getenv (e : Event) : bool :=
  match e with EvGetenv _ => true | _ => false end.
Definition is_getpass (e : Event) : bool :=
  match e with EvGetpass _ => true | _ => false end.
Definition is_fork (e : Event) : bool :=
  match e with EvFork => true | _ => false end.
Definition is_warning (e : Event) : bool :=
  match e with EvLog WARNING _ => true | _ => false end.
Definition is_write_conf (e : Event) : bool :=
  match e with EvWriteConf _ => true | _ => false end.

(** * Editing the configuration *)

(** [args.logger.debug] raises [AttributeError] whatever the namespace. *)
Lemma args_logger_debug_raises (args : ConfigArgs) (text : string) (s : State) :
  exists msg, args_logger_debug args text s = (Raise (mkExn AttributeError msg), s, []).
Proof.
  unfold args_logger_debug, getattr, bind.
  destruct (args !! "logger") as [[v|]|]; cbn; eauto.
Qed.

(** C9 fails on the code.  With [server = smtp.example.org] in conf.ini,
    [config --server mail.example.net] changes the option in memory, then
    [args.logger.debug] raises [AttributeError] before [conf.write]: the
    file is not written and still has the old value. *)
Theorem config_edit_is_not_persisted :
  let w := Sample.world 0 (fun _ => Sample.accepting) None in
  let args := config_namespace Sample.conf [("server", "mail.example.net")] in
  let run := main w (ParsedConfig args) (initial_state Sample.conf) in
  outcome_of run = Raise (mkExn AttributeError "'Namespace' object has no attribute 'logger'")
  /\ count is_write_conf (events_of run) = 0%nat
  /\ st_conf_ini (state_of run) = Sample.conf
  /\ (assoc "SMTP.servers" (st_conf_ini (state_of run)) ≫= assoc "server")
     = Some "smtp.example.org"
  /\ (assoc "SMTP.servers" (st_conf (state_of run)) ≫= assoc "server")
     = Some "mail.example.net".
Proof. vm_compute. repeat split. Qed.

(** Among the values given there is one the parser refuses. *)
Definition refused_value (args : ConfigArgs) : Prop :=
  exists name value,
    args !! name = Some (Some value) /\ valid_interpolation value = false.

(** A loop over options that returns has met no supplied flag and has
    changed nothing; otherwise it ends with [AttributeError], or with
    [ValueError] for a value the parser refuses.  Either way conf.ini is
    as before. *)
Definition quiet_or_failed (args : ConfigArgs) (r : Outcome unit * State * list Event)
    (s : State) (untouched : Prop) : Prop :=
  events_of r = []
  /\ st_conf_ini (state_of r) = st_conf_ini s
  /\ ((outcome_of r = Ret tt /\ state_of r = s /\ untouched)
      \/ (exists msg, outcome_of r = Raise (mkExn AttributeError msg))
      \/ (refused_value args /\ exists msg, outcome_of r = Raise (mkExn ValueError msg))).

Lemma conf_section_run (conf_key : string) (options : Options) (s : State) :
  assoc conf_key (st_conf s) = Some options ->
  conf_section conf_key s = (Ret options, s, []).
Proof. intros H. unfold conf_section, bind, gets. cbn. rewrite H. reflexivity. Qed.

Lemma conf_set_run (conf_key section_key value : string) (options : Options) (s : State) :
  assoc conf_key (st_conf s) = Some options ->
  valid_interpolation value = true ->
  conf_set conf_key section_key value s
  = (Ret tt,
     with_conf (assoc_set conf_key (assoc_set section_key value options) (st_conf s)) s, []).
Proof.
  intros H Hvalid. unfold conf_set.
  rewrite (bind_Ret_pure _ _ _ _ (conf_section_run _ _ _ H)), Hvalid.
  reflexivity.
Qed.

Lemma conf_set_refused (conf_key section_key value : string) (options : Options) (s : State) :
  assoc conf_key (st_conf s) = Some options ->
  valid_interpolation value = false ->
  conf_set conf_key section_key value s
  = (Raise (mkExn ValueError "invalid interpolation syntax"), s, []).
Proof.
  intros H Hvalid. unfold conf_set.
  rewrite (bind_Ret_pure _ _ _ _ (conf_section_run _ _ _ H)), Hvalid.
  reflexivity.
Qed.

Lemma edit_option_run (args : ConfigArgs) (conf_key section_key : string) (s : State) :
  is_Some (assoc conf_key (st_conf s)) ->
  quiet_or_failed args (edit_option args conf_key section_key s) s
                  (args !! section_key = Some None).
Proof.
  intros [options Hsec].
  unfold quiet_or_failed, edit_option, getattr.
  destruct (args !! section_key) as [[value|]|] eqn:Hattr.
  - rewrite (bind_Ret_pure _ _ _ _ eq_refl).
    destruct (valid_interpolation value) eqn:Hvalid.
    + rewrite (bind_Ret_run _ _ _ _ _ _
                 (conf_set_run conf_key section_key value options s Hsec Hvalid)).
      match goal with
      | |- context [args_logger_debug args ?text ?s'] =>
          destruct (args_logger_debug_raises args text s') as [msg ->]
      end.
      cbn. repeat split. right. left. eauto.
    + unfold bind. rewrite (conf_set_refused conf_key section_key value options s Hsec Hvalid).
      cbn. repeat split. right. right. split; [exists section_key, value; auto | eauto].
  - cbn. repeat split. left. auto.
  - cbn. repeat split. right. left. eauto.
Qed.

Lemma edit_options_run (args : ConfigArgs) (conf_key : string) (options : list string) (s : State) :
  is_Some (assoc conf_key (st_conf s)) ->
  quiet_or_failed args (for_each options (edit_option args conf_key) s) s
                  (Forall (fun name => args !! name = Some None) options).
Proof.
  intros Hsec. induction options as [|name rest IH]; cbn.
  - repeat split. left. auto.
  - destruct (edit_option_run args conf_key name s Hsec) as (Hev & Hini & Hcases).
    unfold bind. destruct (edit_option args conf_key name s) as [[o s1] tr1].
    cbn in Hev, Hini, Hcases. subst tr1.
    destruct Hcases as [(-> & -> & Hnone) | [[msg ->] | [Href [msg ->]]]].
    + destruct IH as (Hev & Hini' & Hcases).
      destruct (for_each rest (edit_option args conf_key) s) as [[o2 s2] tr2].
      cbn in *. subst tr2. repeat split; [exact Hini' |].
      destruct Hcases as [(-> & -> & Hrest) | Hfail]; [left | right; exact Hfail].
      repeat split. constructor; assumption.
    + repeat split; [exact Hini |]. right. left. eauto.
    + repeat split; [exact Hini |]. right. right. eauto.
Qed.

Lemma edit_sections_run (args : ConfigArgs) (sections : list string) (s : State) :
  (forall conf_key, conf_key ∈ sections -> is_Some (assoc conf_key (st_conf s))) ->
  quiet_or_failed args (for_each sections (edit_section args) s) s
    (forall conf_key options section_key,
        conf_key ∈ sections -> assoc conf_key (st_conf s) = Some options ->
        section_key ∈ map fst options -> args !! section_key = Some None).
Proof.
  induction sections as [|conf_key rest IH]; intros Hsecs; cbn [for_each].
  - cbn. repeat split. left. repeat split. intros ? ? ? Hin. inversion Hin.
  - destruct (Hsecs conf_key) as [options Hsec]; [left |].
    unfold bind at 1. unfold edit_section at 1.
    rewrite (bind_Ret_pure _ _ _ _ (conf_section_run conf_key options s Hsec)).
    pose proof (edit_options_run args conf_key (map fst options) s (ex_intro _ _ Hsec))
      as (Hev & Hini & Hcases).
    destruct (for_each (map fst options) (edit_option args conf_key) s) as [[o s1] tr1].
    unfold outcome_of, state_of, events_of in *. cbn [fst snd] in *. subst tr1.
    destruct Hcases as [(-> & -> & Hnone) | [[msg ->] | [Href [msg ->]]]].
    + destruct IH as (Hev & Hini' & Hcases);
        [intros key Hkey; apply Hsecs; right; exact Hkey |].
      destruct (for_each rest (edit_section args) s) as [[o2 s2] tr2].
      cbn in *. subst tr2. repeat split; [exact Hini' |].
      destruct Hcases as [(-> & -> & Hrest) | Hfail]; [left | right; exact Hfail].
      repeat split. intros key options' name Hin Hassoc Hname.
      apply elem_of_cons in Hin as [-> | Hin]; [| eauto].
      rewrite Hsec in Hassoc. injection Hassoc as <-.
      rewrite Forall_forall in Hnone. apply Hnone. exact Hname.
    + cbn. repeat split; [exact Hini |]. right. left. eauto.
    + cbn. repeat split; [exact Hini |]. right. right. eauto.
Qed.

Lemma assoc_Some_elem {A} (k : string) (v : A) (l : list (string * A)) :
  assoc k l = Some v -> k ∈ map fst l.
Proof.
  induction l as [|[k' v'] rest IH]; cbn; [discriminate |].
  destruct (decide (k' = k)) as [->|Hne]; [left | right; auto].
Qed.

Lemma elem_assoc_Some {A} (k : string) (l : list (string * A)) :
  k ∈ map fst l -> is_Some (assoc k l).
Proof.
  induction l as [|[k' v'] rest IH]; cbn; intros Hin; [inversion Hin |].
  destruct (decide (k' = k)) as [->|Hne]; [eauto |].
  apply elem_of_cons in Hin as [-> | Hin]; [contradiction | auto].
Qed.

(** Every edit that supplies a flag for an option of the configuration ends
    before conf.ini is written: with [AttributeError], or with [ValueError]
    when a value given is one the parser refuses. *)
Lemma config_target_with_flag_raises (args : ConfigArgs) (s : State)
    (conf_key section_key value : string) (options : Options) :
  assoc conf_key (st_conf s) = Some options ->
  section_key ∈ map fst options ->
  args !! section_key = Some (Some value) ->
  ((exists msg, outcome_of (config_target args s) = Raise (mkExn AttributeError msg))
   \/ (refused_value args
       /\ exists msg, outcome_of (config_target args s) = Raise (mkExn ValueError msg)))
  /\ events_of (config_target args s) = []
  /\ st_conf_ini (state_of (config_target args s)) = st_conf_ini s.
Proof.
  intros Hassoc Hname Hflag.
  unfold config_target. rewrite (bind_Ret_pure _ _ _ _ eq_refl).
  pose proof (edit_sections_run args (map fst (st_conf s)) s
                (fun key Hkey => elem_assoc_Some key (st_conf s) Hkey))
    as (Hev & Hini & Hcases).
  unfold bind.
  destruct (for_each (map fst (st_conf s)) (edit_section args) s) as [[o s1] tr1].
  cbn in Hev, Hini, Hcases. subst tr1.
  destruct Hcases as [(-> & -> & Hnone) | [[msg ->] | [Href [msg ->]]]].
  - exfalso.
    specialize (Hnone conf_key options section_key (assoc_Some_elem _ _ _ Hassoc) Hassoc Hname).
    congruence.
  - cbn. repeat split; eauto.
  - cbn. repeat split; eauto.
Qed.

(** * Building the message *)

Module Spec.

(** The recipients as the specification words them for a recipient-list
    file: its lines, one address per line.  Every newline ends a line, and
    what follows the last newline is a line only when it is not empty. *)
Fixpoint lines_from (cur s : string) : list string :=
  match s with
  | EmptyString => if decide (cur = "") then [] else [cur]
  | String a rest =>
      if Ascii.eqb a Str.nl then cur :: lines_from "" rest
      else lines_from (cur +:+ String a "") rest
  end.

Definition file_lines (content : string) : list string := lines_from "" content.

End Spec.

(** An explicit recipient list goes to the header as it is, in order. *)
Lemma resolve_to_explicit (args : NotifyArgs) (addresses : list string) (s : State) :
  to args = Some addresses ->
  resolve_to args s = (Ret (Str.join ", " addresses), s, []).
Proof. intros H. unfold resolve_to. rewrite H. reflexivity. Qed.

(** A recipient-list file is read whole and cut at every newline. *)
Lemma resolve_to_destlist (args : NotifyArgs) (content : string) (s : State) :
  to args = None -> destlist args = Some content -> st_destlist_read s = false ->
  resolve_to args s
  = (Ret (Str.join ", " (Str.split Str.nl content)), mark_destlist_read s, [EvReadDestlist]).
Proof.
  intros Hto Hfile Hfresh. unfold resolve_to, destlist_read, bind, emit, gets, modify, ret.
  rewrite Hto, Hfile. cbn. rewrite Hfresh. reflexivity.
Qed.

(** With neither, the configured default receiver is used and the fallback
    is logged at level INFO. *)
Lemma resolve_to_default (args : NotifyArgs) (c : Configuration)
    (options : Options) (receiver : string) (s : State) :
  to args = None -> destlist args = None ->
  st_notify_conf s = Some c -> assoc "defaults" c = Some options ->
  assoc "receiver" options = Some receiver ->
  resolve_to args s
  = (Ret receiver, s,
     [EvLog INFO ("E-mail header 'To' wasn't fed to cmd, defaulting to " +:+ receiver)]).
Proof.
  intros Hto Hfile Hconf Hsec Hopt.
  unfold resolve_to, conf_get, log, bind, emit, gets, ret.
  rewrite Hto, Hfile. cbn.
  do 2 (rewrite Hconf; cbn; rewrite Hsec, Hopt; cbn). reflexivity.
Qed.

(** The file with the one line [alice@example.org], ended by a newline:
    [split] gives a last, empty piece, the value assigned to [To] ends
    with a comma and a blank, and the address list of the header has the
    one address. *)
Example destlist_with_final_newline :
  let w := Sample.world 5 (fun _ => Sample.accepting) None in
  let content := "alice@example.org" +:+ String Str.nl "" in
  let args := mkNotifyArgs 42 None None (Some content) in
  let run := _format_mail w args "me@example.org" "subject" "body" Sample.configured in
  Spec.file_lines content = ["alice@example.org"]
  /\ Str.split Str.nl content = ["alice@example.org"; ""]
  /\ exists email,
       outcome_of run = Ret email
       /\ em_to email = Some "alice@example.org, "
       /\ recipients w email = ["alice@example.org"]
       /\ To_header w email = "alice@example.org".
Proof.
  cbn zeta. repeat split; try reflexivity.
  eexists. repeat split; reflexivity.
Qed.

Lemma append_empty_r (s : string) : s +:+ "" = s.
Proof.
  induction s as [|a s IH]; [reflexivity |].
  change (String a s +:+ "") with (String a (s +:+ "")). rewrite IH. reflexivity.
Qed.

Lemma append_snoc (s t : string) (a : ascii) : (s +:+ String a "") +:+ t = s +:+ String a t.
Proof.
  induction s as [|b s IH]; [reflexivity |].
  change ((String b s +:+ String a "") +:+ t) with (String b ((s +:+ String a "") +:+ t)).
  rewrite IH. reflexivity.
Qed.

Lemma split_not_nil (c : ascii) (s : string) : Str.split c s <> [].
Proof.
  destruct s as [|a rest]; cbn; [discriminate |].
  destruct (Ascii.eqb a c); [discriminate |].
  destruct (Str.split c rest); discriminate.
Qed.

(** [cur] put in front of the first piece. *)
Definition onto_first (cur : string) (pieces : list string) : list string :=
  match pieces with
  | [] => []
  | piece :: more => (cur +:+ piece) :: more
  end.

Lemma lines_from_split (s cur : string) :
  List.last (onto_first cur (Str.split Str.nl s)) "" <> "" ->
  Spec.lines_from cur s = onto_first cur (Str.split Str.nl s).
Proof.
  revert cur. induction s as [|a rest IH]; intros cur Hlast.
  - cbn in *. rewrite append_empty_r in *.
    destruct (decide (cur = "")); [contradiction | reflexivity].
  - cbn [Str.split Spec.lines_from] in *.
    destruct (Ascii.eqb a Str.nl).
    + cbn [onto_first] in *. rewrite append_empty_r in *.
      pose proof (split_not_nil Str.nl rest) as Hne.
      rewrite IH.
      * destruct (Str.split Str.nl rest) as [|p ps]; [contradiction | reflexivity].
      * destruct (Str.split Str.nl rest) as [|p ps]; [contradiction |]. exact Hlast.
    + pose proof (split_not_nil Str.nl rest) as Hne.
      destruct (Str.split Str.nl rest) as [|p ps] eqn:Hsplit; [contradiction |].
      cbn [onto_first] in *. rewrite IH; cbn [onto_first]; rewrite append_snoc;
        [reflexivity | exact Hlast].
Qed.

(** Where the file does not end with a newline (and is not empty), the
    pieces [split] gives are the lines of the file. *)
Lemma split_agrees_without_final_newline (content : string) :
  List.last (Str.split Str.nl content) "" <> "" ->
  Str.split Str.nl content = Spec.file_lines content.
Proof.
  intros Hlast. unfold Spec.file_lines. rewrite lines_from_split.
  - destruct (Str.split Str.nl content); reflexivity.
  - destruct (Str.split Str.nl content); exact Hlast.
Qed.

(** ** Attachments *)

Lemma resolve_mime_run (w : World) (attach_file : string) (s : State) :
  exists o tr, resolve_mime w attach_file s = (o, s, tr) /\ count is_warning tr = 0%nat.
Proof.
  unfold resolve_mime, log, bind, emit, ret, raise.
  destruct (guess_type w attach_file) as [[ctype|] [encoding|]]; cbn;
    try (eexists _, _; split; reflexivity).
  destruct (Str.split_once "/" ctype) as [|m [|t [|x rest]]]; cbn;
    eexists _, _; split; reflexivity.
Qed.

(** One expanded path: a regular file adds one part without a warning,
    anything else adds nothing and is warned about. *)
Lemma attach_file_to_run (w : World) (email email' : Email) (attach_file : string)
    (s s' : State) (tr : list Event) :
  attach_file_to w email attach_file s = (Ret email', s', tr) ->
  (fs_isfile w attach_file = true
   /\ length (em_parts email') = S (length (em_parts email))
   /\ count is_warning tr = 0%nat)
  \/ (fs_isfile w attach_file = false
      /\ email' = email
      /\ count is_warning tr = 1%nat).
Proof.
  unfold attach_file_to, log, bind, emit, ret.
  destruct (fs_isfile w attach_file); cbn.
  - destruct (resolve_mime_run w attach_file s) as (o & tr1 & -> & Hquiet).
    destruct o as [[maintype subtype]|e|c|]; try discriminate.
    destruct (fs_read w attach_file) as [e|data]; cbn; [discriminate |].
    intros [= <- <- <-]. left. repeat split.
    + cbn. rewrite length_app. cbn. lia.
    + rewrite <- Hquiet. unfold count. cbn. rewrite List.filter_app, length_app. cbn. lia.
  - intros [= <- <- <-]. right. auto.
Qed.

Lemma attach_files_run (w : World) (files : list string) (email email' : Email)
    (s s' : State) (tr : list Event) :
  fold_m (attach_file_to w) files email s = (Ret email', s', tr) ->
  length (em_parts email')
  = (length (em_parts email) + length (List.filter (fs_isfile w) files))%nat
  /\ count is_warning tr
     = length (List.filter (fun f => negb (fs_isfile w f)) files).
Proof.
  revert email s tr. induction files as [|f rest IH]; intros email s tr; cbn.
  - intros [= <- <- <-]. split; [lia | reflexivity].
  - intros Hrun. apply bind_Ret_inv in Hrun as (email1 & s1 & tr1 & tr2 & Hone & Hrest & ->).
    apply IH in Hrest as [Hparts Hwarn]. rewrite count_app, Hparts, Hwarn.
    apply attach_file_to_run in Hone as [(-> & Hlen & ->) | (-> & -> & ->)]; cbn; lia.
Qed.

(** What the loops of [_format_mail] do with a sequence of patterns: the
    message gains exactly one part per expanded path that is a regular
    file, and every other expanded path is warned about. *)
Lemma attach_all_run (w : World) (patterns : list string) (email email' : Email)
    (s s' : State) (tr : list Event) :
  attach_all w email patterns s = (Ret email', s', tr) ->
  length (em_parts email')
  = (length (em_parts email)
     + length (List.filter (fs_isfile w) (concat (map (fs_glob w) patterns))))%nat
  /\ count is_warning tr
     = length (List.filter (fun f => negb (fs_isfile w f)) (concat (map (fs_glob w) patterns))).
Proof.
  unfold attach_all. revert email s tr.
  induction patterns as [|pattern rest IH]; intros email s tr; cbn.
  - intros [= <- <- <-]. split; [lia | reflexivity].
  - intros Hrun. apply bind_Ret_inv in Hrun as (email1 & s1 & tr1 & tr2 & Hone & Hrest & ->).
    apply IH in Hrest as [Hparts Hwarn].
    apply bind_Ret_inv in Hone as ([] & s0 & tr0 & tr3 & Hglob & Hfiles & ->).
    unfold emit in Hglob. injection Hglob as <- <-.
    apply attach_files_run in Hfiles as [Hparts1 Hwarn1].
    rewrite !List.filter_app, !length_app, !count_app, Hparts, Hwarn, Hparts1, Hwarn1.
    cbn. lia.
Qed.

Lemma resolve_to_quiet (args : NotifyArgs) (s : State) :
  count is_warning (events_of (resolve_to args s)) = 0%nat.
Proof.
  unfold resolve_to, destlist_read, conf_get, log, bind, emit, gets, modify, ret, raise.
  destruct (to args); [reflexivity |].
  destruct (destlist args); cbn; [reflexivity |].
  destruct (st_notify_conf s) as [c|] eqn:Hconf; cbn; [| reflexivity].
  destruct (assoc "defaults" c) as [options|] eqn:Hsec; cbn; [| reflexivity].
  destruct (assoc "receiver" options) eqn:Hopt; cbn; [| reflexivity].
  rewrite Hconf. cbn. rewrite Hsec, Hopt. reflexivity.
Qed.

(** No attachment given: the message is returned at once, without parts. *)
Lemma format_mail_without_attachments (w : World) (args : NotifyArgs)
    (sender subject body : string) (s s' : State) (email : Email) (tr : list Event) :
  attachments args = None ->
  _format_mail w args sender subject body s = (Ret email, s', tr) ->
  em_parts email = [] /\ count is_warning tr = 0%nat.
Proof.
  intros Hnone Hrun. unfold _format_mail in Hrun. rewrite Hnone in Hrun.
  apply bind_Ret_inv in Hrun as ([] & s1 & tr1 & tr2 & Hlog & Hrun & ->).
  unfold log, emit in Hlog. injection Hlog as <- <-.
  apply bind_Ret_inv in Hrun as (to_header & s2 & tr3 & tr4 & Hto & Hrun & ->).
  apply bind_Ret_inv in Hrun as ([] & s3 & tr5 & tr6 & Hlog & Hrun & ->).
  unfold log, emit in Hlog. injection Hlog as <- <-. injection Hrun as <- <- <-.
  split; [reflexivity |].
  pose proof (resolve_to_quiet args s) as Hquiet. rewrite Hto in Hquiet.
  change (count is_warning tr3 = 0%nat) in Hquiet.
  rewrite !count_app, Hquiet. reflexivity.
Qed.

(** C8 fails on the code.  [--attach a.txt] names one existing regular
    file, yet the message has no part: [args.attachments] is the str
    ["a.txt"], the loop of line 58 runs over its characters, and the
    patterns expanded are ["a"], ["."], ["t"], ["x"], ["t"]. *)
Theorem attach_pattern_is_iterated_by_character :
  let w := Sample.world 5 (fun _ => Sample.accepting) None in
  let args := mkNotifyArgs 42 (Some "a.txt") (Some ["you@example.org"]) None in
  let run := _format_mail w args "me@example.org" "subject" "body" Sample.configured in
  List.filter (fs_isfile w) (fs_glob w "a.txt") = ["a.txt"]
  /\ (exists email, outcome_of run = Ret email /\ em_parts email = [])
  /\ List.filter (fun e => match e with EvGlob _ => true | _ => false end) (events_of run)
     = [EvGlob "a"; EvGlob "."; EvGlob "t"; EvGlob "x"; EvGlob "t"].
Proof.
  cbn zeta. split; [reflexivity |]. split; [| reflexivity].
  eexists. split; reflexivity.
Qed.

(** * The watcher *)

(** [list(generator)]: every batch the generator yields, in order, with
    fuel for the calls of [next]. *)
Fixpoint collect (w : World) (fuel : nat) (g : Generator) : M (list (list Process)) :=
  match fuel with
  | O => out_of_fuel
  | S fuel =>
      yielded <- next w g ;;
      match yielded with
      | (None, _) => ret []
      | (Some batch, g) => batches <- collect w fuel g ;; ret (batch :: batches)
      end
  end.

(** The process object as the lines 125-133 leave it: the name of the
    second look at the process table, the command line of the third and,
    when the library keeps it, the creation time of the first. *)
Definition snapshot (w : World) (target : Z) (at_lookup at_name at_cmdline : ProcInfo)
    : Process :=
  mkProcess target (Some (p_name at_name))
            (if caches_create_time w then Some (p_create_time at_lookup) else None)
            (Some (Str.join " " (p_cmdline at_cmdline))).

Definition after_capture (s : State) : State := bump_obs (bump_obs (bump_obs s)).

Section Watcher.

Variable w : World.

(** The generator stops exactly when no process is left alive. *)
Lemma poll_stops_iff_none_alive (alive : list Process) (s : State) :
  (exists g, outcome_of (poll w alive s) = Ret (None, g)) <-> alive = [].
Proof.
  unfold poll, wait_procs, observe, bind, emit, gets, modify, ret, outcome_of.
  destruct alive as [|p rest]; cbn.
  - split; [reflexivity | eauto].
  - split; [intros [g Hg]; discriminate | discriminate].
Qed.

Lemma next_created_run (args : NotifyArgs) (s : State) (i0 i1 i2 : ProcInfo) :
  proc_table w (st_obs s) (pid args) = Some i0 ->
  proc_table w (S (st_obs s)) (pid args) = Some i1 ->
  proc_table w (S (S (st_obs s))) (pid args) = Some i2 ->
  next w (GenCreated args) s
  = (outcome_of (poll w [snapshot w (pid args) i0 i1 i2] (after_capture s)),
     state_of (poll w [snapshot w (pid args) i0 i1 i2] (after_capture s)),
     [EvProcessLookup (pid args); EvProcessName (pid args); EvProcessCmdline (pid args)]
     ++ events_of (poll w [snapshot w (pid args) i0 i1 i2] (after_capture s))).
Proof.
  intros H0 H1 H2.
  unfold next, psutil_Process, cache_attributes, Process_name, Process_cmdline, observe.
  unfold bind at 1 2 3 4. unfold emit, gets, modify. cbn. rewrite H0.
  unfold bind, emit, gets, modify, ret. cbn. rewrite H1. cbn. rewrite H2. cbn.
  change (bump_obs (bump_obs (bump_obs s))) with (after_capture s).
  change (mkProcess (pid args) (Some (p_name i1))
                    (if caches_create_time w then Some (p_create_time i0) else None)
                    (Some (Str.join " " (p_cmdline i2))))
    with (snapshot w (pid args) i0 i1 i2).
  destruct (poll w [snapshot w (pid args) i0 i1 i2] (after_capture s)) as [[o s'] tr].
  reflexivity.
Qed.

(** A process seen alive at [k] polls and gone at the next one: [k] empty
    batches, then the batch with the process, then the end. *)
Lemma collect_polls (p : Process) (k : nat) :
  forall (fuel : nat) (s : State),
    (forall j, (j < k)%nat -> proc_table w (st_obs s + j) (proc_pid p) <> None) ->
    proc_table w (st_obs s + k) (proc_pid p) = None ->
    (k + 2 <= fuel)%nat ->
    outcome_of (collect w fuel (GenSuspended [p]) s) = Ret (replicate k [] ++ [[p]]).
Proof.
  induction k as [|k IH]; intros fuel s Halive Hgone Hfuel.
  - destruct fuel as [|[|fuel]]; [lia | lia |].
    rewrite Nat.add_0_r in Hgone.
    cbn. unfold poll, wait_procs, observe, bind, emit, gets, modify, ret, outcome_of, is_gone.
    cbn. rewrite Hgone. cbn. reflexivity.
  - destruct fuel as [|fuel]; [lia |].
    assert (Hnow : proc_table w (st_obs s) (proc_pid p) <> None).
    { rewrite <- (Nat.add_0_r (st_obs s)). apply Halive. lia. }
    cbn [collect next]. unfold poll, wait_procs, observe.
    unfold bind at 1 2 3 4 5. unfold emit, gets, modify, ret. cbn.
    unfold is_gone. destruct (proc_table w (st_obs s) (proc_pid p)) as [info|] eqn:Htable;
      [| contradiction].
    cbn. specialize (IH fuel (bump_obs s)).
    unfold bind. unfold outcome_of in *.
    destruct (collect w fuel (GenSuspended [p]) (bump_obs s)) as [[o s'] tr].
    cbn in IH |- *. rewrite IH; [reflexivity | | | lia].
    + intros j Hj. replace (S (st_obs s + j))%nat with (st_obs s + S j)%nat by lia.
      apply Halive. lia.
    + replace (S (st_obs s + k))%nat with (st_obs s + S k)%nat by lia. exact Hgone.
Qed.

End Watcher.

(** C5, as the code has it: the generator yields one batch per poll, an
    empty one as long as the process is alive.  For a process that is
    alive when the watch starts and at [k] polls, and gone at the next
    poll, the sequence is finite: [k] empty batches followed by the one
    batch with the process; and the generator stops exactly when no process
    is left alive. *)
Theorem watcher_yields_one_batch_per_poll (w : World) (args : NotifyArgs) (s : State)
    (i0 i1 i2 : ProcInfo) (k fuel : nat) :
  proc_table w (st_obs s) (pid args) = Some i0 ->
  proc_table w (S (st_obs s)) (pid args) = Some i1 ->
  proc_table w (S (S (st_obs s))) (pid args) = Some i2 ->
  (forall j, (j < k)%nat -> proc_table w (st_obs s + 3 + j) (pid args) <> None) ->
  proc_table w (st_obs s + 3 + k) (pid args) = None ->
  (k + 2 <= fuel)%nat ->
  outcome_of (collect w fuel (_wait_process args) s)
  = Ret (replicate k [] ++ [[snapshot w (pid args) i0 i1 i2]])
  /\ (forall alive s',
         (exists g, outcome_of (poll w alive s') = Ret (None, g)) <-> alive = []).
Proof.
  intros H0 H1 H2 Halive Hgone Hfuel. split; [| apply poll_stops_iff_none_alive].
  pose proof (collect_polls w (snapshot w (pid args) i0 i1 i2) k fuel (after_capture s)) as Hpolls.
  assert (Hobs : st_obs (after_capture s) = (st_obs s + 3)%nat) by (cbn; lia).
  rewrite Hobs in Hpolls. specialize (Hpolls Halive Hgone Hfuel).
  destruct fuel as [|fuel]; [lia |].
  unfold _wait_process. cbn [collect] in *.
  unfold bind in *. rewrite (next_created_run w args s i0 i1 i2 H0 H1 H2).
  cbn [next] in Hpolls. unfold outcome_of, state_of, events_of in *.
  destruct (poll w [snapshot w (pid args) i0 i1 i2] (after_capture s)) as [[[y|e|c|] s1] tr1];
    cbn in *; try discriminate.
  destruct y as [[batch|] g].
  - destruct (collect w fuel g s1) as [[[bs|e|c|] s2] tr2]; cbn in *; try discriminate.
    exact Hpolls.
  - exact Hpolls.
Qed.

Lemma watcher_yields_one_batch_per_poll_witness :
  outcome_of (collect (Sample.world 5 (fun _ => Sample.accepting) None) 4
                      (_wait_process (Sample.args 42)) Sample.configured)
  = Ret ([[]; []] ++ [[snapshot (Sample.world 5 (fun _ => Sample.accepting) None) 42 Sample.sleep_info Sample.sleep_info Sample.sleep_info]]).
Proof.
  refine (proj1 (watcher_yields_one_batch_per_poll
                   (Sample.world 5 (fun _ => Sample.accepting) None) (Sample.args 42)
                   Sample.configured Sample.sleep_info Sample.sleep_info Sample.sleep_info
                   2 4 eq_refl eq_refl eq_refl _ eq_refl _)).
  - intros j Hj. destruct j as [|[|j]]; [discriminate | discriminate | lia].
  - cbn. lia.
Defined.

(** C5 as stated fails: a process that is alive at two polls and gone at
    the third gives three batches, two of them empty. *)
Lemma watcher_yields_empty_batches :
  exists p,
    outcome_of (collect (Sample.world 5 (fun _ => Sample.accepting) None) 10
                        (_wait_process (Sample.args 42)) Sample.configured)
    = Ret [[]; []; [p]].
Proof. eexists. reflexivity. Qed.

(** * The authentication loop *)

(** The passwords of the logins of a trace, in order. *)
Definition login_passwords (tr : list Event) : list string :=
  omap (fun e => match e with EvLogin _ password => Some password | _ => None end) tr.

Lemma login_passwords_app (tr1 tr2 : list Event) :
  login_passwords (tr1 ++ tr2) = login_passwords tr1 ++ login_passwords tr2.
Proof. apply omap_app. Qed.

(** The server rejects the credentials: [_send_mail] returns [LoginError]. *)
Definition rejects (sess : Session) : Prop :=
  handshake_ok sess
  /\ exists e, s_login sess = Some e /\ is_SMTPAuthenticationError e = true.

(** The login fails otherwise: [_send_mail] returns [OtherError]. *)
Definition breaks (sess : Session) : Prop :=
  handshake_ok sess
  /\ exists e, s_login sess = Some e /\ is_SMTPAuthenticationError e = false
               /\ is_Exception e = true.

Section Authentication.

Variable w : World.

Lemma resolve_password_from_environ (s : State) (password : string) :
  environ w "E_NOTIFY_PASS" = Some password ->
  resolve_password w s = (Ret password, s, [EvGetenv "E_NOTIFY_PASS"]).
Proof.
  intros Henv. unfold resolve_password, bind, emit, ret. rewrite Henv. reflexivity.
Qed.

Lemma resolve_password_from_prompt (s : State) :
  environ w "E_NOTIFY_PASS" = None ->
  resolve_password w s
  = (Ret (getpass_input w (st_prompts s)), bump_prompts s,
     [EvGetenv "E_NOTIFY_PASS"; EvGetpass "Your password :"]).
Proof.
  intros Henv. unfold resolve_password, bind, emit, gets, modify, ret. rewrite Henv. reflexivity.
Qed.

(** What one credential test does, whatever the server answers. *)
Lemma send_mail_test_run (mail : MailArg) (smtp_server smtp_port sender_email password : string)
    (ssl_context : SSLContext) (s : State) :
  let r := _send_mail w mail smtp_server smtp_port sender_email password ssl_context true s in
  state_of r = bump_sessions s
  /\ count is_connect (events_of r) = 1%nat
  /\ count is_getenv (events_of r) = 0%nat
  /\ count is_getpass (events_of r) = 0%nat
  /\ count is_send (events_of r) = 0%nat
  /\ count is_fork (events_of r) = 0%nat
  /\ (login_passwords (events_of r) = [password]
      \/ login_passwords (events_of r) = [] /\ forall v, outcome_of r <> Ret v).
Proof.
  unfold _send_mail, with_SMTP, send_message, step, log, emit, bind, modify, gets,
    raise, ret, outcome_of, state_of, events_of.
  cbn. destruct (smtp_session w (st_sessions s)) as [c e1 tls e2 lg sd q]. cbn.
  destruct c as [c|]; cbn; [repeat split; right; split; [reflexivity | discriminate] |].
  destruct e1 as [e1|]; cbn;
    [destruct q; cbn; repeat split; right; (split; [reflexivity | discriminate]) |].
  destruct tls as [tls|]; cbn;
    [destruct q; cbn; repeat split; right; (split; [reflexivity | discriminate]) |].
  destruct e2 as [e2|]; cbn;
    [destruct q; cbn; repeat split; right; (split; [reflexivity | discriminate]) |].
  destruct lg as [lg|]; cbn.
  - destruct (is_SMTPAuthenticationError lg); cbn;
      [destruct q; cbn; repeat split; left; reflexivity |].
    destruct (is_Exception lg); cbn; destruct q; cbn; repeat split; left; reflexivity.
  - destruct q; cbn; repeat split; left; reflexivity.
Qed.

Lemma send_mail_test_rejected (mail : MailArg)
    (smtp_server smtp_port sender_email password : string)
    (ssl_context : SSLContext) (s : State) :
  rejects (smtp_session w (st_sessions s)) ->
  outcome_of (_send_mail w mail smtp_server smtp_port sender_email password ssl_context true s)
  = Ret LoginError.
Proof.
  intros [Hok (e & Hlogin & Hauth)].
  exact (proj1 (send_mail_login_cases w mail smtp_server smtp_port sender_email
                  password ssl_context true s Hok) e Hlogin Hauth).
Qed.

Lemma send_mail_test_broken (mail : MailArg)
    (smtp_server smtp_port sender_email password : string)
    (ssl_context : SSLContext) (s : State) :
  breaks (smtp_session w (st_sessions s)) ->
  outcome_of (_send_mail w mail smtp_server smtp_port sender_email password ssl_context true s)
  = Ret OtherError.
Proof.
  intros [Hok (e & Hlogin & Hauth & Hexn)].
  exact (proj1 (proj2 (send_mail_login_cases w mail smtp_server smtp_port sender_email
                         password ssl_context true s Hok)) e Hlogin Hauth Hexn).
Qed.

End Authentication.

Ltac conj_split := repeat match goal with |- _ /\ _ => split end.

Section AuthLoop.

Variable w : World.
Variable args : NotifyArgs.
Variables smtp_server smtp_port sender_email : string.
Variable ssl_context : SSLContext.

Local Abbreviation loop n password :=
  (auth_loop w n args smtp_server smtp_port sender_email ssl_context password).

(** What the loop leaves behind, for any number of rounds. *)
Definition loop_footprint (n : nat) (s : State) (r : Outcome (bool * option string) * State * list Event) : Prop :=
  let tr := events_of r in
  (count is_connect tr <= n)%nat
  /\ (length (login_passwords tr) <= count is_connect tr)%nat
  /\ count is_getenv tr = count is_connect tr
  /\ count is_send tr = 0%nat
  /\ count is_fork tr = 0%nat
  /\ st_obs (state_of r) = st_obs s
  /\ st_notify_conf (state_of r) = st_notify_conf s
  /\ st_destlist_read (state_of r) = st_destlist_read s
  /\ st_sessions (state_of r) = (st_sessions s + count is_connect tr)%nat
  /\ (forall password, environ w "E_NOTIFY_PASS" = Some password ->
        count is_getpass tr = 0%nat
        /\ Forall (fun used => used = password) (login_passwords tr))
  /\ (environ w "E_NOTIFY_PASS" = None ->
        count is_getpass tr = count is_connect tr
        /\ forall i used, login_passwords tr !! i = Some used ->
                          used = getpass_input w (st_prompts s + i)).

Lemma loop_footprint_holds (n : nat) :
  forall (s : State) (password : option string), loop_footprint n s (loop n password s).
Proof.
  induction n as [|n IH]; intros s password0.
  - cbn. unfold loop_footprint. cbn. repeat split; auto; try lia.
    intros i used Hi. rewrite lookup_nil in Hi. discriminate.
  - cbn [auth_loop].
    assert (Hres : exists password s1 tr0,
               resolve_password w s = (Ret password, s1, tr0)
               /\ st_obs s1 = st_obs s /\ st_notify_conf s1 = st_notify_conf s
               /\ st_destlist_read s1 = st_destlist_read s
               /\ st_sessions s1 = st_sessions s
               /\ count is_connect tr0 = 0%nat /\ login_passwords tr0 = []
               /\ count is_getenv tr0 = 1%nat /\ count is_send tr0 = 0%nat
               /\ count is_fork tr0 = 0%nat
               /\ (forall p, environ w "E_NOTIFY_PASS" = Some p ->
                     password = p /\ count is_getpass tr0 = 0%nat
                     /\ st_prompts s1 = st_prompts s)
               /\ (environ w "E_NOTIFY_PASS" = None ->
                     password = getpass_input w (st_prompts s)
                     /\ count is_getpass tr0 = 1%nat
                     /\ st_prompts s1 = S (st_prompts s))).
    { destruct (environ w "E_NOTIFY_PASS") as [p|] eqn:Henv.
      - eexists _, _, _. split; [apply resolve_password_from_environ; exact Henv |].
        repeat split; try reflexivity; try discriminate; congruence.
      - eexists _, _, _. split; [apply resolve_password_from_prompt; exact Henv |].
        repeat split; try reflexivity; try discriminate. }
    destruct Hres as (password & s1 & tr0 & Hres & Hobs0 & Hconf0 & Hdest0 & Hsess0 & Hc0 & Hl0
                      & Hg0 & Hs0 & Hf0 & Henv0 & Hprompt0).
    rewrite (bind_Ret_run _ _ _ _ _ _ Hres).
    pose proof (send_mail_test_run w (MailNamespace args) smtp_server smtp_port sender_email
                  password ssl_context s1) as Hsend.
    cbn zeta in Hsend.
    destruct Hsend as (Hst & Hc1 & Hg1 & Hp1 & Hs1 & Hf1 & Hl1).
    set (k := fun return_value : ReturnValue =>
                match return_value with
                | Success => ret (true, Some password)
                | LoginError => loop n (Some password)
                | OtherError => exit 0
                end).
    change (bind (_send_mail w (MailNamespace args) smtp_server smtp_port sender_email
                             password ssl_context true) _)
      with (bind (_send_mail w (MailNamespace args) smtp_server smtp_port sender_email
                             password ssl_context true) k).
    unfold bind.
    destruct (_send_mail w (MailNamespace args) smtp_server smtp_port sender_email
                         password ssl_context true s1) as [[o s2] tr1] eqn:Hrun.
    unfold outcome_of, state_of, events_of in Hst, Hc1, Hg1, Hp1, Hs1, Hf1, Hl1.
    cbn [fst snd] in Hst, Hc1, Hg1, Hp1, Hs1, Hf1, Hl1. subst s2.
    assert (Hstop : forall o' : Outcome (bool * option string),
               loop_footprint (S n) s (o', state_of (o', bump_sessions s1, tr0 ++ tr1),
                                       tr0 ++ tr1)).
    { intros o'. unfold loop_footprint, state_of, events_of. cbn [fst snd].
      rewrite !count_app, login_passwords_app, Hc0, Hl0, Hg0, Hs0, Hf0, Hc1, Hg1, Hp1, Hs1, Hf1.
      cbn [app]. conj_split; try lia; try congruence;
        try (cbn; rewrite ?Hobs0, ?Hconf0, ?Hdest0, ?Hsess0; first [lia | congruence]).
      - destruct Hl1 as [-> | [-> _]]; cbn; lia.
      - intros p H. destruct (Henv0 _ H) as (-> & -> & _). split; [reflexivity |].
        destruct Hl1 as [-> | [-> _]]; repeat constructor.
      - intros H. destruct (Hprompt0 H) as (-> & -> & _). split; [reflexivity |].
        intros i used Hi.
        destruct Hl1 as [Hl | [Hl _]]; rewrite Hl in Hi; cbn in Hi.
        + destruct i as [|i]; cbn in Hi.
          * injection Hi as <-. rewrite Nat.add_0_r. reflexivity.
          * rewrite ?lookup_nil in Hi. discriminate.
        + rewrite ?lookup_nil in Hi. discriminate. }
    destruct o as [[| |]|e|c|]; cbn.
    + (* Success *)
      unfold outcome_of, state_of, events_of. cbn. rewrite app_nil_r.
      apply (Hstop (Ret (true, Some password))).
    + (* LoginError: one more round *)
      destruct Hl1 as [Hl1 | [_ Hl1]]; [| exfalso; apply (Hl1 LoginError); reflexivity].
      specialize (IH (bump_sessions s1) (Some password)).
      destruct (loop n (Some password) (bump_sessions s1)) as [[o3 s3] tr3].
      unfold loop_footprint, outcome_of, state_of, events_of in IH |- *.
      cbn [fst snd] in IH |- *.
      destruct IH as (Ic & Il & Ig & Is & If & Iobs & Iconf & Idest & Isess & Ienv & Iprompt).
      rewrite !count_app, !login_passwords_app, Hc0, Hl0, Hg0, Hs0, Hf0, Hc1, Hg1, Hs1, Hf1, Hl1.
      cbn [app]. conj_split; try lia; try congruence;
        try (cbn in *; rewrite ?Hobs0, ?Hconf0, ?Hdest0, ?Hsess0 in *; first [lia | congruence]).
      * intros p H. destruct (Henv0 _ H) as (-> & Hq & _). destruct (Ienv _ H) as (Hq' & Hall).
        rewrite Hq, Hp1, Hq'. split; [reflexivity |].
        constructor; [reflexivity | exact Hall].
      * intros H. destruct (Hprompt0 H) as (-> & Hq & Hpr). destruct (Iprompt H) as (Hq' & Hidx).
        rewrite Hq, Hp1, Hq'. split; [lia |].
        intros i used. destruct i as [|i]; cbn.
        -- intros [= <-]. rewrite Nat.add_0_r. reflexivity.
        -- intros Hi. apply Hidx in Hi. rewrite Hi. cbn. rewrite Hpr.
           f_equal. lia.
    + (* OtherError *)
      unfold outcome_of, state_of, events_of. cbn. rewrite app_nil_r.
      apply (Hstop (Exit 0)).
    + apply (Hstop (Raise e)).
    + apply (Hstop (Exit c)).
    + apply (Hstop Running).
Qed.

End AuthLoop.

Section AuthScenarios.

Variable w : World.
Variable args : NotifyArgs.
Variables smtp_server smtp_port sender_email : string.
Variable ssl_context : SSLContext.

Local Abbreviation loop n password :=
  (auth_loop w n args smtp_server smtp_port sender_email ssl_context password).

Lemma resolve_password_run (s : State) :
  exists password s1 tr0,
    resolve_password w s = (Ret password, s1, tr0)
    /\ st_sessions s1 = st_sessions s
    /\ count is_connect tr0 = 0%nat.
Proof.
  destruct (environ w "E_NOTIFY_PASS") as [p|] eqn:Henv.
  - eexists _, _, _. split; [apply resolve_password_from_environ; exact Henv |].
    split; reflexivity.
  - eexists _, _, _. split; [apply resolve_password_from_prompt; exact Henv |].
    split; reflexivity.
Qed.

(** One round whose credential test returns [return_value]. *)
Lemma loop_round (n : nat) (s : State) (password0 : option string) (return_value : ReturnValue) :
  (forall password s1,
      st_sessions s1 = st_sessions s ->
      outcome_of (_send_mail w (MailNamespace args) smtp_server smtp_port sender_email
                             password ssl_context true s1) = Ret return_value) ->
  exists password s1 tr,
    st_sessions s1 = S (st_sessions s)
    /\ count is_connect tr = 1%nat
    /\ loop (S n) password0 s
       = match return_value with
         | Success => (Ret (true, Some password), s1, tr)
         | OtherError => (Exit 0, s1, tr)
         | LoginError =>
             (outcome_of (loop n (Some password) s1), state_of (loop n (Some password) s1),
              tr ++ events_of (loop n (Some password) s1))
         end.
Proof.
  intros Htest.
  destruct (resolve_password_run s) as (password & s1 & tr0 & Hres & Hsess & Hc0).
  specialize (Htest password s1 Hsess).
  pose proof (send_mail_test_run w (MailNamespace args) smtp_server smtp_port sender_email
                password ssl_context s1) as (Hst & Hc1 & _).
  exists password, (bump_sessions s1).
  cbn [auth_loop]. rewrite (bind_Ret_run _ _ _ _ _ _ Hres). unfold bind.
  destruct (_send_mail w (MailNamespace args) smtp_server smtp_port sender_email
                       password ssl_context true s1) as [[o s2] tr1].
  unfold outcome_of, state_of, events_of in *. cbn [fst snd] in *. subst o s2.
  exists (tr0 ++ tr1). split; [cbn; rewrite Hsess; reflexivity |].
  split; [rewrite count_app, Hc0, Hc1; reflexivity |].
  destruct return_value; cbn.
  - rewrite app_nil_r. reflexivity.
  - destruct (loop n (Some password) (bump_sessions s1)) as [[o3 s3] tr3]. cbn.
    rewrite app_assoc. reflexivity.
  - rewrite app_nil_r. reflexivity.
Qed.

(** Rejected at every round: the loop ends without success after [n]
    credential tests. *)
Lemma loop_exhausted (n : nat) :
  forall (s : State) (password0 : option string),
    (forall j, (j < n)%nat -> rejects (smtp_session w (st_sessions s + j))) ->
    (exists password, outcome_of (loop n password0 s) = Ret (false, password))
    /\ count is_connect (events_of (loop n password0 s)) = n.
Proof.
  induction n as [|n IH]; intros s password0 Hrej.
  - cbn. eauto.
  - destruct (loop_round n s password0 LoginError) as (password & s1 & tr & Hs1 & Hc & ->).
    { intros password s1 Hsess. apply send_mail_test_rejected.
      rewrite Hsess, <- (Nat.add_0_r (st_sessions s)). apply Hrej. lia. }
    destruct (IH s1 (Some password)) as [[pw Hout] Hcount].
    { intros j Hj. rewrite Hs1.
      replace (S (st_sessions s) + j)%nat with (st_sessions s + S j)%nat by lia.
      apply Hrej. lia. }
    unfold outcome_of, events_of in *. cbn [fst snd] in *.
    rewrite count_app, Hc, Hcount. eauto.
Qed.

(** Rejected [k] times, then a login that fails otherwise: the loop leaves
    the interpreter at once, after [k + 1] credential tests. *)
Lemma loop_broken (n : nat) :
  forall (k : nat) (s : State) (password0 : option string),
    (k < n)%nat ->
    (forall j, (j < k)%nat -> rejects (smtp_session w (st_sessions s + j))) ->
    breaks (smtp_session w (st_sessions s + k)) ->
    outcome_of (loop n password0 s) = Exit 0
    /\ count is_connect (events_of (loop n password0 s)) = S k.
Proof.
  induction n as [|n IH]; intros k s password0 Hk Hrej Hbreak; [lia |].
  destruct k as [|k].
  - destruct (loop_round n s password0 OtherError) as (password & s1 & tr & Hs1 & Hc & ->).
    { intros password s1 Hsess. apply send_mail_test_broken.
      rewrite Hsess, <- (Nat.add_0_r (st_sessions s)). exact Hbreak. }
    split; [reflexivity | exact Hc].
  - destruct (loop_round n s password0 LoginError) as (password & s1 & tr & Hs1 & Hc & ->).
    { intros password s1 Hsess. apply send_mail_test_rejected.
      rewrite Hsess, <- (Nat.add_0_r (st_sessions s)). apply Hrej. lia. }
    destruct (IH k s1 (Some password)) as [Hout Hcount]; [lia | |  |].
    + intros j Hj. rewrite Hs1.
      replace (S (st_sessions s) + j)%nat with (st_sessions s + S j)%nat by lia.
      apply Hrej. lia.
    + rewrite Hs1.
      replace (S (st_sessions s) + k)%nat with (st_sessions s + S k)%nat by lia.
      exact Hbreak.
    + unfold outcome_of, events_of in *. cbn [fst snd] in *.
      rewrite count_app, Hc, Hcount. auto.
Qed.

End AuthScenarios.

(** ** The order of resolutions and attempts *)

(** Before every connection of the trace the password has been resolved
    once more than a connection has been opened: each attempt comes after a
    resolution of its own. *)
Definition resolved_before_each_attempt (tr : list Event) : Prop :=
  forall pre smtp_server smtp_port post,
    tr = pre ++ EvConnect smtp_server smtp_port :: post ->
    count is_getenv pre = S (count is_connect pre).

Lemma split_at_event (l1 l2 pre post : list Event) (e : Event) :
  l1 ++ l2 = pre ++ e :: post ->
  (exists post', l1 = pre ++ e :: post')
  \/ exists pre', pre = l1 ++ pre' /\ l2 = pre' ++ e :: post.
Proof.
  intros Heq. apply List.app_eq_app in Heq as [l [[-> Hl] | [-> ->]]].
  - destruct l as [|x l]; cbn in Hl.
    + right. exists []. rewrite !app_nil_r. auto.
    + injection Hl as <- ->. left. eauto.
  - right. eauto.
Qed.

Lemma no_connect_split (tr pre post : list Event) (smtp_server smtp_port : string) :
  count is_connect tr = 0%nat -> tr <> pre ++ EvConnect smtp_server smtp_port :: post.
Proof.
  intros Hcount ->. rewrite count_app in Hcount. unfold count in Hcount. cbn in Hcount. lia.
Qed.

Lemma resolved_before_round (tr0 tr1 tr3 : list Event) (smtp_server smtp_port : string) :
  count is_connect tr0 = 0%nat -> count is_getenv tr0 = 1%nat ->
  count is_connect tr1 = 0%nat -> count is_getenv tr1 = 0%nat ->
  resolved_before_each_attempt tr3 ->
  resolved_before_each_attempt (tr0 ++ (EvConnect smtp_server smtp_port :: tr1) ++ tr3).
Proof.
  intros Hc0 Hg0 Hc1 Hg1 Hrest pre a b post Heq.
  apply split_at_event in Heq as [[post' Hin] | (pre1 & -> & Heq)];
    [exfalso; exact (no_connect_split _ _ _ _ _ Hc0 Hin) |].
  change ((EvConnect smtp_server smtp_port :: tr1) ++ tr3)
    with ([EvConnect smtp_server smtp_port] ++ (tr1 ++ tr3)) in Heq.
  apply split_at_event in Heq as [[post' Hin] | (pre2 & -> & Heq)].
  - destruct pre1 as [|x [|y pre1]]; try discriminate.
    rewrite app_nil_r, Hc0, Hg0. reflexivity.
  - apply split_at_event in Heq as [[post' Hin] | (pre3 & -> & Heq)];
      [exfalso; exact (no_connect_split _ _ _ _ _ Hc1 Hin) |].
    rewrite !count_app, Hc0, Hg0, Hc1, Hg1, (Hrest _ _ _ _ Heq).
    unfold count. cbn. lia.
Qed.

Lemma resolved_before_nil : resolved_before_each_attempt [].
Proof. intros [|x pre] a b post Heq; discriminate. Qed.

Lemma resolved_before_stop (tr0 tr1 : list Event) (smtp_server smtp_port : string) :
  count is_connect tr0 = 0%nat -> count is_getenv tr0 = 1%nat ->
  count is_connect tr1 = 0%nat -> count is_getenv tr1 = 0%nat ->
  resolved_before_each_attempt (tr0 ++ EvConnect smtp_server smtp_port :: tr1).
Proof.
  intros Hc0 Hg0 Hc1 Hg1.
  pose proof (resolved_before_round tr0 tr1 [] smtp_server smtp_port Hc0 Hg0 Hc1 Hg1
                resolved_before_nil) as H.
  rewrite app_nil_r in H. exact H.
Qed.

Section AuthOrder.

Variable w : World.
Variable args : NotifyArgs.
Variables smtp_server smtp_port sender_email : string.
Variable ssl_context : SSLContext.

Local Abbreviation loop n password :=
  (auth_loop w n args smtp_server smtp_port sender_email ssl_context password).

(** A credential test begins with the connection and opens no other. *)
Lemma send_mail_starts_with_connect (mail : MailArg) (password : string) (test_login : bool)
    (s : State) :
  exists tr,
    events_of (_send_mail w mail smtp_server smtp_port sender_email password ssl_context
                          test_login s)
    = EvConnect smtp_server smtp_port :: tr
    /\ count is_connect tr = 0%nat /\ count is_getenv tr = 0%nat.
Proof.
  unfold _send_mail, with_SMTP, send_message, step, log, emit, bind, modify, gets,
    raise, ret, events_of.
  cbn. destruct (smtp_session w (st_sessions s)) as [c e1 tls e2 lg sd q]. cbn.
  destruct c as [c|]; cbn; [eexists; repeat split |].
  destruct e1 as [e1|]; cbn; [destruct q; cbn; eexists; repeat split |].
  destruct tls as [tls|]; cbn; [destruct q; cbn; eexists; repeat split |].
  destruct e2 as [e2|]; cbn; [destruct q; cbn; eexists; repeat split |].
  destruct lg as [lg|]; cbn.
  - destruct (is_SMTPAuthenticationError lg); cbn; [destruct q; cbn; eexists; repeat split |].
    destruct (is_Exception lg); cbn; destruct q; cbn; eexists; repeat split.
  - destruct test_login; cbn; [destruct q; cbn; eexists; repeat split |].
    destruct mail; cbn; [destruct q; cbn; eexists; repeat split |].
    destruct sd; cbn; destruct q; cbn; eexists; repeat split.
Qed.

Lemma loop_resolves_before_each_attempt (n : nat) :
  forall (s : State) (password0 : option string),
    resolved_before_each_attempt (events_of (loop n password0 s)).
Proof.
  induction n as [|n IH]; intros s password0; [apply resolved_before_nil |].
  cbn [auth_loop].
  assert (Hres : exists password s1 tr0,
             resolve_password w s = (Ret password, s1, tr0)
             /\ count is_connect tr0 = 0%nat /\ count is_getenv tr0 = 1%nat).
  { destruct (environ w "E_NOTIFY_PASS") as [p|] eqn:Henv.
    - eexists _, _, _. split; [apply resolve_password_from_environ; exact Henv |].
      split; reflexivity.
    - eexists _, _, _. split; [apply resolve_password_from_prompt; exact Henv |].
      split; reflexivity. }
  destruct Hres as (password & s1 & tr0 & Hres & Hc0 & Hg0).
  rewrite (bind_Ret_run _ _ _ _ _ _ Hres). unfold events_of at 1. cbn [snd].
  destruct (send_mail_starts_with_connect (MailNamespace args) password true s1)
    as (tr1 & Hev & Hc1 & Hg1).
  unfold bind, events_of in *.
  destruct (_send_mail w (MailNamespace args) smtp_server smtp_port sender_email password
                       ssl_context true s1) as [[o s2] tr] eqn:Hrun.
  cbn [snd] in Hev. subst tr.
  destruct o as [[| |]|e|c|]; unfold ret, exit; cbn [snd];
    try (rewrite ?app_nil_r; apply resolved_before_stop; assumption).
  specialize (IH s2 (Some password)).
  destruct (loop n (Some password) s2) as [[o3 s3] tr3]. cbn [snd] in *.
  apply resolved_before_round; assumption.
Qed.

End AuthOrder.

(** The three values [notify] reads from the configuration. *)
Definition conf_reads (s : State) (smtp_server smtp_port sender_email : string) : Prop :=
  conf_get "SMTP.servers" "server" s = (Ret smtp_server, s, [])
  /\ conf_get "SMTP.port" "port" s = (Ret smtp_port, s, [])
  /\ conf_get "SMTP.login" "sender" s = (Ret sender_email, s, []).

(** [notify] is its authentication loop followed by the lines 174-197. *)
Lemma notify_run (w : World) (fuel : nat) (args : NotifyArgs) (s : State)
    (smtp_server smtp_port sender_email : string) :
  conf_reads s smtp_server smtp_port sender_email ->
  notify w fuel args s
  = bind (auth_loop w 3 args smtp_server smtp_port sender_email DefaultContext None)
         (fun auth =>
            stop_unless (fst auth) ;;;
            fork_and_watch w fuel args smtp_server smtp_port sender_email (snd auth)
                           DefaultContext) s.
Proof.
  intros (Hserver & Hport & Hsender). unfold notify.
  rewrite (bind_Ret_pure _ _ _ _ Hserver).
  rewrite (bind_Ret_pure _ _ _ _ Hport).
  rewrite (bind_Ret_pure _ _ _ _ Hsender).
  unfold bind. destruct (auth_loop _ _ _ _ _ _ _ _ s) as [[[[ok password]|e|c|] s1] tr];
    reflexivity.
Qed.

Definition gave_up : list Event :=
  [EvPrint "You failed your password too much times";
   EvLog WARNING "The username/password combination was failed too much time"].

Lemma notify_exhausted (w : World) (fuel : nat) (args : NotifyArgs) (s : State)
    (smtp_server smtp_port sender_email : string) :
  conf_reads s smtp_server smtp_port sender_email ->
  (forall j, (j < 3)%nat -> rejects (smtp_session w (st_sessions s + j))) ->
  outcome_of (notify w fuel args s) = Exit 0
  /\ (exists tr, events_of (notify w fuel args s) = tr ++ gave_up)
  /\ count is_connect (events_of (notify w fuel args s)) = 3%nat
  /\ count is_send (events_of (notify w fuel args s)) = 0%nat
  /\ count is_fork (events_of (notify w fuel args s)) = 0%nat.
Proof.
  intros Hconf Hrej. rewrite (notify_run w fuel args s _ _ _ Hconf).
  destruct (loop_exhausted w args smtp_server smtp_port sender_email DefaultContext 3 s None Hrej)
    as [[password Hout] Hcount].
  pose proof (loop_footprint_holds w args smtp_server smtp_port sender_email DefaultContext 3 s None)
    as (_ & _ & _ & Hsend & Hfork & _).
  destruct (auth_loop w 3 args smtp_server smtp_port sender_email DefaultContext None s)
    as [[o s1] tr] eqn:Hauth.
  unfold outcome_of, events_of in *. cbn [fst snd] in *. subst o.
  assert (Hrun : bind (auth_loop w 3 args smtp_server smtp_port sender_email DefaultContext None)
                   (fun auth =>
                      stop_unless (fst auth) ;;;
                      fork_and_watch w fuel args smtp_server smtp_port sender_email (snd auth)
                                     DefaultContext) s
                 = (Exit 0, s1, tr ++ gave_up)).
  { unfold bind. rewrite Hauth. reflexivity. }
  rewrite Hrun. cbn [fst snd]. rewrite !count_app, Hcount, Hsend, Hfork. repeat split; eauto.
Qed.

Lemma bind_events_prefix {A B} (m : M A) (k : A -> M B) (s : State) :
  exists tr, events_of (bind m k s) = events_of (m s) ++ tr.
Proof.
  unfold bind, events_of. destruct (m s) as [[[a|e|c|] s1] tr1]; cbn;
    try (exists []; rewrite app_nil_r; reflexivity).
  destruct (k a s1) as [[o s2] tr2]. cbn. eauto.
Qed.

Lemma notify_broken (w : World) (fuel : nat) (args : NotifyArgs) (s : State)
    (smtp_server smtp_port sender_email : string) (k : nat) :
  conf_reads s smtp_server smtp_port sender_email ->
  (k < 3)%nat ->
  (forall j, (j < k)%nat -> rejects (smtp_session w (st_sessions s + j))) ->
  breaks (smtp_session w (st_sessions s + k)) ->
  outcome_of (notify w fuel args s) = Exit 0
  /\ count is_connect (events_of (notify w fuel args s)) = S k
  /\ count is_send (events_of (notify w fuel args s)) = 0%nat
  /\ count is_fork (events_of (notify w fuel args s)) = 0%nat.
Proof.
  intros Hconf Hk Hrej Hbreak. rewrite (notify_run w fuel args s _ _ _ Hconf).
  destruct (loop_broken w args smtp_server smtp_port sender_email DefaultContext 3 k s None
              Hk Hrej Hbreak) as [Hout Hcount].
  pose proof (loop_footprint_holds w args smtp_server smtp_port sender_email DefaultContext 3 s None)
    as (_ & _ & _ & Hsend & Hfork & _).
  destruct (auth_loop w 3 args smtp_server smtp_port sender_email DefaultContext None s)
    as [[o s1] tr] eqn:Hauth.
  unfold outcome_of, events_of in *. cbn [fst snd] in *. subst o.
  unfold bind. rewrite Hauth. cbn [fst snd]. auto.
Qed.

(** C3: the credentials are tested at most three times, each time in the
    test-only mode and after the password has been resolved anew, from the
    environment if it is there and from a prompt otherwise.  A test that
    returns [LoginError] is followed by another one up to the bound; one
    that returns [OtherError] ends the run at once; after three
    [LoginError]s the failure is printed and logged and the run ends
    without fork and without mail. *)
Theorem authentication_is_bounded (w : World) (fuel : nat) (args : NotifyArgs) (s : State)
    (smtp_server smtp_port sender_email : string) :
  conf_reads s smtp_server smtp_port sender_email ->
  let auth := auth_loop w 3 args smtp_server smtp_port sender_email DefaultContext None s in
  let run := notify w fuel args s in
  (exists tr, events_of run = events_of auth ++ tr)
  /\ (count is_connect (events_of auth) <= 3)%nat
  /\ count is_send (events_of auth) = 0%nat
  /\ count is_getenv (events_of auth) = count is_connect (events_of auth)
  /\ resolved_before_each_attempt (events_of auth)
  /\ (forall password, environ w "E_NOTIFY_PASS" = Some password ->
        count is_getpass (events_of auth) = 0%nat
        /\ Forall (fun used => used = password) (login_passwords (events_of auth)))
  /\ (environ w "E_NOTIFY_PASS" = None ->
        count is_getpass (events_of auth) = count is_connect (events_of auth)
        /\ forall i used, login_passwords (events_of auth) !! i = Some used ->
                          used = getpass_input w (st_prompts s + i))
  /\ (forall k, (k < 3)%nat ->
        (forall j, (j < k)%nat -> rejects (smtp_session w (st_sessions s + j))) ->
        breaks (smtp_session w (st_sessions s + k)) ->
        outcome_of run = Exit 0
        /\ count is_connect (events_of run) = S k
        /\ count is_send (events_of run) = 0%nat
        /\ count is_fork (events_of run) = 0%nat)
  /\ ((forall j, (j < 3)%nat -> rejects (smtp_session w (st_sessions s + j))) ->
        outcome_of run = Exit 0
        /\ (exists tr, events_of run = tr ++ gave_up)
        /\ count is_connect (events_of run) = 3%nat
        /\ count is_send (events_of run) = 0%nat
        /\ count is_fork (events_of run) = 0%nat).
Proof.
  intros Hconf auth run. subst auth run.
  pose proof (loop_footprint_holds w args smtp_server smtp_port sender_email DefaultContext 3 s None)
    as (Hbound & _ & Hgetenv & Hsend & _ & _ & _ & _ & _ & Henv & Hprompt).
  split; [rewrite (notify_run w fuel args s _ _ _ Hconf); apply bind_events_prefix |].
  split; [exact Hbound |]. split; [exact Hsend |]. split; [exact Hgetenv |].
  split; [apply loop_resolves_before_each_attempt |].
  split; [exact Henv |]. split; [exact Hprompt |].
  split.
  - intros k Hk Hrej Hbreak. exact (notify_broken w fuel args s _ _ _ k Hconf Hk Hrej Hbreak).
  - intros Hrej. exact (notify_exhausted w fuel args s _ _ _ Hconf Hrej).
Qed.

Lemma authentication_is_bounded_witness :
  conf_reads Sample.configured "smtp.example.org" "587" "me@example.org"
  /\ outcome_of (notify (Sample.world 5 (fun _ => Sample.rejecting) None) 10 (Sample.args 42)
                        Sample.configured) = Exit 0.
Proof.
  assert (Hconf : conf_reads Sample.configured "smtp.example.org" "587" "me@example.org")
    by (repeat split).
  split; [exact Hconf |].
  refine (proj1 (proj2 (proj2 (proj2 (proj2 (proj2 (proj2 (proj2 (proj2
            (authentication_is_bounded (Sample.world 5 (fun _ => Sample.rejecting) None) 10
               (Sample.args 42) Sample.configured "smtp.example.org" "587" "me@example.org"
               Hconf)))))))) _)).
  intros j Hj. repeat split. eexists. split; reflexivity.
Defined.

(** * What a computation emits and returns *)

(** Every event of [m] satisfies [Q] and every value it returns satisfies
    [R], from whatever state it starts. *)
Definition sat {A} (Q : Event -> Prop) (R : A -> Prop) (m : M A) : Prop :=
  forall s, Forall Q (events_of (m s)) /\ forall a, outcome_of (m s) = Ret a -> R a.

Section Sat.

Variable Q : Event -> Prop.

Lemma sat_ret {A} (R : A -> Prop) (a : A) : R a -> sat Q R (ret a).
Proof. intros Ha s. split; [constructor | intros a' [= <-]; exact Ha]. Qed.

Lemma sat_raise {A} (R : A -> Prop) (e : Exn) : sat Q R (raise e).
Proof. intros s. split; [constructor | discriminate]. Qed.

Lemma sat_exit {A} (R : A -> Prop) (code : Z) : sat Q R (exit code).
Proof. intros s. split; [constructor | discriminate]. Qed.

Lemma sat_out_of_fuel {A} (R : A -> Prop) : sat Q R (@out_of_fuel A).
Proof. intros s. split; [constructor | discriminate]. Qed.

Lemma sat_gets {A} (R : A -> Prop) (f : State -> A) : (forall s, R (f s)) -> sat Q R (gets f).
Proof. intros Hf s. split; [constructor | intros a [= <-]; apply Hf]. Qed.

Lemma sat_modify (R : unit -> Prop) (f : State -> State) : R tt -> sat Q R (modify f).
Proof. intros Ht s. split; [constructor | intros [] _; exact Ht]. Qed.

Lemma sat_emit (R : unit -> Prop) (e : Event) : Q e -> R tt -> sat Q R (emit e).
Proof.
  intros He Ht s. split; [repeat constructor; exact He | intros [] _; exact Ht].
Qed.

Lemma sat_bind {A B} (R1 : A -> Prop) (R : B -> Prop) (m : M A) (k : A -> M B) :
  sat Q R1 m -> (forall a, R1 a -> sat Q R (k a)) -> sat Q R (bind m k).
Proof.
  intros Hm Hk s. destruct (Hm s) as [Hev Hret].
  unfold bind, events_of, outcome_of in *.
  destruct (m s) as [[[a|e|c|] s1] tr1]; cbn in *; try (split; [exact Hev | discriminate]).
  destruct (Hk a (Hret a eq_refl) s1) as [Hev2 Hret2].
  unfold events_of, outcome_of in *.
  destruct (k a s1) as [[o s2] tr2]. cbn in *.
  split; [apply Forall_app; auto | exact Hret2].
Qed.

Lemma sat_seq {A B} (R : B -> Prop) (m : M A) (k : M B) :
  sat Q (fun _ => True) m -> sat Q R k -> sat Q R (bind m (fun _ => k)).
Proof. intros Hm Hk. apply (sat_bind (fun _ => True)); auto. Qed.

Lemma sat_post {A} (R R' : A -> Prop) (m : M A) :
  sat Q R m -> (forall a, R a -> R' a) -> sat Q R' m.
Proof. intros Hm HR s. destruct (Hm s) as [Hev Hret]. split; auto. Qed.

Lemma sat_step (R : unit -> Prop) (e : Event) (script : option Exn) :
  Q e -> R tt -> sat Q R (step e script).
Proof.
  intros He Ht. unfold step. apply (sat_seq R); [apply sat_emit; auto |].
  destruct script; [apply sat_raise | apply sat_ret; exact Ht].
Qed.

Lemma sat_for_each {A} (l : list A) (body : A -> M unit) :
  (forall x, x ∈ l -> sat Q (fun _ => True) (body x)) ->
  sat Q (fun _ => True) (for_each l body).
Proof.
  induction l as [|x rest IH]; intros Hbody; cbn.
  - apply sat_ret. exact I.
  - apply sat_seq; [apply Hbody; left |]. apply IH. intros y Hy. apply Hbody. right. exact Hy.
Qed.

Lemma sat_fold_m {A B} (Inv : B -> Prop) (body : B -> A -> M B) (l : list A) (acc : B) :
  Inv acc -> (forall acc x, Inv acc -> sat Q Inv (body acc x)) -> sat Q Inv (fold_m body l acc).
Proof.
  revert acc. induction l as [|x rest IH]; intros acc Hacc Hbody; cbn.
  - apply sat_ret. exact Hacc.
  - apply (sat_bind Inv); [apply Hbody; exact Hacc |]. intros acc' Hacc'. apply IH; auto.
Qed.

Lemma sat_with_SMTP {A} (w : World) (R : A -> Prop) (smtp_server smtp_port : string)
    (body : Session -> M A) :
  Q (EvConnect smtp_server smtp_port) -> Q EvQuit ->
  (forall sess, sat Q R (body sess)) ->
  sat Q R (with_SMTP w smtp_server smtp_port body).
Proof.
  intros Hconnect Hquit Hbody. unfold with_SMTP.
  apply (sat_bind (fun _ => True)); [apply sat_gets; auto |]. intros n _.
  apply sat_seq; [apply sat_modify; exact I |].
  apply sat_seq; [apply sat_step; auto |].
  intros s. destruct (Hbody (smtp_session w n) s) as [Hev Hret].
  unfold events_of, outcome_of, step, bind, emit, raise, ret in *.
  destruct (body (smtp_session w n) s) as [[o s1] tr1]. cbn in *.
  assert (Hall : Forall Q (tr1 ++ [EvQuit])) by (apply Forall_app; split; auto).
  destruct o as [a|e|c|]; destruct (s_quit (smtp_session w n)); cbn;
    (split; [first [exact Hall | exact Hev] | first [exact Hret | discriminate]]).
Qed.

End Sat.

Lemma sat_events {A} (Q Q' : Event -> Prop) (R : A -> Prop) (m : M A) :
  sat Q R m -> (forall e, Q e -> Q' e) -> sat Q' R m.
Proof.
  intros Hm HQ s. destruct (Hm s) as [Hev Hret]. split; [| exact Hret].
  eapply Forall_impl; eauto.
Qed.

(** * The notification *)

Definition not_a_send (e : Event) : Prop := is_send e = false.

(** The event is no message, or a message that satisfies [P]. *)
Definition sends_only (P : MailArg -> Prop) (e : Event) : Prop :=
  forall x, e = EvSendMessage x -> P x.

Lemma not_a_send_sends_only (P : MailArg -> Prop) (e : Event) :
  not_a_send e -> sends_only P e.
Proof. intros He x ->. discriminate. Qed.

Ltac quiet := first [reflexivity | exact I | (intros ? ?; discriminate)].

Section Notification.

Variable w : World.

Lemma conf_get_sat (Q : Event -> Prop) (section key : string) :
  sat Q (fun _ => True) (conf_get section key).
Proof.
  unfold conf_get. apply (sat_bind Q (fun _ => True)); [apply sat_gets; auto |].
  intros [c|] _; [| apply sat_raise].
  destruct (assoc section c) as [options|]; [| apply sat_raise].
  destruct (assoc key options); [apply sat_ret; exact I | apply sat_raise].
Qed.

Lemma resolve_to_sat (args : NotifyArgs) :
  sat not_a_send (fun _ => True) (resolve_to args).
Proof.
  unfold resolve_to. destruct (to args); [apply sat_ret; exact I |].
  destruct (destlist args).
  - apply (sat_bind _ (fun _ => True)); [| intros; apply sat_ret; exact I].
    unfold destlist_read. apply sat_seq; [apply sat_emit; quiet |].
    apply (sat_bind _ (fun _ => True)); [apply sat_gets; auto |]. intros consumed _.
    apply sat_seq; [apply sat_modify; exact I | apply sat_ret; exact I].
  - apply (sat_bind _ (fun _ => True)); [apply conf_get_sat |]. intros receiver _.
    apply sat_seq; [apply sat_emit; quiet | apply conf_get_sat].
Qed.

Lemma resolve_mime_sat (attach_file : string) :
  sat not_a_send (fun _ => True) (resolve_mime w attach_file).
Proof.
  unfold resolve_mime. destruct (guess_type w attach_file) as [ctype encoding].
  apply (sat_bind _ (fun _ => True)).
  - destruct ctype as [guessed|]; [destruct encoding |];
      try (apply sat_ret; exact I);
      (apply sat_seq; [apply sat_emit; quiet | apply sat_ret; exact I]).
  - intros c _. destruct (Str.split_once "/" c) as [|m [|t [|x rest]]];
      first [apply sat_raise | apply sat_ret; exact I].
Qed.

(** Attaching files sends nothing and leaves the text of the message. *)
Lemma attach_all_sat (body : string) (email : Email) (patterns : list string) :
  em_content email = body ->
  sat not_a_send (fun email' => em_content email' = body) (attach_all w email patterns).
Proof.
  intros Hbody. unfold attach_all. apply sat_fold_m; [exact Hbody |].
  clear email Hbody. intros email pattern Hbody.
  apply sat_seq; [apply sat_emit; quiet |].
  apply sat_fold_m; [exact Hbody |].
  clear email Hbody. intros email attach_file Hbody. unfold attach_file_to.
  apply sat_seq; [apply sat_emit; quiet |].
  destruct (fs_isfile w attach_file); cbn.
  - apply (sat_bind _ (fun _ => True)); [apply resolve_mime_sat |].
    intros [maintype subtype] _.
    apply sat_seq; [apply sat_emit; quiet |].
    destruct (fs_read w attach_file) as [e|data]; [apply sat_raise |].
    apply sat_seq; [apply sat_emit; quiet | apply sat_ret; exact Hbody].
  - apply sat_seq; [apply sat_emit; quiet | apply sat_ret; exact Hbody].
Qed.

Lemma format_mail_sat (args : NotifyArgs) (sender subject body : string) :
  sat not_a_send (fun email => em_content email = body)
      (_format_mail w args sender subject body).
Proof.
  unfold _format_mail. apply sat_seq; [apply sat_emit; quiet |].
  apply (sat_bind _ (fun _ => True)); [apply resolve_to_sat |]. intros to_header _.
  apply sat_seq; [apply sat_emit; quiet |].
  destruct (attachments args); [apply attach_all_sat | apply sat_ret]; reflexivity.
Qed.

(** [_send_mail] transmits nothing but the message it is given. *)
Lemma send_mail_sat (mail : MailArg) (smtp_server smtp_port sender_email password : string)
    (ssl_context : SSLContext) (test_login : bool) :
  sat (sends_only (fun x => x = mail)) (fun _ => True)
      (_send_mail w mail smtp_server smtp_port sender_email password ssl_context test_login).
Proof.
  unfold _send_mail.
  apply sat_with_SMTP; try (intros ? ?; discriminate). intros server.
  repeat (apply sat_seq; [first [apply sat_emit | apply sat_step];
                          first [exact I | intros ? ?; discriminate] |]).
  destruct (s_login server) as [err|].
  - destruct (is_SMTPAuthenticationError err);
      [apply sat_seq; [apply sat_emit; quiet | apply sat_ret; exact I] |].
    destruct (is_Exception err);
      [apply sat_seq; [apply sat_emit; quiet | apply sat_ret; exact I] | apply sat_raise].
  - apply sat_seq; [| apply sat_ret; exact I].
    destruct test_login; cbn; [apply sat_ret; exact I |].
    apply sat_seq; [apply sat_emit; quiet |].
    unfold send_message. apply sat_seq; [apply sat_emit; [| exact I] |].
    + intros x [= <-]. reflexivity.
    + destruct mail; [apply sat_raise |]. destruct (s_send server);
        [apply sat_raise | apply sat_ret; exact I].
Qed.

(** The time line 188 formats: the one the process object holds, or a
    reading of the clock when it holds none. *)
Definition stamped (ended_proc : Process) (created : float) : Prop :=
  match _create_time ended_proc with
  | Some t => created = t
  | None => exists t, created = time_now w t
  end.

Lemma localtime_of_sat (Q : Event -> Prop) (ended_proc : Process) :
  sat Q (stamped ended_proc) (localtime_of w (_create_time ended_proc)).
Proof.
  unfold localtime_of, stamped. destruct (_create_time ended_proc) as [t|].
  - apply sat_ret. reflexivity.
  - apply (sat_bind _ (fun _ => True)); [apply sat_gets; auto |].
    intros t _. apply sat_ret. eauto.
Qed.

(** The text of every message sent for an ended process is made of the
    attributes the process object holds. *)
Definition carries (ended_proc : Process) (x : MailArg) : Prop :=
  exists (email : Email) (created : float) (cmdline : string),
    x = MailMessage email
    /\ stamped ended_proc created
    /\ _cmdline ended_proc = Some cmdline
    /\ em_content email = notification_body w (_name ended_proc) created cmdline.

Lemma notify_ended_sat (args : NotifyArgs) (smtp_server smtp_port sender_email : string)
    (password : option string) (ssl_context : SSLContext) (ended_proc : Process) :
  sat (sends_only (carries ended_proc)) (fun _ => True)
      (notify_ended w args smtp_server smtp_port sender_email password ssl_context ended_proc).
Proof.
  unfold notify_ended.
  apply (sat_bind _ (stamped ended_proc)); [apply localtime_of_sat |].
  intros created Hcreated.
  apply (sat_bind _ (fun c => _cmdline ended_proc = Some c)).
  { destruct (_cmdline ended_proc); [apply sat_ret; reflexivity | apply sat_raise]. }
  intros cmdline Hcmdline.
  apply (sat_bind _ (fun email => em_content email
                                  = notification_body w (_name ended_proc) created cmdline)).
  { eapply sat_events; [apply format_mail_sat | apply not_a_send_sends_only]. }
  intros email Hcontent.
  apply (sat_bind _ (fun _ => True)).
  { destruct password; [apply sat_ret; exact I | apply sat_raise]. }
  intros p _. apply sat_seq; [| apply sat_ret; exact I].
  eapply sat_events; [apply send_mail_sat |].
  intros e He x Hx. specialize (He x Hx). cbn in He. subst x.
  exists email, created, cmdline. auto.
Qed.

End Notification.

Lemma bind_events_cases {A B} (m : M A) (k : A -> M B) (s : State) (e : Event) :
  e ∈ events_of (bind m k s) ->
  e ∈ events_of (m s)
  \/ exists a, outcome_of (m s) = Ret a /\ e ∈ events_of (k a (state_of (m s))).
Proof.
  unfold bind, events_of, outcome_of, state_of.
  destruct (m s) as [[[a|x|c|] s1] tr1]; cbn; auto.
  destruct (k a s1) as [[o s2] tr2] eqn:Hk. cbn.
  intros [Hin | Hin]%elem_of_app; [left; exact Hin |].
  right. exists a. rewrite Hk. auto.
Qed.

Lemma sat_elem {A} (Q : Event -> Prop) (R : A -> Prop) (m : M A) (s : State) (e : Event) :
  sat Q R m -> e ∈ events_of (m s) -> Q e.
Proof.
  intros Hm Hin. destruct (Hm s) as [Hev _].
  rewrite Forall_forall in Hev. apply Hev. exact Hin.
Qed.

Section Watch.

Variable w : World.
Variable args : NotifyArgs.
Variables smtp_server smtp_port sender_email : string.
Variable password : option string.
Variable ssl_context : SSLContext.

(** The process the watch is about. *)
Variable watched : Process.

Definition only_watched (procs : list Process) : Prop :=
  Forall (fun proc => proc = watched) procs.

Definition generator_ok (g : Generator) : Prop :=
  match g with
  | GenCreated _ => False
  | GenSuspended alive => only_watched alive
  | GenFinished => True
  end.

Definition yield_ok (yielded : option (list Process) * Generator) : Prop :=
  match fst yielded with
  | Some batch => only_watched batch
  | None => True
  end /\ generator_ok (snd yielded).

Lemma only_watched_filter (f : Process -> bool) (procs : list Process) :
  only_watched procs -> only_watched (List.filter f procs).
Proof.
  unfold only_watched. rewrite !Forall_forall. intros H p Hp.
  apply H. apply list_elem_of_In. apply list_elem_of_In in Hp.
  apply List.filter_In in Hp. tauto.
Qed.

Lemma poll_sat (alive : list Process) :
  only_watched alive -> sat not_a_send yield_ok (poll w alive).
Proof.
  intros Halive. unfold poll. destruct (negb (length alive =? 0)%nat).
  - apply (sat_bind _ (fun waited => only_watched (fst waited) /\ only_watched (snd waited))).
    + unfold wait_procs. apply sat_seq; [apply sat_emit; quiet |].
      apply (sat_bind _ (fun _ => True)).
      * unfold observe. apply (sat_bind _ (fun _ => True)); [apply sat_gets; auto |].
        intros t _. apply sat_seq; [apply sat_modify; exact I | apply sat_ret; exact I].
      * intros t _. apply sat_ret. split; apply only_watched_filter; exact Halive.
    + intros [ended alive'] [Hended Halive']. apply sat_ret. split; assumption.
  - apply sat_ret. split; exact I.
Qed.

Lemma next_sat (g : Generator) :
  generator_ok g -> sat not_a_send yield_ok (next w g).
Proof.
  destruct g as [a|alive|]; cbn; intros Hg.
  - contradiction.
  - apply poll_sat. exact Hg.
  - apply sat_ret. split; exact I.
Qed.

Definition notify_batch (ended_processes : list Process) : M unit :=
  for_each ended_processes
    (notify_ended w args smtp_server smtp_port sender_email password ssl_context).

Lemma notify_batch_sat (batch : list Process) :
  only_watched batch ->
  sat (sends_only (carries w watched)) (fun _ => True) (notify_batch batch).
Proof.
  intros Hbatch. apply sat_for_each. intros proc Hproc.
  unfold only_watched in Hbatch. rewrite Forall_forall in Hbatch.
  rewrite (Hbatch proc Hproc). apply notify_ended_sat.
Qed.

(** Once the generator runs, every message sent is about the watched
    process as the generator holds it. *)
Lemma for_generator_sat (fuel : nat) :
  forall g, generator_ok g ->
            sat (sends_only (carries w watched)) (fun _ => True)
                (for_generator w fuel g notify_batch).
Proof.
  induction fuel as [|fuel IH]; intros g Hg; cbn.
  - apply sat_out_of_fuel.
  - apply (sat_bind _ yield_ok).
    + eapply sat_events; [apply next_sat; exact Hg | apply not_a_send_sends_only].
    + intros [[batch|] g'] [Hbatch Hg']; cbn in *.
      * apply sat_seq; [apply notify_batch_sat; exact Hbatch | apply IH; exact Hg'].
      * apply sat_ret. exact I.
Qed.

End Watch.

Section Capture.

Variable w : World.
Variable args : NotifyArgs.

(** The three looks at the process table the watch starts with. *)
Definition captured_at (s : State) (watched : Process) : Prop :=
  exists i0 i1 i2,
    proc_table w (st_obs s) (pid args) = Some i0
    /\ proc_table w (S (st_obs s)) (pid args) = Some i1
    /\ proc_table w (S (S (st_obs s))) (pid args) = Some i2
    /\ watched = snapshot w (pid args) i0 i1 i2.

Lemma next_created_sat :
  sat not_a_send (fun _ => True) (next w (GenCreated args)).
Proof.
  cbn [next].
  apply (sat_bind _ (fun _ => True)).
  { unfold psutil_Process, observe. apply sat_seq; [apply sat_emit; quiet |].
    apply (sat_bind _ (fun _ => True)).
    - apply (sat_bind _ (fun _ => True)); [apply sat_gets; auto |].
      intros t _. apply sat_seq; [apply sat_modify; exact I | apply sat_ret; exact I].
    - intros t _. destruct (proc_table w t (pid args)); [apply sat_ret; exact I | apply sat_raise]. }
  intros procs _.
  apply (sat_bind _ (fun _ => True)).
  { cbn [map_m]. apply (sat_bind _ (fun _ => True)).
    - unfold cache_attributes, Process_name, Process_cmdline, observe.
      apply (sat_bind _ (fun _ => True)).
      + apply sat_seq; [apply sat_emit; quiet |].
        apply (sat_bind _ (fun _ => True)).
        * apply (sat_bind _ (fun _ => True)); [apply sat_gets; auto |].
          intros t _. apply sat_seq; [apply sat_modify; exact I | apply sat_ret; exact I].
        * intros t _. destruct (proc_table w t (proc_pid procs));
            [apply sat_ret; exact I | apply sat_raise].
      + intros named _. apply (sat_bind _ (fun _ => True)); [| intros; apply sat_ret; exact I].
        apply sat_seq; [apply sat_emit; quiet |].
        apply (sat_bind _ (fun _ => True)).
        * apply (sat_bind _ (fun _ => True)); [apply sat_gets; auto |].
          intros t _. apply sat_seq; [apply sat_modify; exact I | apply sat_ret; exact I].
        * intros t _. destruct (proc_table w t (proc_pid (snd named)));
            [apply sat_ret; exact I | apply sat_raise].
    - intros y _. apply (sat_bind _ (fun _ => True)); apply sat_ret || intros; try exact I.
      apply sat_ret. exact I. }
  intros alive _. unfold poll. destruct (negb (length alive =? 0)%nat).
  - apply (sat_bind _ (fun _ => True)).
    + unfold wait_procs, observe. apply sat_seq; [apply sat_emit; quiet |].
      apply (sat_bind _ (fun _ => True)); [| intros; apply sat_ret; exact I].
      apply (sat_bind _ (fun _ => True)); [apply sat_gets; auto |].
      intros t _. apply sat_seq; [apply sat_modify; exact I | apply sat_ret; exact I].
    + intros [ended alive'] _. apply sat_ret. exact I.
  - apply sat_ret. exact I.
Qed.

(** When the first [next] yields, the process object was filled from the
    three looks at the table the watch started with. *)
Lemma next_created_post (s : State) (yielded : option (list Process) * Generator) :
  outcome_of (next w (GenCreated args) s) = Ret yielded ->
  exists watched, captured_at s watched /\ yield_ok watched yielded.
Proof.
  destruct (proc_table w (st_obs s) (pid args)) as [i0|] eqn:H0.
  2:{ unfold next, psutil_Process, observe, bind, emit, gets, modify, outcome_of.
      cbn. rewrite H0. discriminate. }
  destruct (proc_table w (S (st_obs s)) (pid args)) as [i1|] eqn:H1.
  2:{ unfold next, psutil_Process, cache_attributes, Process_name, observe.
      unfold bind, emit, gets, modify, ret, outcome_of.
      cbn. rewrite H0. cbn. unfold bind. cbn. rewrite H1. discriminate. }
  destruct (proc_table w (S (S (st_obs s))) (pid args)) as [i2|] eqn:H2.
  2:{ unfold next, psutil_Process, cache_attributes, Process_name, Process_cmdline, observe.
      unfold bind, emit, gets, modify, ret, outcome_of.
      cbn. rewrite H0. cbn. unfold bind. cbn. rewrite H1. cbn. rewrite H2. discriminate. }
  rewrite (next_created_run w args s i0 i1 i2 H0 H1 H2).
  unfold outcome_of at 1. cbn [fst snd]. intros Hout.
  exists (snapshot w (pid args) i0 i1 i2). split.
  - exists i0, i1, i2. auto.
  - assert (Hone : only_watched (snapshot w (pid args) i0 i1 i2) [snapshot w (pid args) i0 i1 i2])
      by (repeat constructor).
    destruct (poll_sat w _ _ Hone (after_capture s)) as [_ Hret]. apply Hret. exact Hout.
Qed.

Lemma fork_and_watch_sends (fuel : nat) (smtp_server smtp_port sender_email : string)
    (password : option string) (ssl_context : SSLContext) (s : State) (x : MailArg) :
  EvSendMessage x
    ∈ events_of (fork_and_watch w fuel args smtp_server smtp_port sender_email password
                                ssl_context s) ->
  exists watched, captured_at s watched /\ carries w watched x.
Proof.
  unfold fork_and_watch. intros Hin.
  apply bind_events_cases in Hin as [Hin | ([] & _ & Hin)].
  { apply list_elem_of_In in Hin. destruct Hin as [Hin | []]. discriminate. }
  change (state_of (emit EvFork s)) with s in Hin.
  destruct (fork_result w =? 0); [| apply list_elem_of_In in Hin; destruct Hin].
  apply bind_events_cases in Hin as [Hin | (? & _ & Hin)];
    [| apply list_elem_of_In in Hin; destruct Hin].
  destruct fuel as [|fuel]; [apply list_elem_of_In in Hin; destruct Hin |].
  cbn [for_generator _wait_process] in Hin.
  apply bind_events_cases in Hin as [Hin | (yielded & Hout & Hin)].
  { pose proof (sat_elem _ _ _ _ _ next_created_sat Hin) as Hq. discriminate. }
  destruct (next_created_post s yielded Hout) as (watched & Hcap & Hbatch & Hgen).
  exists watched. split; [exact Hcap |].
  destruct yielded as [[batch|] g]; cbn [fst snd] in *;
    [| apply list_elem_of_In in Hin; destruct Hin].
  apply bind_events_cases in Hin as [Hin | ([] & _ & Hin)].
  - exact (sat_elem _ _ _ _ _
             (notify_batch_sat w args smtp_server smtp_port sender_email password ssl_context
                               watched batch Hbatch) Hin x eq_refl).
  - exact (sat_elem _ _ _ _ _
             (for_generator_sat w args smtp_server smtp_port sender_email password ssl_context
                                watched fuel g Hgen) Hin x eq_refl).
Qed.

End Capture.

Lemma conf_get_pure (section key : string) (s : State) :
  exists o, conf_get section key s = (o, s, []).
Proof.
  unfold conf_get, bind, gets, raise, ret. cbn.
  destruct (st_notify_conf s) as [c|]; cbn; [| eauto].
  destruct (assoc section c) as [options|]; cbn; [| eauto].
  destruct (assoc key options); cbn; eauto.
Qed.

Lemma count_zero_elem (p : Event -> bool) (tr : list Event) (e : Event) :
  count p tr = 0%nat -> e ∈ tr -> p e = false.
Proof.
  unfold count. intros Hcount Hin. destruct (p e) eqn:Hp; [| reflexivity].
  assert (Hf : List.In e (List.filter p tr)).
  { apply List.filter_In. split; [apply list_elem_of_In; exact Hin | exact Hp]. }
  destruct (List.filter p tr); [destruct Hf | discriminate].
Qed.

(** What [notify] writes about a process, spelled out: the f-string of
    lines 186-190 with the name, the formatted time and the command line
    in their places. *)
Lemma notification_body_text (w : World) (name : string) (created : float) (cmdline : string) :
  notification_body w (Some name) created cmdline
  = String Str.nl "Process name : " +:+ name +:+
    String Str.nl "Creation time : " +:+ strftime_local w created +:+
    String " " (String Str.nl "Command line used to invoke it : '") +:+ cmdline +:+
    String "'" (String Str.nl "                ").
Proof. reflexivity. Qed.

(** X22: every notification [notify] sends has, in its text, the name and
    the command line read by the second and the third look at the process
    table, those of lines 132-133, made before the first poll.  The time
    it shows is the creation time of the first look only when the library
    left it in [_create_time]; otherwise it is a reading of the clock. *)
Theorem notification_text_is_captured (w : World) (fuel : nat) (args : NotifyArgs)
    (s : State) (email : Email) :
  EvSendMessage (MailMessage email) ∈ events_of (notify w fuel args s) ->
  exists at_lookup at_name at_cmdline created,
    proc_table w (st_obs s) (pid args) = Some at_lookup
    /\ proc_table w (S (st_obs s)) (pid args) = Some at_name
    /\ proc_table w (S (S (st_obs s))) (pid args) = Some at_cmdline
    /\ em_content email
       = String Str.nl "Process name : " +:+ p_name at_name +:+
         String Str.nl "Creation time : " +:+ strftime_local w created +:+
         String " " (String Str.nl "Command line used to invoke it : '") +:+
         Str.join " " (p_cmdline at_cmdline) +:+
         String "'" (String Str.nl "                ")
    /\ (caches_create_time w = true -> created = p_create_time at_lookup)
    /\ (caches_create_time w = false -> exists t, created = time_now w t).
Proof.
  intros Hin. unfold notify in Hin.
  apply bind_events_cases in Hin as [Hin | (smtp_server & _ & Hin)].
  { destruct (conf_get_pure "SMTP.servers" "server" s) as [o Hc]. rewrite Hc in Hin.
    apply list_elem_of_In in Hin. destruct Hin. }
  replace (state_of (conf_get "SMTP.servers" "server" s)) with s in Hin
    by (destruct (conf_get_pure "SMTP.servers" "server" s) as [o ->]; reflexivity).
  apply bind_events_cases in Hin as [Hin | (smtp_port & _ & Hin)].
  { destruct (conf_get_pure "SMTP.port" "port" s) as [o Hc]. rewrite Hc in Hin.
    apply list_elem_of_In in Hin. destruct Hin. }
  replace (state_of (conf_get "SMTP.port" "port" s)) with s in Hin
    by (destruct (conf_get_pure "SMTP.port" "port" s) as [o ->]; reflexivity).
  apply bind_events_cases in Hin as [Hin | (sender_email & _ & Hin)].
  { destruct (conf_get_pure "SMTP.login" "sender" s) as [o Hc]. rewrite Hc in Hin.
    apply list_elem_of_In in Hin. destruct Hin. }
  replace (state_of (conf_get "SMTP.login" "sender" s)) with s in Hin
    by (destruct (conf_get_pure "SMTP.login" "sender" s) as [o ->]; reflexivity).
  pose proof (loop_footprint_holds w args smtp_server smtp_port sender_email DefaultContext 3 s None)
    as (_ & _ & _ & Hsend & _ & Hobs & _).
  apply bind_events_cases in Hin as [Hin | ([ok password] & _ & Hin)].
  { pose proof (count_zero_elem _ _ _ Hsend Hin). discriminate. }
  set (s1 := state_of (auth_loop w 3 args smtp_server smtp_port sender_email DefaultContext
                                 None s)) in *.
  apply bind_events_cases in Hin as [Hin | ([] & _ & Hin)].
  { destruct ok; cbn in Hin; apply list_elem_of_In in Hin; cbn in Hin;
      intuition discriminate. }
  replace (state_of (stop_unless ok s1)) with s1 in Hin by (destruct ok; reflexivity).
  apply fork_and_watch_sends in Hin as (watched & (i0 & i1 & i2 & H0 & H1 & H2 & ->) & Hcarries).
  destruct Hcarries as (email' & created & cmdline & [= <-] & Hstamp & [= <-] & Hcontent).
  rewrite Hobs in H0, H1, H2. exists i0, i1, i2, created.
  split; [exact H0 |]. split; [exact H1 |]. split; [exact H2 |].
  split; [exact Hcontent |].
  unfold stamped, snapshot in Hstamp. cbn [_create_time] in Hstamp.
  destruct (caches_create_time w); split; intros; first [discriminate | assumption].
Qed.

Definition sample_notification : Email :=
  mkEmail "The process with pid : 42 has ended" "me@example.org"
          (notification_body (Sample.world 5 (fun _ => Sample.accepting) None)
             (Some "sleep") 1700000000.5%float "sleep 100")
          (Some "you@example.org") [].

Example sample_notification_is_sent :
  EvSendMessage (MailMessage sample_notification)
    ∈ events_of (notify (Sample.world 5 (fun _ => Sample.accepting) None) 10 (Sample.args 42)
                        Sample.configured).
Proof. apply list_elem_of_lookup. exists 28%nat. reflexivity. Qed.

Lemma notification_text_is_captured_witness :
  exists at_lookup at_name at_cmdline created,
    proc_table (Sample.world 5 (fun _ => Sample.accepting) None) 0 42 = Some at_lookup
    /\ proc_table (Sample.world 5 (fun _ => Sample.accepting) None) 1 42 = Some at_name
    /\ proc_table (Sample.world 5 (fun _ => Sample.accepting) None) 2 42 = Some at_cmdline
    /\ em_content sample_notification
       = String Str.nl "Process name : " +:+ p_name at_name +:+
         String Str.nl "Creation time : "
         +:+ strftime_local (Sample.world 5 (fun _ => Sample.accepting) None) created +:+
         String " " (String Str.nl "Command line used to invoke it : '") +:+
         Str.join " " (p_cmdline at_cmdline) +:+
         String "'" (String Str.nl "                ")
    /\ (caches_create_time (Sample.world 5 (fun _ => Sample.accepting) None) = true ->
        created = p_create_time at_lookup)
    /\ (caches_create_time (Sample.world 5 (fun _ => Sample.accepting) None) = false ->
        exists t, created = time_now (Sample.world 5 (fun _ => Sample.accepting) None) t).
Proof.
  exact (notification_text_is_captured
           (Sample.world 5 (fun _ => Sample.accepting) None) 10 (Sample.args 42)
           Sample.configured sample_notification sample_notification_is_sent).
Defined.

(** An environment whose library does not fill [_create_time] in the
    constructor.  Pid 42 is the [sleep 100] of the sample environment,
    created at 22:13:20; when the message is built the clock shows
    23:13:20. *)
Module Uncached.

Definition strftime (t : float) : string :=
  if PrimFloat.eqb t 1700000000.5 then "Tue, 14 Nov 2023 22:13:20"
  else if PrimFloat.eqb t 1700003600 then "Tue, 14 Nov 2023 23:13:20"
  else "Thu, 01 Jan 1970 00:00:00".

Definition world_with (caches : bool) : World :=
  let base := Sample.world 5 (fun _ => Sample.accepting) None in
  mkWorld (environ base) (getpass_input base) (proc_table base) (smtp_session base)
          (fork_result base) strftime (fs_glob base) (fs_isfile base) (fs_read base)
          (guess_type base) (fun _ => 1700003600%float) caches (address_list base).

Definition world : World := world_with false.

End Uncached.

(** C4 fails on the code for the creation time.  Lines 131-133 capture
    the name and the command line, but nothing reads the creation time:
    line 188 formats the private attribute [_create_time], which a library
    that does not fill it in the constructor leaves [None], and
    [time.localtime(None)] is the current time.  For the process created at
    22:13:20 and watched from its start, the one message sent when it has
    ended says [Creation time : Tue, 14 Nov 2023 23:13:20], the time at
    which the message is built; the name and the command line are those
    captured at the start. *)
Theorem creation_time_is_not_captured :
  let w := Uncached.world in
  let run := notify w 10 (Sample.args 42) Sample.configured in
  let text := String Str.nl "Process name : sleep" +:+
              String Str.nl "Creation time : Tue, 14 Nov 2023 23:13:20 " +:+
              String Str.nl "Command line used to invoke it : 'sleep 100'" +:+
              String Str.nl "                " in
  let message := mkEmail "The process with pid : 42 has ended" "me@example.org" text
                         (Some "you@example.org") [] in
  (exists info, proc_table w 0 42 = Some info
                /\ strftime_local w (p_create_time info) = "Tue, 14 Nov 2023 22:13:20")
  /\ outcome_of run = Ret None
  /\ List.filter is_send (events_of run) = [EvSendMessage (MailMessage message)]
  /\ get_content message = text +:+ String Str.nl "".
Proof.
  cbn zeta. split; [eexists; split; reflexivity |].
  split; [reflexivity |]. split; reflexivity.
Qed.

(** With a library that fills [_create_time] in the constructor the same
    run shows the creation time. *)
Example creation_time_is_shown_when_cached :
  let w := Uncached.world_with true in
  let run := notify w 10 (Sample.args 42) Sample.configured in
  let text := String Str.nl "Process name : sleep" +:+
              String Str.nl "Creation time : Tue, 14 Nov 2023 22:13:20 " +:+
              String Str.nl "Command line used to invoke it : 'sleep 100'" +:+
              String Str.nl "                " in
  List.filter is_send (events_of run)
  = [EvSendMessage (MailMessage (mkEmail "The process with pid : 42 has ended"
                                         "me@example.org" text (Some "you@example.org") []))].
Proof. reflexivity. Qed.

(** * Sample runs *)

(** Two rejected logins, then an accepted one: three credential tests, a
    fork, and one message sent once the process has ended. *)
Example third_attempt_succeeds :
  let w := Sample.world 5 (fun n => if decide (n < 2)%nat then Sample.rejecting
                                    else Sample.accepting) None in
  let run := notify w 10 (Sample.args 42) Sample.configured in
  outcome_of run = Ret None
  /\ count is_fork (events_of run) = 1%nat
  /\ count is_send (events_of run) = 1%nat
  /\ count is_connect (events_of run) = 4%nat
  /\ login_passwords (events_of run) = ["secret0"; "secret1"; "secret2"; "secret2"].
Proof. vm_compute. repeat split. Qed.

(** A connection that is refused leaves [notify] as an exception, after
    one attempt. *)
Example refused_connection_ends_notify :
  let w := Sample.world 5 (fun _ => Sample.refusing) None in
  let run := notify w 10 (Sample.args 42) Sample.configured in
  outcome_of run
  = Raise (mkExn (OtherException "ConnectionRefusedError") "[Errno 111] Connection refused")
  /\ count is_connect (events_of run) = 1%nat
  /\ count is_send (events_of run) = 0%nat.
Proof. vm_compute. repeat split. Qed.

(** Without [set_conf], [notify] stops at its first line. *)
Example notify_with_unbound_conf :
  notify (Sample.world 5 (fun _ => Sample.accepting) None) 10 (Sample.args 42)
         (initial_state Sample.conf)
  = (Raise (mkExn NameError "name 'conf' is not defined"), initial_state Sample.conf, []).
Proof. reflexivity. Qed.

(** [config] without flags rewrites conf.ini as it is. *)
Example config_without_flags :
  let run := main (Sample.world 0 (fun _ => Sample.accepting) None)
                  (ParsedConfig (config_namespace Sample.conf []))
                  (initial_state Sample.conf) in
  outcome_of run = Ret tt
  /\ st_conf_ini (state_of run) = Sample.conf
  /\ events_of run = [EvWriteConf Sample.conf].
Proof. vm_compute. repeat split. Qed.

(** * Further properties of the message builder *)

(** The regular files among the paths the patterns expand to, in the order
    of the loops of lines 58-60. *)
Definition attached_files (w : World) (patterns : list string) : list string :=
  List.filter (fs_isfile w) (concat (map (fs_glob w) patterns)).

Lemma resolve_mime_outcome (w : World) (attach_file : string) (s1 s2 : State) :
  outcome_of (resolve_mime w attach_file s1) = outcome_of (resolve_mime w attach_file s2).
Proof.
  unfold resolve_mime, log, bind, emit, ret, raise, outcome_of.
  destruct (guess_type w attach_file) as [[ctype|] [encoding|]]; cbn; try reflexivity.
  destruct (Str.split_once "/" ctype) as [|m [|t [|x rest]]]; reflexivity.
Qed.

(** What one attached file adds to the message. *)
Definition part_matches (w : World) (attach_file : string) (part : Attachment) : Prop :=
  att_filename part = Str.basename attach_file
  /\ fs_read w attach_file = inr (att_data part)
  /\ forall s, outcome_of (resolve_mime w attach_file s)
               = Ret (att_maintype part, att_subtype part).

Lemma attach_file_to_part (w : World) (email email' : Email) (attach_file : string)
    (s s' : State) (tr : list Event) :
  attach_file_to w email attach_file s = (Ret email', s', tr) ->
  em_subject email' = em_subject email /\ em_from email' = em_from email
  /\ em_content email' = em_content email /\ em_to email' = em_to email
  /\ if fs_isfile w attach_file
     then exists part, em_parts email' = em_parts email ++ [part]
                       /\ part_matches w attach_file part
     else em_parts email' = em_parts email.
Proof.
  unfold attach_file_to, log, bind, emit, ret.
  destruct (fs_isfile w attach_file); cbn.
  - destruct (resolve_mime w attach_file s) as [[o s1] tr1] eqn:Hmime.
    destruct o as [[maintype subtype]|e|c|]; try discriminate.
    destruct (fs_read w attach_file) as [e|data] eqn:Hread; cbn; [discriminate |].
    intros [= <- <- <-]. cbn. repeat split.
    eexists. split; [reflexivity |]. repeat split; cbn; [exact Hread |].
    intros s2. rewrite (resolve_mime_outcome w attach_file s2 s), Hmime. reflexivity.
  - intros [= <- <- <-]. auto.
Qed.

Lemma attach_files_parts (w : World) (files : list string) (email email' : Email)
    (s s' : State) (tr : list Event) :
  fold_m (attach_file_to w) files email s = (Ret email', s', tr) ->
  em_subject email' = em_subject email /\ em_from email' = em_from email
  /\ em_content email' = em_content email /\ em_to email' = em_to email
  /\ exists parts, em_parts email' = em_parts email ++ parts
                   /\ Forall2 (part_matches w) (List.filter (fs_isfile w) files) parts.
Proof.
  revert email s tr. induction files as [|f rest IH]; intros email s tr; cbn [fold_m].
  - intros [= <- <- <-]. repeat split. exists []. rewrite app_nil_r. split; constructor.
  - intros Hrun. apply bind_Ret_inv in Hrun as (email1 & s1 & tr1 & tr2 & Hone & Hrest & ->).
    apply IH in Hrest as (Hs & Hf & Hc & Ht & parts & Hparts & Hall).
    apply attach_file_to_part in Hone as (Hs1 & Hf1 & Hc1 & Ht1 & Hone).
    rewrite Hs, Hf, Hc, Ht, Hs1, Hf1, Hc1, Ht1. repeat split.
    cbn [List.filter]. destruct (fs_isfile w f).
    + destruct Hone as (part & Hone & Hmatch). exists (part :: parts).
      rewrite Hparts, Hone, <- app_assoc. split; [reflexivity | constructor; assumption].
    + exists parts. rewrite Hparts, Hone. auto.
Qed.

Lemma attach_all_parts (w : World) (patterns : list string) (email email' : Email)
    (s s' : State) (tr : list Event) :
  attach_all w email patterns s = (Ret email', s', tr) ->
  em_subject email' = em_subject email /\ em_from email' = em_from email
  /\ em_content email' = em_content email /\ em_to email' = em_to email
  /\ exists parts, em_parts email' = em_parts email ++ parts
                   /\ Forall2 (part_matches w) (attached_files w patterns) parts.
Proof.
  unfold attach_all, attached_files. revert email s tr.
  induction patterns as [|pattern rest IH]; intros email s tr; cbn [fold_m map concat].
  - intros [= <- <- <-]. repeat split. exists []. rewrite app_nil_r. split; constructor.
  - intros Hrun. apply bind_Ret_inv in Hrun as (email1 & s1 & tr1 & tr2 & Hone & Hrest & ->).
    apply IH in Hrest as (Hs & Hf & Hc & Ht & parts2 & Hparts2 & Hall2).
    apply bind_Ret_inv in Hone as ([] & s0 & tr0 & tr3 & _ & Hfiles & ->).
    apply attach_files_parts in Hfiles as (Hs1 & Hf1 & Hc1 & Ht1 & parts1 & Hparts1 & Hall1).
    rewrite Hs, Hf, Hc, Ht, Hs1, Hf1, Hc1, Ht1. repeat split.
    exists (parts1 ++ parts2). rewrite Hparts2, Hparts1, <- app_assoc, List.filter_app.
    split; [reflexivity | apply Forall2_app; assumption].
Qed.

(** The patterns [_format_mail] expands: what iterating [args.attachments]
    gives. *)
Definition patterns_of (args : NotifyArgs) : list string :=
  match attachments args with
  | Some attachments => Str.chars attachments
  | None => []
  end.

Lemma format_mail_result (w : World) (args : NotifyArgs) (sender subject body : string)
    (s : State) (email : Email) :
  outcome_of (_format_mail w args sender subject body s) = Ret email ->
  em_subject email = subject /\ em_from email = sender /\ em_content email = body
  /\ (exists to_header, outcome_of (resolve_to args s) = Ret to_header
                        /\ em_to email = Some to_header)
  /\ Forall2 (part_matches w) (attached_files w (patterns_of args)) (em_parts email).
Proof.
  unfold outcome_of. destruct (_format_mail w args sender subject body s) as [[o s'] tr] eqn:Hrun.
  cbn [fst]. intros ->. unfold _format_mail in Hrun.
  apply bind_Ret_inv in Hrun as ([] & s1 & tr1 & tr2 & Hlog & Hrun & ->).
  unfold log, emit in Hlog. injection Hlog as <- <-.
  apply bind_Ret_inv in Hrun as (to_header & s2 & tr3 & tr4 & Hto & Hrun & ->).
  apply bind_Ret_inv in Hrun as ([] & s3 & tr5 & tr6 & Hlog & Hrun & ->).
  unfold log, emit in Hlog. injection Hlog as <- <-.
  assert (Hheader : exists h, (resolve_to args s).1.1 = Ret h /\ Some to_header = Some h)
    by (exists to_header; rewrite Hto; auto).
  unfold patterns_of. destruct (attachments args) as [attachments|].
  - apply attach_all_parts in Hrun as (-> & -> & -> & -> & parts & -> & Hall). cbn.
    repeat split; assumption.
  - injection Hrun as <- <- <-. cbn. repeat split; [assumption | constructor].
Qed.

(** X2: the parts of the message are, in the order of the loops, one per
    expanded path that is a regular file: each is named by the base name of
    its file, holds the bytes read from it and is tagged with the type
    resolved for it. *)
Theorem format_mail_parts_follow_expansion (w : World) (args : NotifyArgs)
    (sender subject body : string) (s : State) (email : Email) :
  outcome_of (_format_mail w args sender subject body s) = Ret email ->
  map att_filename (em_parts email)
  = map Str.basename (attached_files w (patterns_of args))
  /\ map (fun part => inr (att_data part)) (em_parts email)
     = map (fs_read w) (attached_files w (patterns_of args))
  /\ map (fun part => Ret (att_maintype part, att_subtype part)) (em_parts email)
     = map (fun f => outcome_of (resolve_mime w f s)) (attached_files w (patterns_of args)).
Proof.
  intros Hrun. apply format_mail_result in Hrun as (_ & _ & _ & _ & Hall).
  induction Hall as [|f part files parts (Hname & Hread & Hmime) Hall IH]; cbn.
  - auto.
  - destruct IH as (-> & -> & ->). rewrite Hname, Hread, Hmime. auto.
Qed.

(** X3: a message is returned only when every expanded regular file could
    be read: one that cannot be read makes the whole build fail. *)
Theorem format_mail_needs_readable_files (w : World) (args : NotifyArgs)
    (sender subject body : string) (s : State) (email : Email) (attach_file : string) :
  outcome_of (_format_mail w args sender subject body s) = Ret email ->
  attach_file ∈ attached_files w (patterns_of args) ->
  exists data, fs_read w attach_file = inr data.
Proof.
  intros Hrun Hin. apply format_mail_result in Hrun as (_ & _ & _ & _ & Hall).
  induction Hall as [|f part files parts (_ & Hread & _) Hall IH]; [inversion Hin |].
  apply elem_of_cons in Hin as [-> | Hin]; eauto.
Qed.

(** * Further properties of [_send_mail] *)

Definition is_quit (e : Event) : bool :=
  match e with EvQuit => true | _ => false end.
Definition is_error_log (e : Event) : bool :=
  match e with EvLog ERROR _ => true | _ => false end.

(** The messages handed to [send_message], in order. *)
Definition sent_messages (tr : list Event) : list MailArg :=
  omap (fun e => match e with EvSendMessage x => Some x | _ => None end) tr.

Lemma sent_messages_app (tr1 tr2 : list Event) :
  sent_messages (tr1 ++ tr2) = sent_messages tr1 ++ sent_messages tr2.
Proof. apply omap_app. Qed.

(** Every step up to and including the login succeeds. *)
Definition logs_in (sess : Session) : Prop :=
  s_connect sess = None /\ s_ehlo1 sess = None /\ s_starttls sess = None
  /\ s_ehlo2 sess = None /\ s_login sess = None.

Ltac session_cases w s :=
  unfold _send_mail, with_SMTP, send_message, step, log, emit, bind, modify, gets,
    raise, ret, outcome_of, state_of, events_of, logs_in;
  cbn; destruct (smtp_session w (st_sessions s)) as [c e1 tls e2 lg sd q]; cbn.

(** X4: [_send_mail] hands a message to the server at most once, never in
    the test-only mode, only the message it was given, and only after the
    connection, the greetings, the TLS upgrade and the login have all
    succeeded. *)
Theorem send_mail_transmits_only_after_login (w : World) (mail : MailArg)
    (smtp_server smtp_port sender_email password : string) (ssl_context : SSLContext)
    (test_login : bool) (s : State) :
  let r := _send_mail w mail smtp_server smtp_port sender_email password ssl_context
                      test_login s in
  (sent_messages (events_of r) = [] \/ sent_messages (events_of r) = [mail])
  /\ (sent_messages (events_of r) <> [] ->
      test_login = false /\ logs_in (smtp_session w (st_sessions s))).
Proof.
  session_cases w s.
  destruct c as [c|]; cbn; [split; [auto | intros []; reflexivity] |].
  destruct e1 as [e1|]; cbn; [destruct q; cbn; (split; [auto | intros []; reflexivity]) |].
  destruct tls as [tls|]; cbn; [destruct q; cbn; (split; [auto | intros []; reflexivity]) |].
  destruct e2 as [e2|]; cbn; [destruct q; cbn; (split; [auto | intros []; reflexivity]) |].
  destruct lg as [lg|]; cbn.
  - destruct (is_SMTPAuthenticationError lg); cbn;
      [destruct q; cbn; (split; [auto | intros []; reflexivity]) |].
    destruct (is_Exception lg); cbn; destruct q; cbn;
      (split; [auto | intros []; reflexivity]).
  - destruct test_login; cbn;
      [destruct q; cbn; (split; [auto | intros []; reflexivity]) |].
    destruct mail; cbn; [destruct q; cbn; (split; [auto | intros _; repeat split]) |].
    destruct sd; cbn; destruct q; cbn; (split; [auto | intros _; repeat split]).
Qed.

(** X5: once the connection is open, [_send_mail] says QUIT exactly once
    and as its last action, however the block is left; when the connection
    cannot be opened there is no QUIT. *)
Theorem send_mail_always_quits (w : World) (mail : MailArg)
    (smtp_server smtp_port sender_email password : string) (ssl_context : SSLContext)
    (test_login : bool) (s : State) :
  let r := _send_mail w mail smtp_server smtp_port sender_email password ssl_context
                      test_login s in
  (s_connect (smtp_session w (st_sessions s)) = None ->
   List.last (events_of r) EvFork = EvQuit /\ count is_quit (events_of r) = 1%nat)
  /\ (s_connect (smtp_session w (st_sessions s)) <> None ->
      events_of r = [EvConnect smtp_server smtp_port]).
Proof.
  session_cases w s.
  destruct c as [c|]; cbn; [split; [discriminate | reflexivity] |].
  split; [intros _ | intros H; contradiction].
  destruct e1 as [e1|]; cbn; [destruct q; cbn; split; reflexivity |].
  destruct tls as [tls|]; cbn; [destruct q; cbn; split; reflexivity |].
  destruct e2 as [e2|]; cbn; [destruct q; cbn; split; reflexivity |].
  destruct lg as [lg|]; cbn.
  - destruct (is_SMTPAuthenticationError lg); cbn; [destruct q; cbn; split; reflexivity |].
    destruct (is_Exception lg); cbn; destruct q; cbn; split; reflexivity.
  - destruct test_login; cbn; [destruct q; cbn; split; reflexivity |].
    destruct mail; cbn; [destruct q; cbn; split; reflexivity |].
    destruct sd; cbn; destruct q; cbn; split; reflexivity.
Qed.

(** X6: a [LoginError] or [OtherError] result comes with exactly one entry
    logged at level ERROR, a [Success] result with none; and an
    [OtherError] entry carries the text of the exception. *)
Theorem send_mail_logs_login_failures (w : World) (mail : MailArg)
    (smtp_server smtp_port sender_email password : string) (ssl_context : SSLContext)
    (test_login : bool) (s : State) :
  let r := _send_mail w mail smtp_server smtp_port sender_email password ssl_context
                      test_login s in
  (outcome_of r = Ret LoginError -> count is_error_log (events_of r) = 1%nat)
  /\ (outcome_of r = Ret OtherError ->
      exists err, s_login (smtp_session w (st_sessions s)) = Some err
                  /\ EvLog ERROR ("An unexpected error occured : " +:+ exn_msg err)
                     ∈ events_of r
                  /\ count is_error_log (events_of r) = 1%nat)
  /\ (outcome_of r = Ret Success -> count is_error_log (events_of r) = 0%nat).
Proof.
  session_cases w s.
  destruct c as [c|]; cbn; [repeat split; discriminate |].
  destruct e1 as [e1|]; cbn; [destruct q; cbn; repeat split; discriminate |].
  destruct tls as [tls|]; cbn; [destruct q; cbn; repeat split; discriminate |].
  destruct e2 as [e2|]; cbn; [destruct q; cbn; repeat split; discriminate |].
  destruct lg as [lg|]; cbn.
  - destruct (is_SMTPAuthenticationError lg); cbn;
      [destruct q; cbn; repeat split; discriminate || reflexivity |].
    destruct (is_Exception lg); cbn; destruct q; cbn; repeat split;
      try discriminate; try reflexivity;
      intros _; eexists; (split; [reflexivity |]); (split; [| reflexivity]);
      apply list_elem_of_In; cbn; tauto.
  - destruct test_login; cbn; [destruct q; cbn; repeat split; discriminate || reflexivity |].
    destruct mail; cbn; [destruct q; cbn; repeat split; discriminate || reflexivity |].
    destruct sd; cbn; destruct q; cbn; repeat split; discriminate || reflexivity.
Qed.

(** A directory with the regular file [report.txt] and the directory
    [logs]; the one-character pattern [*] expands to both. *)
Module Folder.

Definition report : list Byte.byte := [Byte.x68; Byte.x69; Byte.x0a].

Definition world : World :=
  mkWorld
    (fun _ => None)
    (fun _ => "secret")
    (fun t target => if decide (target = 42) then Some Sample.sleep_info else None)
    (fun _ => Sample.accepting)
    7
    (fun _ => "Tue, 14 Nov 2023 22:13:20")
    (fun pattern => if decide (pattern = "*") then ["report.txt"; "logs"] else [])
    (fun path => bool_decide (path = "report.txt"))
    (fun path => if decide (path = "report.txt") then inr report
                 else inl (mkExn (OtherException "IsADirectoryError") path))
    (fun path => if decide (path = "report.txt") then (Some "text/plain", None)
                 else (None, None))
    (fun _ => 1700003600%float)
    true
    Sample.comma_separated.

Definition args : NotifyArgs := mkNotifyArgs 42 (Some "*") (Some ["you@example.org"]) None.

Definition message : Email :=
  mkEmail "subject" "me@example.org" "body" (Some "you@example.org")
          [mkAttachment report "text" "plain" "report.txt"].

Lemma format_mail_run :
  outcome_of (_format_mail world args "me@example.org" "subject" "body" Sample.configured)
  = Ret message.
Proof. reflexivity. Qed.

End Folder.

Lemma format_mail_parts_follow_expansion_witness :
  outcome_of (_format_mail Folder.world Folder.args "me@example.org" "subject" "body"
                           Sample.configured) = Ret Folder.message
  /\ map att_filename (em_parts Folder.message)
     = map Str.basename (attached_files Folder.world (patterns_of Folder.args)).
Proof.
  split; [exact Folder.format_mail_run |].
  exact (proj1 (format_mail_parts_follow_expansion Folder.world Folder.args "me@example.org"
                  "subject" "body" Sample.configured Folder.message Folder.format_mail_run)).
Defined.

Lemma format_mail_needs_readable_files_witness :
  outcome_of (_format_mail Folder.world Folder.args "me@example.org" "subject" "body"
                           Sample.configured) = Ret Folder.message
  /\ "report.txt" ∈ attached_files Folder.world (patterns_of Folder.args)
  /\ exists data, fs_read Folder.world "report.txt" = inr data.
Proof.
  assert (Hin : "report.txt" ∈ attached_files Folder.world (patterns_of Folder.args))
    by (apply list_elem_of_In; left; reflexivity).
  split; [exact Folder.format_mail_run |]. split; [exact Hin |].
  exact (format_mail_needs_readable_files Folder.world Folder.args "me@example.org" "subject"
           "body" Sample.configured Folder.message "report.txt" Folder.format_mail_run Hin).
Defined.

(** * Further properties of the watcher *)

Definition is_wait (e : Event) : bool :=
  match e with EvWaitProcs _ => true | _ => false end.

(** X7: when the process is missing at one of the three looks the watch
    starts with, the first [next] raises [NoSuchProcess]: nothing is
    yielded and no poll is made. *)
Theorem wait_process_needs_the_process (w : World) (args : NotifyArgs) (s : State) :
  proc_table w (st_obs s) (pid args) = None
  \/ proc_table w (S (st_obs s)) (pid args) = None
  \/ proc_table w (S (S (st_obs s))) (pid args) = None ->
  let r := next w (_wait_process args) s in
  (exists msg, outcome_of r = Raise (mkExn NoSuchProcess msg))
  /\ count is_wait (events_of r) = 0%nat.
Proof.
  intros Hmissing.
  unfold _wait_process, next, psutil_Process, cache_attributes, Process_name,
    Process_cmdline, observe.
  unfold bind, emit, gets, modify, ret, raise, outcome_of, events_of. cbn.
  destruct (proc_table w (st_obs s) (pid args)) as [i0|] eqn:H0; cbn; [| eauto].
  unfold bind. cbn.
  destruct (proc_table w (S (st_obs s)) (pid args)) as [i1|] eqn:H1; cbn; [| eauto].
  destruct (proc_table w (S (S (st_obs s))) (pid args)) as [i2|] eqn:H2; cbn; [| eauto].
  destruct Hmissing as [H | [H | H]]; discriminate.
Qed.

Lemma wait_process_needs_the_process_witness :
  (proc_table (Sample.world 1 (fun _ => Sample.accepting) None) 0 42 = None
   \/ proc_table (Sample.world 1 (fun _ => Sample.accepting) None) 1 42 = None
   \/ proc_table (Sample.world 1 (fun _ => Sample.accepting) None) 2 42 = None)
  /\ exists msg,
       outcome_of (next (Sample.world 1 (fun _ => Sample.accepting) None)
                        (_wait_process (Sample.args 42)) Sample.configured)
       = Raise (mkExn NoSuchProcess msg).
Proof.
  assert (H : proc_table (Sample.world 1 (fun _ => Sample.accepting) None) 0 42 = None
              \/ proc_table (Sample.world 1 (fun _ => Sample.accepting) None) 1 42 = None
              \/ proc_table (Sample.world 1 (fun _ => Sample.accepting) None) 2 42 = None)
    by (right; left; reflexivity).
  split; [exact H |].
  exact (proj1 (wait_process_needs_the_process
                  (Sample.world 1 (fun _ => Sample.accepting) None) (Sample.args 42)
                  Sample.configured H)).
Defined.

Lemma bind_Ret_then {A B} (m : M A) (k : A -> M B) (s s1 : State) (a : A)
    (tr1 tr2 : list Event) (o : Outcome B) :
  m s = (Ret a, s1, tr1) ->
  outcome_of (k a s1) = o -> events_of (k a s1) = tr2 ->
  outcome_of (bind m k s) = o /\ events_of (bind m k s) = tr1 ++ tr2.
Proof.
  intros Hm <- <-. rewrite (bind_Ret_run _ _ _ _ _ _ Hm). split; reflexivity.
Qed.

Section StillAlive.

Variable w : World.

(** A poll that finds the process alive yields an empty batch and keeps
    the process. *)
Lemma poll_alive (p : Process) (s : State) :
  proc_table w (st_obs s) (proc_pid p) <> None ->
  poll w [p] s = (Ret (Some [], GenSuspended [p]), bump_obs s, [EvWaitProcs [proc_pid p]]).
Proof.
  intros Halive. unfold poll, wait_procs, observe, bind, emit, gets, modify, ret, is_gone.
  cbn. destruct (proc_table w (st_obs s) (proc_pid p)); [reflexivity | contradiction].
Qed.

(** While the process is seen alive, each round of the loop is one poll
    that yields an empty batch. *)
Lemma for_generator_while_alive (p : Process) (body : list Process -> M unit) (fuel : nat) :
  body [] = ret tt ->
  forall s,
    (forall t, (st_obs s <= t)%nat -> proc_table w t (proc_pid p) <> None) ->
    outcome_of (for_generator w fuel (GenSuspended [p]) body s) = Running
    /\ events_of (for_generator w fuel (GenSuspended [p]) body s)
       = replicate fuel (EvWaitProcs [proc_pid p]).
Proof.
  intros Hbody. induction fuel as [|fuel IH]; intros s Halive; [split; reflexivity |].
  cbn [for_generator next].
  destruct (IH (bump_obs s)) as [Hout Hev]; [intros t Ht; apply Halive; cbn in Ht; lia |].
  apply (bind_Ret_then _ _ _ _ _ _ _ _ (poll_alive p s (Halive _ (le_n _)))).
  - rewrite Hbody. rewrite (bind_Ret_pure _ _ _ _ eq_refl). exact Hout.
  - rewrite Hbody. rewrite (bind_Ret_pure _ _ _ _ eq_refl). exact Hev.
Qed.

End StillAlive.

Lemma count_replicate_wait (n : nat) (targets : list Z) :
  count is_wait (replicate n (EvWaitProcs targets)) = n.
Proof.
  unfold count. induction n as [|n IH]; cbn; [reflexivity | rewrite IH; reflexivity].
Qed.

Lemma sent_messages_replicate_wait (n : nat) (targets : list Z) :
  sent_messages (replicate n (EvWaitProcs targets)) = [].
Proof. induction n as [|n IH]; cbn; [reflexivity | exact IH]. Qed.

(** X8: as long as the process is seen alive the child neither stops nor
    notifies: whatever the fuel, the run is still going, it has made one
    poll per round and has sent no message. *)
Theorem watch_goes_on_while_alive (w : World) (fuel : nat) (args : NotifyArgs)
    (smtp_server smtp_port sender_email : string) (password : option string)
    (ssl_context : SSLContext) (s : State) :
  fork_result w = 0 ->
  (forall t, (st_obs s <= t)%nat -> proc_table w t (pid args) <> None) ->
  let r := fork_and_watch w fuel args smtp_server smtp_port sender_email password
                          ssl_context s in
  outcome_of r = Running
  /\ count is_wait (events_of r) = fuel
  /\ sent_messages (events_of r) = [].
Proof.
  intros Hchild Halive. unfold fork_and_watch. rewrite Hchild. cbn [Z.eqb].
  remember (fun ended_processes : list Process =>
              for_each ended_processes
                (notify_ended w args smtp_server smtp_port sender_email password
                              ssl_context)) as body eqn:Hbody.
  assert (Hnil : body [] = ret tt) by (rewrite Hbody; reflexivity).
  clear Hbody.
  assert (Hloop : outcome_of (for_generator w fuel (_wait_process args) body s) = Running
                  /\ count is_wait (events_of (for_generator w fuel (_wait_process args) body s))
                     = fuel
                  /\ sent_messages (events_of (for_generator w fuel (_wait_process args) body s))
                     = []).
  { destruct fuel as [|fuel]; [repeat split |].
    destruct (proc_table w (st_obs s) (pid args)) as [i0|] eqn:H0;
      [| exfalso; exact (Halive _ (le_n _) H0)].
    destruct (proc_table w (S (st_obs s)) (pid args)) as [i1|] eqn:H1;
      [| exfalso; apply (Halive (S (st_obs s))); [lia | exact H1]].
    destruct (proc_table w (S (S (st_obs s))) (pid args)) as [i2|] eqn:H2;
      [| exfalso; apply (Halive (S (S (st_obs s)))); [lia | exact H2]].
    set (p := snapshot w (pid args) i0 i1 i2).
    assert (Hnext : next w (GenCreated args) s
                    = (Ret (Some [], GenSuspended [p]), bump_obs (after_capture s),
                       [EvProcessLookup (pid args); EvProcessName (pid args);
                        EvProcessCmdline (pid args)] ++ [EvWaitProcs [pid args]])).
    { rewrite (next_created_run w args s i0 i1 i2 H0 H1 H2). fold p.
      rewrite (poll_alive w p (after_capture s)); [reflexivity |].
      apply Halive. cbn. lia. }
    destruct (for_generator_while_alive w p body fuel Hnil (bump_obs (after_capture s)))
      as [Hout Hev]; [intros t Ht; apply Halive; cbn in Ht; lia |].
    cbn [for_generator _wait_process].
    destruct (bind_Ret_then _ (fun yielded =>
                match yielded with
                | (None, _) => ret tt
                | (Some batch, g) => body batch ;;; for_generator w fuel g body
                end) _ _ _ _ _ _ Hnext eq_refl eq_refl) as [Hout' Hev'].
    cbn beta iota in Hout', Hev'.
    assert (Hrest : (body [] ;;; for_generator w fuel (GenSuspended [p]) body)
                      (bump_obs (after_capture s))
                    = for_generator w fuel (GenSuspended [p]) body (bump_obs (after_capture s)))
      by (rewrite Hnil;
          exact (bind_Ret_pure (ret tt) (fun _ => for_generator w fuel (GenSuspended [p]) body)
                               (bump_obs (after_capture s)) tt eq_refl)).
    rewrite Hrest in Hout', Hev'. unfold _wait_process. rewrite Hout', Hev', Hout, Hev.
    rewrite !count_app, !sent_messages_app, count_replicate_wait,
      sent_messages_replicate_wait.
    repeat split. }
  destruct Hloop as (Hout & Hwait & Hsent).
  destruct (bind_not_Ret_run (for_generator w fuel (_wait_process args) body)
              (fun _ => ret (@None Z)) s) as (Ho & _ & He);
    [rewrite Hout; discriminate |].
  rewrite Hout in Ho.
  destruct (bind_Ret_then (emit EvFork)
              (fun _ => bind (for_generator w fuel (_wait_process args) body)
                             (fun _ => ret (@None Z)))
              s s tt [EvFork] _ _ eq_refl eq_refl eq_refl) as [Ho' He'].
  rewrite Ho', He', Ho, He, count_app, sent_messages_app, Hwait, Hsent. repeat split.
Qed.

(** A world in which pid 42 never ends and the program is the child. *)
Definition everlasting : World :=
  mkWorld
    (fun _ => None)
    (fun _ => "secret")
    (fun t target => if decide (target = 42) then Some Sample.sleep_info else None)
    (fun _ => Sample.accepting)
    0
    (fun _ => "Tue, 14 Nov 2023 22:13:20")
    (fun _ => [])
    (fun _ => false)
    (fun path => inr [])
    (fun _ => (None, None))
    (fun _ => 1700003600%float)
    true
    Sample.comma_separated.

Lemma watch_goes_on_while_alive_witness :
  fork_result everlasting = 0
  /\ outcome_of (fork_and_watch everlasting 5 (Sample.args 42) "smtp.example.org" "587"
                                "me@example.org" (Some "secret") DefaultContext
                                Sample.configured)
     = Running.
Proof.
  split; [reflexivity |].
  refine (proj1 (watch_goes_on_while_alive everlasting 5 (Sample.args 42) "smtp.example.org"
                   "587" "me@example.org" (Some "secret") DefaultContext Sample.configured
                   eq_refl _)).
  intros t _. discriminate.
Defined.

(** * Further properties of e_notify.py *)

Lemma bind_Ret_silent {A B} (m : M A) (k : A -> M B) (s s1 : State) (a : A) :
  m s = (Ret a, s1, []) -> bind m k s = k a s1.
Proof.
  intros Hm. unfold bind. rewrite Hm. destruct (k a s1) as [[o s'] tr]. reflexivity.
Qed.

(** X9: an error of the probe that is no [ProcessLookupError] is not
    handled by [notify_target]: for a process the caller may not signal,
    [PermissionError] leaves it as [os.kill] raised it, after the probe
    and nothing else. *)
Theorem probe_permission_error_is_not_caught (w : World) (args : NotifyArgs) (s : State)
    (info : ProcInfo) :
  proc_table w (st_obs s) (pid args) = Some info ->
  p_may_signal info = false ->
  notify_target w args s
  = (Raise (mkExn PermissionError "[Errno 1] Operation not permitted"), bump_obs s,
     [EvKill (pid args) 0]).
Proof.
  intros Hlive Hperm.
  unfold notify_target, call_notify_module, try_except, os_kill, observe,
    bind, modify, gets, emit, raise.
  cbn. rewrite Hlive. cbn. rewrite Hperm. reflexivity.
Qed.

Lemma probe_permission_error_is_not_caught_witness :
  proc_table (Sample.world 0 (fun _ => Sample.accepting) None) 0 1 = Some Sample.init_info
  /\ outcome_of (notify_target (Sample.world 0 (fun _ => Sample.accepting) None)
                               (Sample.args 1) (initial_state Sample.conf))
     = Raise (mkExn PermissionError "[Errno 1] Operation not permitted").
Proof.
  split; [reflexivity |].
  rewrite (probe_permission_error_is_not_caught
             (Sample.world 0 (fun _ => Sample.accepting) None) (Sample.args 1)
             (initial_state Sample.conf) Sample.init_info eq_refl eq_refl).
  reflexivity.
Defined.

Lemma notify_target_keeps_conf_ini (w : World) (args : NotifyArgs) (s : State) :
  st_conf_ini (state_of (notify_target w args s)) = st_conf_ini s.
Proof.
  unfold notify_target, call_notify_module, try_except, os_kill, observe,
    bind, modify, gets, emit, raise, state_of.
  cbn. destruct (proc_table w (st_obs s) (pid args)) as [info|]; cbn; [| reflexivity].
  destruct (p_may_signal info); reflexivity.
Qed.

Lemma config_target_keeps_conf_ini (args : ConfigArgs) (s : State) :
  st_conf s = st_conf_ini s ->
  st_conf_ini (state_of (config_target args s)) = st_conf_ini s.
Proof.
  intros Hloaded. unfold config_target. rewrite (bind_Ret_pure _ _ _ _ eq_refl).
  pose proof (edit_sections_run args (map fst (st_conf s)) s
                (fun key Hkey => elem_assoc_Some key (st_conf s) Hkey))
    as (Hev & Hini & Hcases).
  unfold bind, state_of in *.
  destruct (for_each (map fst (st_conf s)) (edit_section args) s) as [[o s1] tr1].
  unfold outcome_of in Hcases. cbn [fst snd] in *.
  destruct Hcases as [(-> & -> & _) | [[msg ->] | [_ [msg ->]]]]; cbn;
    [exact Hloaded | exact Hini | exact Hini].
Qed.

(** X10: no run of the script changes the configuration conf.ini holds,
    that is the sections, option names and values a [ConfigParser] reads
    from it (the layout of the file and its comments are not modelled).
    The [notify] subcommand and the help do not write the file, and the
    [config] subcommand either fails before writing or writes back the
    configuration it read. *)
Theorem main_never_changes_conf_ini (w : World) (parsed : Parsed) (s : State) :
  st_conf_ini (state_of (main w parsed s)) = st_conf_ini s.
Proof.
  unfold main. rewrite (bind_Ret_run _ _ _ _ _ _ eq_refl).
  unfold state_of at 1. cbn [fst snd].
  set (s0 := with_conf (st_conf_ini s) s).
  change (st_conf_ini s) with (st_conf_ini s0).
  destruct parsed as [args|args|].
  - apply config_target_keeps_conf_ini. reflexivity.
  - apply notify_target_keeps_conf_ini.
  - reflexivity.
Qed.

Lemma option_names_of_section (c : Configuration) (conf_key : string) (options : Options)
    (name : string) :
  assoc conf_key c = Some options -> name ∈ map fst options -> name ∈ option_names c.
Proof.
  unfold option_names. induction c as [|[k o] rest IH]; cbn; [discriminate |].
  destruct (decide (k = conf_key)) as [->|Hne].
  - intros [= ->] Hin. apply elem_of_app. left. exact Hin.
  - intros Hassoc Hin. apply elem_of_app. right. auto.
Qed.

Lemma edit_options_without_flags (args : ConfigArgs) (conf_key : string)
    (options : list string) (s : State) :
  Forall (fun name => args !! name = Some None) options ->
  for_each options (edit_option args conf_key) s = (Ret tt, s, []).
Proof.
  induction 1 as [|name rest Hname Hrest IH]; cbn [for_each]; [reflexivity |].
  assert (Hone : edit_option args conf_key name s = (Ret tt, s, [])).
  { unfold edit_option, getattr. rewrite Hname. reflexivity. }
  rewrite (bind_Ret_pure _ _ _ _ Hone). exact IH.
Qed.

Lemma edit_sections_without_flags (args : ConfigArgs) (sections : list string) (s : State) :
  (forall conf_key, conf_key ∈ sections -> is_Some (assoc conf_key (st_conf s))) ->
  (forall name, name ∈ option_names (st_conf s) -> args !! name = Some None) ->
  for_each sections (edit_section args) s = (Ret tt, s, []).
Proof.
  intros Hsecs Hnone. induction sections as [|conf_key rest IH]; cbn [for_each];
    [reflexivity |].
  destruct (Hsecs conf_key) as [options Hsec]; [left |].
  assert (Hone : edit_section args conf_key s = (Ret tt, s, [])).
  { unfold edit_section.
    rewrite (bind_Ret_pure _ _ _ _ (conf_section_run conf_key options s Hsec)).
    apply edit_options_without_flags. apply Forall_forall. intros name Hname.
    apply Hnone. exact (option_names_of_section _ _ _ _ Hsec Hname). }
  rewrite (bind_Ret_pure _ _ _ _ Hone). apply IH.
  intros key Hkey. apply Hsecs. right. exact Hkey.
Qed.

(** X11: [config] without any flag passes the loops without a change and
    writes conf.ini once, with the configuration as it was read. *)
Theorem config_without_flags_rewrites_conf_ini (w : World) (args : ConfigArgs) (s : State) :
  (forall name, name ∈ option_names (st_conf_ini s) -> args !! name = Some None) ->
  main w (ParsedConfig args) s
  = (Ret tt, with_conf_ini (st_conf_ini s) (with_conf (st_conf_ini s) s),
     [EvWriteConf (st_conf_ini s)]).
Proof.
  intros Hnone. unfold main.
  rewrite (bind_Ret_silent _ _ s (with_conf (st_conf_ini s) s) tt eq_refl).
  set (s0 := with_conf (st_conf_ini s) s).
  unfold config_target. rewrite (bind_Ret_pure _ _ _ _ eq_refl).
  assert (Hloops : for_each (map fst (st_conf s0)) (edit_section args) s0 = (Ret tt, s0, [])).
  { apply edit_sections_without_flags.
    - intros key Hkey. apply elem_assoc_Some. exact Hkey.
    - exact Hnone. }
  rewrite (bind_Ret_pure _ _ _ _ Hloops). reflexivity.
Qed.

Lemma config_namespace_defaults (c : Configuration) (name : string) :
  name ∈ option_names c -> config_namespace c [] !! name = Some None.
Proof.
  unfold config_namespace. cbn [foldl]. generalize (option_names c). intros names.
  induction names as [|n rest IH]; intros Hin; [inversion Hin |].
  change (list_to_map (map (fun name => (name, None)) (n :: rest)) : ConfigArgs)
    with (<[n := None]> (list_to_map (map (fun name => (name, None)) rest) : ConfigArgs)).
  destruct (decide (n = name)) as [->|Hne].
  - unfold ConfigArgs. apply lookup_insert_eq.
  - unfold ConfigArgs. rewrite lookup_insert_ne by exact Hne.
    apply elem_of_cons in Hin as [Heq | Hin]; [congruence | auto].
Qed.

Lemma config_without_flags_rewrites_conf_ini_witness :
  outcome_of (main (Sample.world 0 (fun _ => Sample.accepting) None)
                   (ParsedConfig (config_namespace Sample.conf []))
                   (initial_state Sample.conf)) = Ret tt.
Proof.
  rewrite (config_without_flags_rewrites_conf_ini
             (Sample.world 0 (fun _ => Sample.accepting) None)
             (config_namespace Sample.conf []) (initial_state Sample.conf)
             (config_namespace_defaults Sample.conf)).
  reflexivity.
Defined.

(** * Further properties of the recipients and of the MIME type *)




(** X13: a type that [guess_type] gives without encoding is used as it is,
    cut at its first slash, and nothing is logged. *)
Theorem guessed_type_is_cut_at_first_slash (w : World) (attach_file maintype subtype : string)
    (s : State) :
  guess_type w attach_file = (Some (maintype +:+ String "/" subtype), None) ->
  (forall a, a ∈ list_ascii_of_string maintype -> a <> "/"%char) ->
  resolve_mime w attach_file s = (Ret (maintype, subtype), s, []).
Proof. apply mime_guessed. Qed.

Lemma guessed_type_is_cut_at_first_slash_witness :
  resolve_mime Folder.world "report.txt" Sample.configured
  = (Ret ("text", "plain"), Sample.configured, []).
Proof.
  apply (guessed_type_is_cut_at_first_slash Folder.world "report.txt" "text" "plain"
           Sample.configured eq_refl).
  intros a Ha. apply list_elem_of_In in Ha. cbn in Ha.
  destruct Ha as [<- | [<- | [<- | [<- | []]]]]; discriminate.
Defined.

(** * Further properties of [notify] *)

(** A value of the configuration is there, or the lookup raises
    [NameError] (no [conf]) or [KeyError] (no section, no option). *)
Lemma conf_get_cases (section key : string) (s : State) :
  (exists v, conf_get section key s = (Ret v, s, []))
  \/ exists e, conf_get section key s = (Raise e, s, [])
               /\ (exn_class e = NameError \/ exn_class e = KeyError).
Proof.
  unfold conf_get, bind, gets, raise, ret. cbn.
  destruct (st_notify_conf s) as [c|]; cbn; [| right; eauto].
  destruct (assoc section c) as [options|]; cbn; [| right; eauto].
  destruct (assoc key options); cbn; [left | right]; eauto.
Qed.

(** X14: [notify] reads its three settings before anything else.  When
    [conf] is unbound, or one of [SMTP.servers]/[server], [SMTP.port]/[port]
    and [SMTP.login]/[sender] is missing, it raises [NameError] or
    [KeyError] and has done nothing: no password is asked for, no
    connection is opened and no process is created. *)
Theorem notify_needs_its_settings (w : World) (fuel : nat) (args : NotifyArgs) (s : State) :
  (forall smtp_server smtp_port sender_email,
      ~ conf_reads s smtp_server smtp_port sender_email) ->
  exists e, notify w fuel args s = (Raise e, s, [])
            /\ (exn_class e = NameError \/ exn_class e = KeyError).
Proof.
  intros Hmissing. unfold notify.
  destruct (conf_get_cases "SMTP.servers" "server" s) as [[smtp_server H1] | (e & H1 & He)].
  2:{ exists e. split; [| exact He]. unfold bind. rewrite H1. reflexivity. }
  rewrite (bind_Ret_pure _ _ _ _ H1).
  destruct (conf_get_cases "SMTP.port" "port" s) as [[smtp_port H2] | (e & H2 & He)].
  2:{ exists e. split; [| exact He]. unfold bind. rewrite H2. reflexivity. }
  rewrite (bind_Ret_pure _ _ _ _ H2).
  destruct (conf_get_cases "SMTP.login" "sender" s) as [[sender_email H3] | (e & H3 & He)].
  2:{ exists e. split; [| exact He]. unfold bind. rewrite H3. reflexivity. }
  exfalso. apply (Hmissing smtp_server smtp_port sender_email). repeat split; assumption.
Qed.

Lemma notify_needs_its_settings_witness :
  exists e, notify (Sample.world 5 (fun _ => Sample.accepting) None) 10 (Sample.args 42)
                   (initial_state Sample.conf)
            = (Raise e, initial_state Sample.conf, [])
            /\ (exn_class e = NameError \/ exn_class e = KeyError).
Proof.
  apply (notify_needs_its_settings (Sample.world 5 (fun _ => Sample.accepting) None) 10
           (Sample.args 42) (initial_state Sample.conf)).
  intros a b c [H _]. discriminate H.
Defined.

(** The server accepts the credentials. *)
Definition accepts (sess : Session) : Prop :=
  handshake_ok sess /\ s_login sess = None.


Section AuthAccepted.

Variable w : World.
Variable args : NotifyArgs.
Variables smtp_server smtp_port sender_email : string.
Variable ssl_context : SSLContext.

Local Abbreviation loop n password :=
  (auth_loop w n args smtp_server smtp_port sender_email ssl_context password).

Lemma resolve_password_logins (s : State) :
  exists password s1 tr0,
    resolve_password w s = (Ret password, s1, tr0)
    /\ st_sessions s1 = st_sessions s
    /\ count is_connect tr0 = 0%nat
    /\ login_passwords tr0 = [].
Proof.
  destruct (environ w "E_NOTIFY_PASS") as [p|] eqn:Henv.
  - eexists _, _, _. split; [apply resolve_password_from_environ; exact Henv |].
    repeat split.
  - eexists _, _, _. split; [apply resolve_password_from_prompt; exact Henv |].
    repeat split.
Qed.

(** A round whose credentials are accepted ends the loop with the password
    of that round. *)
Lemma loop_accepted_now (n : nat) (s : State) (password0 : option string) :
  accepts (smtp_session w (st_sessions s)) ->
  exists password,
    outcome_of (loop (S n) password0 s) = Ret (true, Some password)
    /\ count is_connect (events_of (loop (S n) password0 s)) = 1%nat
    /\ login_passwords (events_of (loop (S n) password0 s)) = [password].
Proof.
  intros [Hok Hlogin].
  destruct (resolve_password_logins s) as (password & s1 & tr0 & Hres & Hsess & Hc0 & Hl0).
  exists password. cbn [auth_loop]. rewrite (bind_Ret_run _ _ _ _ _ _ Hres).
  unfold outcome_of at 1, events_of at 1 3. cbn [fst snd].
  rewrite <- Hsess in Hok, Hlogin.
  pose proof (proj2 (proj2 (send_mail_login_cases w (MailNamespace args) smtp_server smtp_port
                              sender_email password ssl_context true s1 Hok))
                Hlogin (or_introl eq_refl)) as Hout.
  pose proof (send_mail_test_run w (MailNamespace args) smtp_server smtp_port sender_email
                password ssl_context s1) as (_ & Hc1 & _ & _ & _ & _ & Hl1).
  unfold bind.
  destruct (_send_mail w (MailNamespace args) smtp_server smtp_port sender_email
                       password ssl_context true s1) as [[o s2] tr1].
  unfold outcome_of, events_of in *. cbn [fst snd] in *. subst o. cbn.
  rewrite app_nil_r, count_app, login_passwords_app, Hc0, Hl0, Hc1.
  destruct Hl1 as [-> | [_ Hno]]; [auto | exfalso; exact (Hno _ eq_refl)].
Qed.

(** Rejected [k] times, then accepted: the loop succeeds after [k + 1]
    credential tests and leaves the password of the last one. *)
Lemma loop_accepted (n : nat) :
  forall (k : nat) (s : State) (password0 : option string),
    (k < n)%nat ->
    (forall j, (j < k)%nat -> rejects (smtp_session w (st_sessions s + j))) ->
    accepts (smtp_session w (st_sessions s + k)) ->
    exists password,
      outcome_of (loop n password0 s) = Ret (true, Some password)
      /\ count is_connect (events_of (loop n password0 s)) = S k
      /\ last (login_passwords (events_of (loop n password0 s))) = Some password.
Proof.
  induction n as [|n IH]; intros k s password0 Hk Hrej Hacc; [lia |].
  destruct k as [|k].
  - rewrite Nat.add_0_r in Hacc.
    destruct (loop_accepted_now n s password0 Hacc) as (password & Hout & Hc & Hl).
    exists password. rewrite Hl. auto.
  - destruct (loop_round w args smtp_server smtp_port sender_email ssl_context
                n s password0 LoginError) as (pw & s1 & tr & Hs1 & Hc & ->).
    { intros password s1 Hsess. apply send_mail_test_rejected.
      rewrite Hsess, <- (Nat.add_0_r (st_sessions s)). apply Hrej. lia. }
    destruct (IH k s1 (Some pw)) as (password & Hout & Hcount & Hlast); [lia | |  |].
    + intros j Hj. rewrite Hs1.
      replace (S (st_sessions s) + j)%nat with (st_sessions s + S j)%nat by lia.
      apply Hrej. lia.
    + rewrite Hs1.
      replace (S (st_sessions s) + k)%nat with (st_sessions s + S k)%nat by lia.
      exact Hacc.
    + exists password. unfold outcome_of, events_of in *. cbn [fst snd] in *.
      rewrite count_app, login_passwords_app, last_app, Hc, Hcount, Hlast. auto.
Qed.

End AuthAccepted.

Lemma sent_messages_none (tr : list Event) :
  count is_send tr = 0%nat -> sent_messages tr = [].
Proof.
  unfold count, sent_messages. induction tr as [|e tr IH]; [reflexivity |].
  destruct e; cbn; try exact IH. discriminate.
Qed.

(** The run of [notify] after a successful authentication. *)
Lemma notify_authenticated (w : World) (fuel : nat) (args : NotifyArgs) (s : State)
    (smtp_server smtp_port sender_email : string) (k : nat) :
  conf_reads s smtp_server smtp_port sender_email ->
  (k < 3)%nat ->
  (forall j, (j < k)%nat -> rejects (smtp_session w (st_sessions s + j))) ->
  accepts (smtp_session w (st_sessions s + k)) ->
  exists password s1 tr,
    auth_loop w 3 args smtp_server smtp_port sender_email DefaultContext None s
    = (Ret (true, Some password), s1, tr)
    /\ notify w fuel args s
       = (outcome_of (fork_and_watch w fuel args smtp_server smtp_port sender_email
                                     (Some password) DefaultContext s1),
          state_of (fork_and_watch w fuel args smtp_server smtp_port sender_email
                                   (Some password) DefaultContext s1),
          tr ++ events_of (fork_and_watch w fuel args smtp_server smtp_port sender_email
                                          (Some password) DefaultContext s1))
    /\ count is_connect tr = S k
    /\ sent_messages tr = []
    /\ count is_fork tr = 0%nat
    /\ last (login_passwords tr) = Some password
    /\ st_obs s1 = st_obs s
    /\ st_sessions s1 = (st_sessions s + S k)%nat.
Proof.
  intros Hconf Hk Hrej Hacc.
  destruct (loop_accepted w args smtp_server smtp_port sender_email DefaultContext 3 k s None
              Hk Hrej Hacc) as (password & Hout & Hcount & Hlast).
  pose proof (loop_footprint_holds w args smtp_server smtp_port sender_email DefaultContext
                3 s None) as (_ & _ & _ & Hsend & Hfork & Hobs & _ & _ & Hsess & _).
  destruct (auth_loop w 3 args smtp_server smtp_port sender_email DefaultContext None s)
    as [[o s1] tr] eqn:Hauth.
  unfold outcome_of, state_of, events_of in *. cbn [fst snd] in *. subst o.
  exists password, s1, tr. split; [reflexivity |].
  split.
  { rewrite (notify_run w fuel args s _ _ _ Hconf).
    rewrite (bind_Ret_run _ _ _ _ _ _ Hauth). cbn [fst snd stop_unless negb].
    rewrite (bind_Ret_pure (ret tt) _ s1 tt eq_refl). reflexivity. }
  rewrite Hsess, Hcount. repeat split; auto using sent_messages_none.
Qed.

(** X15: in the parent ([os.fork] returns the pid of the child) [notify]
    returns that pid once a credential test has succeeded.  The fork is the
    last thing it does: it sends no message, and it never looks at the
    process table, so it returns even when the target does not exist. *)
Theorem parent_returns_child_pid (w : World) (fuel : nat) (args : NotifyArgs) (s : State)
    (smtp_server smtp_port sender_email : string) (k : nat) :
  conf_reads s smtp_server smtp_port sender_email ->
  (k < 3)%nat ->
  (forall j, (j < k)%nat -> rejects (smtp_session w (st_sessions s + j))) ->
  accepts (smtp_session w (st_sessions s + k)) ->
  fork_result w <> 0 ->
  let run := notify w fuel args s in
  outcome_of run = Ret (Some (fork_result w))
  /\ count is_connect (events_of run) = S k
  /\ sent_messages (events_of run) = []
  /\ count is_fork (events_of run) = 1%nat
  /\ List.last (events_of run) EvQuit = EvFork
  /\ st_obs (state_of run) = st_obs s.
Proof.
  intros Hconf Hk Hrej Hacc Hparent run. subst run.
  destruct (notify_authenticated w fuel args s _ _ _ k Hconf Hk Hrej Hacc)
    as (password & s1 & tr & _ & -> & Hcount & Hsent & Hfork & _ & Hobs & _).
  assert (Hrun : fork_and_watch w fuel args smtp_server smtp_port sender_email (Some password)
                                DefaultContext s1
                 = (Ret (Some (fork_result w)), s1, [EvFork])).
  { unfold fork_and_watch, bind, emit, ret.
    destruct (Z.eqb_spec (fork_result w) 0) as [H0 | _]; [contradiction | reflexivity]. }
  rewrite Hrun. unfold outcome_of, state_of, events_of. cbn [fst snd].
  rewrite count_app, count_app, sent_messages_app, Hcount, Hsent, Hfork, List.last_last.
  repeat split; [cbn; lia | exact Hobs].
Qed.

Lemma parent_returns_child_pid_witness :
  outcome_of (notify Folder.world 10 (Sample.args 999) Sample.configured) = Ret (Some 7).
Proof.
  refine (proj1 (parent_returns_child_pid Folder.world 10 (Sample.args 999) Sample.configured
                   "smtp.example.org" "587" "me@example.org" 0 _ _ _ _ _)).
  - repeat split.
  - lia.
  - intros j Hj. lia.
  - repeat split.
  - discriminate.
Defined.

(** * The child: from the end of the process to the message *)








Section Child.

Variable w : World.
Variable args : NotifyArgs.
Variables smtp_server smtp_port sender_email password : string.
Variable addresses : list string.
Hypothesis Hto : to args = Some addresses.
Hypothesis Hnone : attachments args = None.

Local Abbreviation body :=
  (fun ended_processes : list Process =>
     for_each ended_processes
       (notify_ended w args smtp_server smtp_port sender_email (Some password) DefaultContext)).






End Child.

(** * The kinds of effects and their order *)

(** What an SMTP session does, what composing a message does, what asking
    for the password does and what watching the process does. *)
Definition is_smtp (e : Event) : bool :=
  match e with
  | EvConnect _ _ | EvEhlo | EvStartTls | EvLogin _ _ | EvSendMessage _ | EvQuit
  | EvLog _ _ => true
  | _ => false
  end.

Definition is_compose (e : Event) : bool :=
  match e with
  | EvLog _ _ | EvReadDestlist | EvGlob _ | EvIsFile _ | EvOpenRead _ => true
  | _ => false
  end.

Definition is_credential (e : Event) : bool :=
  match e with
  | EvGetenv _ | EvGetpass _ => true
  | _ => false
  end.

Definition is_watch (e : Event) : bool :=
  match e with
  | EvProcessLookup _ | EvProcessName _ | EvProcessCmdline _ | EvWaitProcs _ => true
  | _ => false
  end.

Definition authenticating (e : Event) : Prop := is_credential e || is_smtp e = true.
Definition watching (e : Event) : Prop := is_watch e || is_compose e || is_smtp e = true.

Ltac kind := first [reflexivity | exact I].

Section Kinds.

Variable w : World.

Lemma send_mail_kind (mail : MailArg) (smtp_server smtp_port sender_email password : string)
    (ssl_context : SSLContext) (test_login : bool) :
  sat (fun e => is_smtp e = true) (fun _ => True)
      (_send_mail w mail smtp_server smtp_port sender_email password ssl_context test_login).
Proof.
  unfold _send_mail. apply sat_with_SMTP; [reflexivity | reflexivity |]. intros server.
  repeat (apply sat_seq; [first [apply sat_emit | apply sat_step]; kind |]).
  destruct (s_login server) as [err|].
  - destruct (is_SMTPAuthenticationError err);
      [apply sat_seq; [apply sat_emit; kind | apply sat_ret; exact I] |].
    destruct (is_Exception err);
      [apply sat_seq; [apply sat_emit; kind | apply sat_ret; exact I] | apply sat_raise].
  - apply sat_seq; [| apply sat_ret; exact I].
    destruct test_login; cbn; [apply sat_ret; exact I |].
    apply sat_seq; [apply sat_emit; kind |].
    unfold send_message. apply sat_seq; [apply sat_emit; kind |].
    destruct mail; [apply sat_raise |].
    destruct (s_send server); [apply sat_raise | apply sat_ret; exact I].
Qed.

Lemma resolve_password_kind :
  sat (fun e => is_credential e = true) (fun _ => True) (resolve_password w).
Proof.
  unfold resolve_password. apply sat_seq; [apply sat_emit; kind |].
  destruct (environ w "E_NOTIFY_PASS"); [apply sat_ret; exact I |].
  apply sat_seq; [apply sat_emit; kind |].
  apply (sat_bind _ (fun _ => True)); [apply sat_gets; auto |]. intros n _.
  apply sat_seq; [apply sat_modify; exact I | apply sat_ret; exact I].
Qed.

Lemma auth_loop_kind (args : NotifyArgs) (smtp_server smtp_port sender_email : string)
    (ssl_context : SSLContext) (n : nat) :
  forall password,
    sat authenticating (fun _ => True)
        (auth_loop w n args smtp_server smtp_port sender_email ssl_context password).
Proof.
  induction n as [|n IH]; intros password0; cbn [auth_loop]; [apply sat_ret; exact I |].
  apply (sat_bind _ (fun _ => True)).
  { eapply sat_events; [apply resolve_password_kind |].
    intros e He. unfold authenticating. rewrite He. reflexivity. }
  intros password _. apply (sat_bind _ (fun _ => True)).
  { eapply sat_events; [apply send_mail_kind |].
    intros e He. unfold authenticating. rewrite He. apply orb_true_r. }
  intros [| |] _; [apply sat_ret; exact I | apply IH | apply sat_exit].
Qed.

Lemma conf_get_kind (Q : Event -> Prop) (section key : string) :
  sat Q (fun _ => True) (conf_get section key).
Proof. apply conf_get_sat. Qed.

Lemma format_mail_kind (args : NotifyArgs) (sender subject body : string) :
  sat (fun e => is_compose e = true) (fun _ => True) (_format_mail w args sender subject body).
Proof.
  unfold _format_mail. apply sat_seq; [apply sat_emit; kind |].
  apply (sat_bind _ (fun _ => True)).
  { unfold resolve_to. destruct (to args); [apply sat_ret; exact I |].
    destruct (destlist args).
    - apply (sat_bind _ (fun _ => True)); [| intros; apply sat_ret; exact I].
      unfold destlist_read. apply sat_seq; [apply sat_emit; kind |].
      apply (sat_bind _ (fun _ => True)); [apply sat_gets; auto |]. intros consumed _.
      apply sat_seq; [apply sat_modify; exact I | apply sat_ret; exact I].
    - apply (sat_bind _ (fun _ => True)); [apply conf_get_kind |]. intros receiver _.
      apply sat_seq; [apply sat_emit; kind | apply conf_get_kind]. }
  intros to_header _. apply sat_seq; [apply sat_emit; kind |].
  destruct (attachments args) as [patterns|]; [| apply sat_ret; exact I].
  unfold attach_all. apply sat_fold_m; [exact I |]. intros email pattern _.
  apply sat_seq; [apply sat_emit; kind |].
  apply sat_fold_m; [exact I |]. intros email' attach_file _. unfold attach_file_to.
  apply sat_seq; [apply sat_emit; kind |].
  destruct (fs_isfile w attach_file); cbn.
  - apply (sat_bind _ (fun _ => True)).
    { unfold resolve_mime. destruct (guess_type w attach_file) as [ctype encoding].
      apply (sat_bind _ (fun _ => True)).
      - destruct ctype as [guessed|]; [destruct encoding |];
          try (apply sat_ret; exact I);
          (apply sat_seq; [apply sat_emit; kind | apply sat_ret; exact I]).
      - intros c _. destruct (Str.split_once "/" c) as [|m [|t [|x rest]]];
          first [apply sat_raise | apply sat_ret; exact I]. }
    intros [maintype subtype] _.
    apply sat_seq; [apply sat_emit; kind |].
    destruct (fs_read w attach_file) as [e|data]; [apply sat_raise |].
    apply sat_seq; [apply sat_emit; kind | apply sat_ret; exact I].
  - apply sat_seq; [apply sat_emit; kind | apply sat_ret; exact I].
Qed.

Lemma notify_ended_kind (args : NotifyArgs) (smtp_server smtp_port sender_email : string)
    (password : option string) (ssl_context : SSLContext) (ended_proc : Process) :
  sat watching (fun _ => True)
      (notify_ended w args smtp_server smtp_port sender_email password ssl_context ended_proc).
Proof.
  unfold notify_ended. apply (sat_bind _ (fun _ => True)).
  { eapply sat_post; [apply localtime_of_sat | auto]. }
  intros created _. apply (sat_bind _ (fun _ => True)).
  { destruct (_cmdline ended_proc); [apply sat_ret; exact I | apply sat_raise]. }
  intros cmdline _. apply (sat_bind _ (fun _ => True)).
  { eapply sat_events; [apply format_mail_kind |].
    intros e He. unfold watching. rewrite He, orb_true_r. reflexivity. }
  intros email _. apply (sat_bind _ (fun _ => True)).
  { destruct password; [apply sat_ret; exact I | apply sat_raise]. }
  intros p _. apply sat_seq; [| apply sat_ret; exact I].
  eapply sat_events; [apply send_mail_kind |].
  intros e He. unfold watching. rewrite He. apply orb_true_r.
Qed.

Lemma observe_kind (Q : Event -> Prop) : sat Q (fun _ => True) observe.
Proof.
  unfold observe. apply (sat_bind _ (fun _ => True)); [apply sat_gets; auto |].
  intros t _. apply sat_seq; [apply sat_modify; exact I | apply sat_ret; exact I].
Qed.

Lemma poll_kind (alive : list Process) :
  sat (fun e => is_watch e = true) (fun _ => True) (poll w alive).
Proof.
  unfold poll. destruct (negb (length alive =? 0)%nat); [| apply sat_ret; exact I].
  apply (sat_bind _ (fun _ => True)).
  - unfold wait_procs. apply sat_seq; [apply sat_emit; kind |].
    apply (sat_bind _ (fun _ => True)); [apply observe_kind |].
    intros t _. apply sat_ret. exact I.
  - intros [ended alive'] _. apply sat_ret. exact I.
Qed.

Lemma cache_attributes_kind (proc : Process) :
  sat (fun e => is_watch e = true) (fun _ => True) (cache_attributes w proc).
Proof.
  unfold cache_attributes, Process_name, Process_cmdline.
  apply (sat_bind _ (fun _ => True)).
  - apply sat_seq; [apply sat_emit; kind |].
    apply (sat_bind _ (fun _ => True)); [apply observe_kind |].
    intros t _. destruct (proc_table w t (proc_pid proc));
      [apply sat_ret; exact I | apply sat_raise].
  - intros named _. apply (sat_bind _ (fun _ => True)); [| intros; apply sat_ret; exact I].
    apply sat_seq; [apply sat_emit; kind |].
    apply (sat_bind _ (fun _ => True)); [apply observe_kind |].
    intros t _. destruct (proc_table w t (proc_pid (snd named)));
      [apply sat_ret; exact I | apply sat_raise].
Qed.

Lemma map_m_kind {A B} (Q : Event -> Prop) (f : A -> M B) (l : list A) :
  (forall x, sat Q (fun _ => True) (f x)) -> sat Q (fun _ => True) (map_m f l).
Proof.
  intros Hf. induction l as [|x rest IH]; cbn [map_m]; [apply sat_ret; exact I |].
  apply (sat_bind _ (fun _ => True)); [apply Hf |]. intros y _.
  apply (sat_bind _ (fun _ => True)); [apply IH |]. intros ys _. apply sat_ret. exact I.
Qed.

Lemma next_kind (g : Generator) :
  sat (fun e => is_watch e = true) (fun _ => True) (next w g).
Proof.
  destruct g as [args|alive|]; cbn [next]; [| apply poll_kind | apply sat_ret; exact I].
  apply (sat_bind _ (fun _ => True)).
  { unfold psutil_Process. apply sat_seq; [apply sat_emit; kind |].
    apply (sat_bind _ (fun _ => True)); [apply observe_kind |].
    intros t _. destruct (proc_table w t (pid args));
      [apply sat_ret; exact I | apply sat_raise]. }
  intros procs _. apply (sat_bind _ (fun _ => True)).
  { apply map_m_kind. apply cache_attributes_kind. }
  intros alive _. apply poll_kind.
Qed.

Lemma for_generator_kind (args : NotifyArgs) (smtp_server smtp_port sender_email : string)
    (password : option string) (ssl_context : SSLContext) (fuel : nat) :
  forall g,
    sat watching (fun _ => True)
        (for_generator w fuel g
           (fun ended_processes =>
              for_each ended_processes
                (notify_ended w args smtp_server smtp_port sender_email password
                              ssl_context))).
Proof.
  induction fuel as [|fuel IH]; intros g; cbn [for_generator]; [apply sat_out_of_fuel |].
  apply (sat_bind _ (fun _ => True)).
  { eapply sat_events; [apply next_kind |].
    intros e He. unfold watching. rewrite He. reflexivity. }
  intros [[batch|] g'] _; [| apply sat_ret; exact I].
  apply sat_seq; [| apply IH].
  apply sat_for_each. intros proc _. apply notify_ended_kind.
Qed.

(** [fork_and_watch] forks first; what follows is the watch. *)
Lemma fork_and_watch_events (fuel : nat) (args : NotifyArgs)
    (smtp_server smtp_port sender_email : string) (password : option string)
    (ssl_context : SSLContext) (s : State) :
  exists rest,
    events_of (fork_and_watch w fuel args smtp_server smtp_port sender_email password
                              ssl_context s) = EvFork :: rest
    /\ Forall watching rest.
Proof.
  unfold fork_and_watch.
  set (k := if fork_result w =? 0 then _ else _).
  assert (Hk : sat watching (fun _ => True) k).
  { subst k. destruct (fork_result w =? 0); [| apply sat_ret; exact I].
    apply sat_seq; [apply for_generator_kind | apply sat_ret; exact I]. }
  exists (events_of (k s)). split; [| apply (Hk s)].
  unfold bind, emit, events_of. destruct (k s) as [[o s'] tr]. reflexivity.
Qed.

End Kinds.

Lemma count_none (p : Event -> bool) (Q : Event -> Prop) (tr : list Event) :
  (forall e, Q e -> p e = false) -> Forall Q tr -> count p tr = 0%nat.
Proof.
  intros HQ Hall. unfold count. induction Hall as [|e tr He _ IH]; [reflexivity |].
  cbn. rewrite (HQ e He). exact IH.
Qed.

Lemma authenticating_not_fork (e : Event) : authenticating e -> is_fork e = false.
Proof. destruct e; intros H; try reflexivity; discriminate H. Qed.

Lemma authenticating_not_watch (e : Event) : authenticating e -> is_watch e = false.
Proof. destruct e; intros H; try reflexivity; discriminate H. Qed.

Lemma watching_not_fork (e : Event) : watching e -> is_fork e = false.
Proof. destruct e; intros H; try reflexivity; discriminate H. Qed.

Lemma watching_not_credential (e : Event) : watching e -> is_credential e = false.
Proof. destruct e; intros H; try reflexivity; discriminate H. Qed.

(** The place of an event that occurs once. *)
Lemma split_at_only (p : Event -> bool) (x : Event) (l1 r1 l2 r2 : list Event) :
  p x = true -> count p l1 = 0%nat -> count p r1 = 0%nat ->
  l1 ++ x :: r1 = l2 ++ x :: r2 -> l2 = l1 /\ r2 = r1.
Proof.
  intros Hx Hl1 Hr1. revert l2. induction l1 as [|a l1 IH]; intros l2 Heq.
  - destruct l2 as [|b l2]; cbn in Heq.
    + injection Heq as <-. auto.
    + injection Heq as <- ->. rewrite count_app in Hr1. unfold count in Hr1.
      cbn in Hr1. rewrite Hx in Hr1. cbn in Hr1. lia.
  - unfold count in Hl1. cbn in Hl1. destruct (p a) eqn:Ha; [discriminate |].
    destruct l2 as [|b l2]; cbn in Heq.
    + injection Heq as -> _. congruence.
    + injection Heq as <- Heq. destruct (IH Hl1 l2 Heq) as [-> ->]. auto.
Qed.

(** A successful loop leaves a password. *)
Lemma auth_loop_success_has_password (w : World) (args : NotifyArgs)
    (smtp_server smtp_port sender_email : string) (ssl_context : SSLContext) (n : nat) :
  forall (password0 password : option string) (s s' : State) (tr : list Event),
    auth_loop w n args smtp_server smtp_port sender_email ssl_context password0 s
    = (Ret (true, password), s', tr) ->
    exists p, password = Some p.
Proof.
  induction n as [|n IH]; intros password0 password s s' tr Hrun; [discriminate |].
  cbn [auth_loop] in Hrun.
  apply bind_Ret_inv in Hrun as (pw & s1 & tr1 & tr2 & _ & Hrun & _).
  apply bind_Ret_inv in Hrun as (rv & s2 & tr3 & tr4 & _ & Hrun & _).
  destruct rv; [injection Hrun as <- _ _; eauto | eapply IH; exact Hrun | discriminate].
Qed.

(** X16: [notify] creates at most one process, and only after a test of
    the credentials has succeeded: what comes before the fork is exactly
    the authentication loop, which sends no message and does not look at
    the process table; after the fork no password is asked for any more. *)
Theorem notify_forks_once_after_authentication (w : World) (fuel : nat) (args : NotifyArgs)
    (s : State) :
  let run := notify w fuel args s in
  (count is_fork (events_of run) <= 1)%nat
  /\ forall pre post,
       events_of run = pre ++ EvFork :: post ->
       (exists smtp_server smtp_port sender_email password s1,
           conf_reads s smtp_server smtp_port sender_email
           /\ auth_loop w 3 args smtp_server smtp_port sender_email DefaultContext None s
              = (Ret (true, Some password), s1, pre))
       /\ sent_messages pre = []
       /\ count is_watch pre = 0%nat
       /\ count is_credential post = 0%nat.
Proof.
  intros run. subst run.
  assert (Hquiet : forall o, notify w fuel args s = (o, s, []) ->
            (count is_fork (events_of (notify w fuel args s)) <= 1)%nat
            /\ forall pre post,
                 events_of (notify w fuel args s) = pre ++ EvFork :: post ->
                 (exists smtp_server smtp_port sender_email password s1,
                     conf_reads s smtp_server smtp_port sender_email
                     /\ auth_loop w 3 args smtp_server smtp_port sender_email DefaultContext
                                  None s = (Ret (true, Some password), s1, pre))
                 /\ sent_messages pre = []
                 /\ count is_watch pre = 0%nat
                 /\ count is_credential post = 0%nat).
  { intros o ->. split; [cbn; lia |]. intros [|x pre] post Heq; discriminate Heq. }
  destruct (conf_get_cases "SMTP.servers" "server" s) as [[smtp_server H1] | (e & H1 & _)];
    [| apply (Hquiet (Raise e)); unfold notify, bind; rewrite H1; reflexivity].
  destruct (conf_get_cases "SMTP.port" "port" s) as [[smtp_port H2] | (e & H2 & _)];
    [| apply (Hquiet (Raise e)); unfold notify; rewrite (bind_Ret_pure _ _ _ _ H1);
       unfold bind; rewrite H2; reflexivity].
  destruct (conf_get_cases "SMTP.login" "sender" s) as [[sender_email H3] | (e & H3 & _)];
    [| apply (Hquiet (Raise e)); unfold notify; rewrite (bind_Ret_pure _ _ _ _ H1),
         (bind_Ret_pure _ _ _ _ H2); unfold bind; rewrite H3; reflexivity].
  clear Hquiet.
  assert (Hconf : conf_reads s smtp_server smtp_port sender_email) by (repeat split; assumption).
  rewrite (notify_run w fuel args s _ _ _ Hconf).
  pose proof (auth_loop_kind w args smtp_server smtp_port sender_email DefaultContext 3 None s)
    as [Hauth _].
  pose proof (loop_footprint_holds w args smtp_server smtp_port sender_email DefaultContext
                3 s None) as (_ & _ & _ & Hsend & _).
  destruct (auth_loop w 3 args smtp_server smtp_port sender_email DefaultContext None s)
    as [[o s1] tr] eqn:Hloop.
  unfold events_of in Hauth, Hsend. cbn [fst snd] in Hauth, Hsend.
  pose proof (count_none is_fork _ tr authenticating_not_fork Hauth) as Hnofork.
  assert (Hstop : forall tr', count is_fork tr' = 0%nat ->
            (count is_fork (tr ++ tr') <= 1)%nat
            /\ forall pre post, tr ++ tr' = pre ++ EvFork :: post -> False).
  { intros tr' Hno. split; [rewrite count_app, Hnofork, Hno; lia |].
    intros pre post Heq.
    assert (Hc : count is_fork (tr ++ tr') = count is_fork (pre ++ EvFork :: post))
      by (rewrite Heq; reflexivity).
    rewrite !count_app, Hnofork, Hno in Hc. unfold count in Hc. cbn in Hc. lia. }
  set (k := fun auth : bool * option string =>
              stop_unless (fst auth) ;;;
              fork_and_watch w fuel args smtp_server smtp_port sender_email (snd auth)
                             DefaultContext).
  assert (Hother : (forall a, o <> Ret a) ->
            (count is_fork (events_of (bind (auth_loop w 3 args smtp_server smtp_port
                                                sender_email DefaultContext None) k s)) <= 1)%nat
            /\ forall pre post,
                 events_of (bind (auth_loop w 3 args smtp_server smtp_port sender_email
                                            DefaultContext None) k s) = pre ++ EvFork :: post ->
                 False).
  { intros Hno.
    destruct (bind_not_Ret_run (auth_loop w 3 args smtp_server smtp_port sender_email
                                          DefaultContext None) k s) as (_ & _ & He);
      [rewrite Hloop; exact Hno |].
    rewrite He, Hloop. unfold events_of. cbn [snd].
    destruct (Hstop [] eq_refl) as [Hle Hnone]. rewrite app_nil_r in Hle, Hnone. auto. }
  destruct o as [[[|] password]|e|c|];
    try (destruct Hother as [Hle Hnone]; [discriminate |];
         split; [exact Hle | intros pre post Heq; destruct (Hnone pre post Heq)]).
  - (* the credentials were accepted *)
    clear Hother.
    destruct (auth_loop_success_has_password _ _ _ _ _ _ _ _ _ _ _ _ Hloop) as [p ->].
    rewrite (bind_Ret_run _ _ _ _ _ _ Hloop). subst k.
    cbn [fst snd stop_unless negb].
    rewrite (bind_Ret_pure (ret tt) _ s1 tt eq_refl).
    destruct (fork_and_watch_events w fuel args smtp_server smtp_port sender_email (Some p)
                DefaultContext s1) as (rest & Hev & Hrest).
    unfold events_of at 1 3. cbn [snd]. rewrite Hev.
    pose proof (count_none is_fork _ rest watching_not_fork Hrest) as Hnofork'.
    split.
    + rewrite count_app, Hnofork. unfold count in *. cbn. rewrite Hnofork'. lia.
    + intros pre post Heq.
      destruct (split_at_only is_fork EvFork tr rest pre post eq_refl Hnofork Hnofork' Heq)
        as [-> ->].
      split; [exists smtp_server, smtp_port, sender_email, p, s1; auto |].
      split; [apply sent_messages_none; exact Hsend |].
      split; [exact (count_none is_watch _ tr authenticating_not_watch Hauth) |].
      exact (count_none is_credential _ rest watching_not_credential Hrest).
  - (* three rejections *)
    clear Hother. rewrite (bind_Ret_run _ _ _ _ _ _ Hloop). subst k.
    unfold events_of at 1 3. cbn [snd].
    change (events_of ((stop_unless (false, password).1;;;
                        fork_and_watch w fuel args smtp_server smtp_port sender_email
                          (false, password).2 DefaultContext) s1)) with gave_up.
    destruct (Hstop gave_up eq_refl) as [Hle Hno].
    split; [exact Hle |]. intros pre post Heq. destruct (Hno pre post Heq).
Qed.

(** * One run of the child, from the credentials to the message *)





(** * The script as a whole *)

Lemma config_target_events (args : ConfigArgs) (s : State) :
  events_of (config_target args s) = []
  \/ events_of (config_target args s) = [EvWriteConf (st_conf s)].
Proof.
  unfold config_target. rewrite (bind_Ret_pure _ _ _ _ eq_refl).
  pose proof (edit_sections_run args (map fst (st_conf s)) s
                (fun key Hkey => elem_assoc_Some key (st_conf s) Hkey))
    as (Hev & _ & Hcases).
  unfold bind, events_of, outcome_of, state_of in *.
  destruct (for_each (map fst (st_conf s)) (edit_section args) s) as [[o s1] tr1].
  cbn [fst snd] in *. subst tr1.
  destruct Hcases as [(-> & -> & _) | [[msg ->] | [_ [msg ->]]]]; cbn; auto.
Qed.

Lemma notify_target_events (w : World) (args : NotifyArgs) (s : State) :
  events_of (notify_target w args s) = [EvKill (pid args) 0].
Proof.
  unfold notify_target, call_notify_module, try_except, os_kill, observe,
    bind, modify, gets, emit, raise, events_of.
  cbn. destruct (proc_table w (st_obs s) (pid args)) as [info|]; cbn; [| reflexivity].
  destruct (p_may_signal info); reflexivity.
Qed.

(** X18: the script as it is written never notifies.  Whatever the command
    line, a run makes at most one observable action (the probe of the pid,
    the writing of conf.ini or the help); it asks for no password, opens
    no SMTP connection, creates no process, watches nothing and sends no
    message. *)
Theorem main_never_reaches_the_notifier (w : World) (parsed : Parsed) (s : State) :
  let run := main w parsed s in
  (length (events_of run) <= 1)%nat
  /\ count is_credential (events_of run) = 0%nat
  /\ count is_connect (events_of run) = 0%nat
  /\ count is_fork (events_of run) = 0%nat
  /\ count is_watch (events_of run) = 0%nat
  /\ sent_messages (events_of run) = [].
Proof.
  intros run. subst run. unfold main.
  rewrite (bind_Ret_silent _ _ s (with_conf (st_conf_ini s) s) tt eq_refl).
  destruct parsed as [args|args|].
  - destruct (config_target_events args (with_conf (st_conf_ini s) s)) as [-> | ->];
      repeat split; cbn; first [lia | reflexivity].
  - rewrite notify_target_events. repeat split; cbn; first [lia | reflexivity].
  - repeat split; cbn; first [lia | reflexivity].
Qed.

(** X19: [config] with a value for an option of conf.ini never writes the
    file.  For a namespace that holds a value for one of the options, the
    run ends before [conf.write], without any observable action, and
    conf.ini holds what it held.  It ends with [AttributeError] (the
    namespace has no logger) when the parser takes every value given; a
    value it refuses can end it with [ValueError] instead. *)
Theorem config_flag_fails_before_writing (w : World) (args : ConfigArgs) (s : State)
    (conf_key name value : string) (options : Options) :
  assoc conf_key (st_conf_ini s) = Some options ->
  name ∈ map fst options ->
  args !! name = Some (Some value) ->
  let run := main w (ParsedConfig args) s in
  (exists e, outcome_of run = Raise e
             /\ (exn_class e = AttributeError \/ exn_class e = ValueError))
  /\ ((forall n v, args !! n = Some (Some v) -> valid_interpolation v = true) ->
      exists msg, outcome_of run = Raise (mkExn AttributeError msg))
  /\ events_of run = []
  /\ st_conf_ini (state_of run) = st_conf_ini s.
Proof.
  intros Hsection Hname Hflag run. subst run. unfold main.
  rewrite (bind_Ret_silent _ _ s (with_conf (st_conf_ini s) s) tt eq_refl).
  destruct (config_target_with_flag_raises args (with_conf (st_conf_ini s) s) conf_key name
              value options Hsection Hname Hflag) as (Hout & Hev & Hini).
  split; [| split; [| split; [exact Hev | exact Hini]]].
  - destruct Hout as [[msg ->] | [_ [msg ->]]]; eexists; (split; [reflexivity |]); cbn; auto.
  - intros Hvalid. destruct Hout as [Hattr | [(n & v & Hn & Hv) _]]; [exact Hattr |].
    rewrite (Hvalid n v Hn) in Hv. discriminate.
Qed.

Lemma config_flag_fails_before_writing_witness :
  events_of (main (Sample.world 0 (fun _ => Sample.accepting) None)
                  (ParsedConfig (config_namespace Sample.conf
                                   [("port", "465"); ("sender", "me@example.net")]))
                  (initial_state Sample.conf)) = [].
Proof.
  refine (proj1 (proj2 (proj2 (config_flag_fails_before_writing
                          (Sample.world 0 (fun _ => Sample.accepting) None)
                          (config_namespace Sample.conf
                             [("port", "465"); ("sender", "me@example.net")])
                          (initial_state Sample.conf)
                          "SMTP.login" "sender" "me@example.net"
                          [("sender", "me@example.org")] eq_refl _ _)))).
  - apply list_elem_of_In. left. reflexivity.
  - vm_compute. reflexivity.
Defined.

(** * The default recipient *)

(** [conf["defaults"]["receiver"]], when [conf] is bound and has it. *)
Definition configured_receiver (s : State) : option string :=
  match st_notify_conf s with
  | Some c =>
      match assoc "defaults" c with
      | Some options => assoc "receiver" options
      | None => None
      end
  | None => None
  end.

Lemma resolve_to_without_default (args : NotifyArgs) (s : State) :
  to args = None -> destlist args = None -> configured_receiver s = None ->
  exists e, resolve_to args s = (Raise e, s, [])
            /\ (exn_class e = NameError \/ exn_class e = KeyError).
Proof.
  intros Hto Hfile. unfold configured_receiver, resolve_to, conf_get, bind, gets, raise.
  rewrite Hto, Hfile. cbn.
  destruct (st_notify_conf s) as [c|]; cbn; [| eauto].
  destruct (assoc "defaults" c) as [options|]; cbn; [| eauto].
  destruct (assoc "receiver" options); cbn; [discriminate | eauto].
Qed.

Lemma resolve_to_with_default (args : NotifyArgs) (s : State) (receiver : string) :
  to args = None -> destlist args = None -> configured_receiver s = Some receiver ->
  resolve_to args s
  = (Ret receiver, s,
     [EvLog INFO ("E-mail header 'To' wasn't fed to cmd, defaulting to " +:+ receiver)]).
Proof.
  intros Hto Hfile. unfold configured_receiver.
  destruct (st_notify_conf s) as [c|] eqn:Hc; [| discriminate].
  destruct (assoc "defaults" c) as [options|] eqn:Hs; [| discriminate].
  intros Ho. exact (resolve_to_default args c options receiver s Hto Hfile Hc Hs Ho).
Qed.

(** X20: with neither [--to] nor [--destlist] the message goes to the
    receiver of the [defaults] section, and this is logged.  When the
    configuration has no such receiver, [_format_mail] raises [NameError]
    or [KeyError] right after its first log entry: no pattern is expanded
    and no file is opened. *)
Theorem default_recipient_is_required (w : World) (args : NotifyArgs)
    (sender subject body : string) (s : State) :
  to args = None -> destlist args = None ->
  let run := _format_mail w args sender subject body s in
  (forall email, outcome_of run = Ret email ->
     exists receiver,
       configured_receiver s = Some receiver /\ em_to email = Some receiver
       /\ EvLog INFO ("E-mail header 'To' wasn't fed to cmd, defaulting to " +:+ receiver)
          ∈ events_of run)
  /\ (configured_receiver s = None ->
      exists e, run = (Raise e, s, [EvLog DEBUG ("Changed the email header 'From' to " +:+ sender)])
                /\ (exn_class e = NameError \/ exn_class e = KeyError)).
Proof.
  intros Hto Hfile run. subst run.
  assert (Hmissing : configured_receiver s = None ->
            exists e, _format_mail w args sender subject body s
                      = (Raise e, s,
                         [EvLog DEBUG ("Changed the email header 'From' to " +:+ sender)])
                      /\ (exn_class e = NameError \/ exn_class e = KeyError)).
  { intros Hnone.
    destruct (resolve_to_without_default args s Hto Hfile Hnone) as (e & Hres & He).
    exists e. split; [| exact He].
    unfold _format_mail, log. rewrite (bind_Ret_run _ _ _ _ _ _ eq_refl).
    unfold bind, outcome_of, state_of, events_of. rewrite Hres. reflexivity. }
  split; [| exact Hmissing].
  intros email Hrun.
  destruct (configured_receiver s) as [receiver|] eqn:Hdefault.
  2:{ destruct (Hmissing eq_refl) as (e & Hfail & _). rewrite Hfail in Hrun. discriminate. }
  exists receiver. split; [reflexivity |].
  pose proof (resolve_to_with_default args s receiver Hto Hfile Hdefault) as Hres.
  destruct (format_mail_result w args sender subject body s email Hrun)
    as (_ & _ & _ & (to_header & Hheader & Hemail) & _).
  rewrite Hres in Hheader. injection Hheader as <-. split; [exact Hemail |].
  unfold _format_mail, log. rewrite (bind_Ret_run _ _ _ _ _ _ eq_refl).
  unfold events_of at 1. cbn [snd].
  rewrite (bind_Ret_run _ _ _ _ _ _ Hres). unfold events_of at 1. cbn [snd].
  apply elem_of_app. right. apply elem_of_app. left. apply list_elem_of_In. left. reflexivity.
Qed.

Lemma default_recipient_is_required_witness :
  exists e, _format_mail (Sample.world 5 (fun _ => Sample.accepting) None) (Sample.args 42)
                         "me@example.org" "subject" "body" (initial_state Sample.conf)
            = (Raise e, initial_state Sample.conf,
               [EvLog DEBUG "Changed the email header 'From' to me@example.org"])
            /\ (exn_class e = NameError \/ exn_class e = KeyError).
Proof.
  exact (proj2 (default_recipient_is_required
                  (Sample.world 5 (fun _ => Sample.accepting) None) (Sample.args 42)
                  "me@example.org" "subject" "body" (initial_state Sample.conf)
                  eq_refl eq_refl) eq_refl).
Defined.

(** * A target that ends during the authentication *)

Lemma next_created_missing (w : World) (args : NotifyArgs) (s : State) :
  proc_table w (st_obs s) (pid args) = None
  \/ proc_table w (S (st_obs s)) (pid args) = None
  \/ proc_table w (S (S (st_obs s))) (pid args) = None ->
  exists msg tr,
    outcome_of (next w (GenCreated args) s) = Raise (mkExn NoSuchProcess msg)
    /\ events_of (next w (GenCreated args) s) = tr
    /\ Forall (fun e => is_watch e = true) tr
    /\ count is_wait tr = 0%nat.
Proof.
  intros Hmissing.
  pose proof (next_kind w (GenCreated args) s) as [Hkind _].
  revert Hkind.
  unfold next, psutil_Process, cache_attributes, Process_name, Process_cmdline, observe.
  unfold bind, emit, gets, modify, ret, raise, outcome_of, events_of. cbn.
  destruct (proc_table w (st_obs s) (pid args)) as [i0|] eqn:H0; cbn;
    [| intros Hkind; eexists _, _; (split; [reflexivity |]); (split; [reflexivity |]);
       split; [exact Hkind | reflexivity]].
  unfold bind. cbn.
  destruct (proc_table w (S (st_obs s)) (pid args)) as [i1|] eqn:H1; cbn;
    [| intros Hkind; eexists _, _; (split; [reflexivity |]); (split; [reflexivity |]);
       split; [exact Hkind | reflexivity]].
  destruct (proc_table w (S (S (st_obs s))) (pid args)) as [i2|] eqn:H2; cbn;
    [| intros Hkind; eexists _, _; (split; [reflexivity |]); (split; [reflexivity |]);
       split; [exact Hkind | reflexivity]].
  destruct Hmissing as [H | [H | H]]; discriminate.
Qed.

Lemma watching_not_send_of_watch (tr : list Event) :
  Forall (fun e => is_watch e = true) tr -> sent_messages tr = [] /\ count is_fork tr = 0%nat.
Proof.
  intros Hall. induction Hall as [|e tr He _ [IHs IHf]]; [split; reflexivity |].
  destruct e; try discriminate He; split; assumption.
Qed.

(** X21: a target that ends while the credentials are tested is never
    notified.  When the process is missing at one of the three looks the
    child starts with, the child stops with [NoSuchProcess] right after
    the fork: it makes no poll and sends no message. *)
Theorem target_gone_before_watch_is_not_notified (w : World) (fuel : nat) (args : NotifyArgs)
    (s : State) (smtp_server smtp_port sender_email : string) (rejected : nat) :
  conf_reads s smtp_server smtp_port sender_email ->
  (rejected < 3)%nat ->
  (forall j, (j < rejected)%nat -> rejects (smtp_session w (st_sessions s + j))) ->
  accepts (smtp_session w (st_sessions s + rejected)) ->
  fork_result w = 0 ->
  (0 < fuel)%nat ->
  proc_table w (st_obs s) (pid args) = None
  \/ proc_table w (S (st_obs s)) (pid args) = None
  \/ proc_table w (S (S (st_obs s))) (pid args) = None ->
  let run := notify w fuel args s in
  (exists msg, outcome_of run = Raise (mkExn NoSuchProcess msg))
  /\ count is_fork (events_of run) = 1%nat
  /\ count is_wait (events_of run) = 0%nat
  /\ sent_messages (events_of run) = [].
Proof.
  intros Hconf Hrejected Hrej Hacc Hchild Hfuel Hmissing run. subst run.
  destruct (notify_authenticated w fuel args s _ _ _ rejected Hconf Hrejected Hrej Hacc)
    as (password & s1 & tr & Hloop & -> & _ & Hsent & Hfork & _ & Hobs & _).
  pose proof (auth_loop_kind w args smtp_server smtp_port sender_email DefaultContext 3 None s)
    as [Hauth _].
  rewrite Hloop in Hauth. unfold events_of in Hauth. cbn [snd] in Hauth.
  assert (Hnowait : count is_wait tr = 0%nat).
  { apply (count_none is_wait authenticating); [| exact Hauth].
    intros e He. destruct e; try reflexivity; discriminate He. }
  rewrite <- Hobs in Hmissing.
  destruct (next_created_missing w args s1 Hmissing) as (msg & trw & Hout & Hev & Hkind & Hwait).
  destruct (watching_not_send_of_watch trw Hkind) as [Hnosend Hnofork].
  destruct fuel as [|fuel]; [lia |].
  set (body := fun ended_processes : list Process =>
                 for_each ended_processes
                   (notify_ended w args smtp_server smtp_port sender_email (Some password)
                                 DefaultContext)).
  assert (Hgen : outcome_of (for_generator w (S fuel) (_wait_process args) body s1)
                 = Raise (mkExn NoSuchProcess msg)
                 /\ events_of (for_generator w (S fuel) (_wait_process args) body s1) = trw).
  { unfold _wait_process. cbn [for_generator].
    match goal with
    | |- context [bind ?m ?k s1] =>
        destruct (bind_not_Ret_run m k s1) as (Ho & _ & He); [rewrite Hout; discriminate |]
    end.
    rewrite Ho, He, Hout, Hev. split; reflexivity. }
  destruct Hgen as [Hgo Hge].
  assert (Hwatch : outcome_of (fork_and_watch w (S fuel) args smtp_server smtp_port sender_email
                                              (Some password) DefaultContext s1)
                   = Raise (mkExn NoSuchProcess msg)
                   /\ events_of (fork_and_watch w (S fuel) args smtp_server smtp_port
                                                sender_email (Some password) DefaultContext s1)
                      = [EvFork] ++ trw).
  { unfold fork_and_watch. rewrite Hchild. cbn [Z.eqb]. fold body.
    apply (bind_Ret_then (emit EvFork) _ s1 s1 tt [EvFork] _ _ eq_refl).
    - destruct (bind_not_Ret_run (for_generator w (S fuel) (_wait_process args) body)
                  (fun _ => ret (@None Z)) s1) as (Ho & _ & _); [rewrite Hgo; discriminate |].
      rewrite Ho, Hgo. reflexivity.
    - destruct (bind_not_Ret_run (for_generator w (S fuel) (_wait_process args) body)
                  (fun _ => ret (@None Z)) s1) as (_ & _ & He); [rewrite Hgo; discriminate |].
      rewrite He, Hge. reflexivity. }
  destruct Hwatch as [Hwo Hwe].
  rewrite Hwo, Hwe. unfold outcome_of, events_of. cbn [fst snd].
  rewrite !count_app, !sent_messages_app, Hsent, Hfork, Hnowait, Hnosend, Hnofork, Hwait.
  repeat split. eauto.
Qed.

Lemma target_gone_before_watch_is_not_notified_witness :
  sent_messages (events_of (notify (Sample.world 2 (fun _ => Sample.accepting) None) 10
                                   (Sample.args 42) Sample.configured)) = [].
Proof.
  refine (proj2 (proj2 (proj2 (target_gone_before_watch_is_not_notified
                   (Sample.world 2 (fun _ => Sample.accepting) None) 10 (Sample.args 42)
                   Sample.configured "smtp.example.org" "587" "me@example.org" 0
                   _ _ _ _ eq_refl _ _)))).
  - repeat split.
  - lia.
  - intros j Hj. lia.
  - repeat split.
  - lia.
  - right. right. reflexivity.
Defined.

(** * Sessions of the sample server *)

Lemma send_mail_transmits_only_after_login_witness :
  sent_messages
    (events_of (_send_mail (Sample.world 5 (fun _ => Sample.accepting) None)
                           (MailMessage sample_notification) "smtp.example.org" "587"
                           "me@example.org" "secret" DefaultContext false Sample.configured))
  = []
  \/ sent_messages
       (events_of (_send_mail (Sample.world 5 (fun _ => Sample.accepting) None)
                              (MailMessage sample_notification) "smtp.example.org" "587"
                              "me@example.org" "secret" DefaultContext false
                              Sample.configured))
     = [MailMessage sample_notification].
Proof.
  exact (proj1 (send_mail_transmits_only_after_login
                  (Sample.world 5 (fun _ => Sample.accepting) None)
                  (MailMessage sample_notification) "smtp.example.org" "587"
                  "me@example.org" "secret" DefaultContext false Sample.configured)).
Defined.

Lemma send_mail_always_quits_witness :
  List.last (events_of (_send_mail (Sample.world 5 (fun _ => Sample.rejecting) None)
                                   (MailNamespace (Sample.args 42)) "smtp.example.org" "587"
                                   "me@example.org" "secret" DefaultContext true
                                   Sample.configured)) EvFork = EvQuit
  /\ count is_quit (events_of (_send_mail (Sample.world 5 (fun _ => Sample.rejecting) None)
                                          (MailNamespace (Sample.args 42)) "smtp.example.org"
                                          "587" "me@example.org" "secret" DefaultContext true
                                          Sample.configured)) = 1%nat.
Proof.
  exact (proj1 (send_mail_always_quits
                  (Sample.world 5 (fun _ => Sample.rejecting) None)
                  (MailNamespace (Sample.args 42)) "smtp.example.org" "587"
                  "me@example.org" "secret" DefaultContext true Sample.configured) eq_refl).
Defined.

Lemma send_mail_logs_login_failures_witness :
  count is_error_log
    (events_of (_send_mail (Sample.world 5 (fun _ => Sample.rejecting) None)
                           (MailNamespace (Sample.args 42)) "smtp.example.org" "587"
                           "me@example.org" "secret" DefaultContext true Sample.configured))
  = 1%nat.
Proof.
  exact (proj1 (send_mail_logs_login_failures
                  (Sample.world 5 (fun _ => Sample.rejecting) None)
                  (MailNamespace (Sample.args 42)) "smtp.example.org" "587"
                  "me@example.org" "secret" DefaultContext true Sample.configured) eq_refl).
Defined.

(** * The recipients of the message *)

Definition nonempty (a : string) : bool := negb (String.eqb a "").

Lemma onto_first_empty (pieces : list string) : onto_first "" pieces = pieces.
Proof. destruct pieces; reflexivity. Qed.

(** The lines of a file and the pieces [split] gives differ by empty
    entries only. *)
Lemma lines_from_nonempty (s cur : string) :
  List.filter nonempty (Spec.lines_from cur s)
  = List.filter nonempty (onto_first cur (Str.split Str.nl s)).
Proof.
  revert cur. induction s as [|a rest IH]; intros cur.
  - cbn. rewrite append_empty_r. unfold nonempty.
    destruct (decide (cur = "")) as [->|Hne]; [reflexivity |].
    cbn. destruct (String.eqb_spec cur ""); [contradiction | reflexivity].
  - cbn [Str.split Spec.lines_from].
    pose proof (split_not_nil Str.nl rest) as Hne.
    destruct (Ascii.eqb a Str.nl).
    + cbn [onto_first]. rewrite append_empty_r. cbn [List.filter].
      rewrite IH, onto_first_empty. reflexivity.
    + rewrite IH. destruct (Str.split Str.nl rest) as [|p ps]; [contradiction |].
      cbn [onto_first]. rewrite append_snoc. reflexivity.
Qed.

Lemma filter_nonempty_all (l : list string) :
  Forall (fun a => a <> "") l -> List.filter nonempty l = l.
Proof.
  induction 1 as [|a l Ha _ IH]; [reflexivity |].
  cbn. unfold nonempty at 1. destruct (String.eqb_spec a ""); [contradiction |].
  cbn. rewrite IH. reflexivity.
Qed.

Lemma split_nonempty_lines (content : string) :
  Forall (fun a => a <> "") (Spec.file_lines content) ->
  List.filter nonempty (Str.split Str.nl content) = Spec.file_lines content.
Proof.
  intros Hlines. transitivity (List.filter nonempty (Spec.file_lines content)).
  - unfold Spec.file_lines. rewrite lines_from_nonempty, onto_first_empty. reflexivity.
  - apply filter_nonempty_all. exact Hlines.
Qed.

Section Recipients.

Variable w : World.

(** What the library takes as one address, such as [alice@example.org]:
    the help texts of [--to] and [--destlist] ask for valid addresses. *)
Variable address : string -> Prop.

Hypothesis address_not_empty : forall a, address a -> a <> "".

(** The library reads a list of addresses, some entries of which may be
    empty, back as the addresses: an empty entry is no recipient. *)
Hypothesis address_list_of_join :
  forall items,
    Forall (fun a => a = "" \/ address a) items ->
    address_list w (Str.join ", " items) = List.filter nonempty items.

Lemma recipients_of_addresses (items : list string) :
  Forall address items -> address_list w (Str.join ", " items) = items.
Proof.
  intros Hall. rewrite address_list_of_join.
  - apply filter_nonempty_all. eapply Forall_impl; [exact Hall | exact address_not_empty].
  - eapply Forall_impl; [exact Hall | auto].
Qed.

Lemma recipients_of_lines (content : string) :
  Forall address (Spec.file_lines content) ->
  address_list w (Str.join ", " (Str.split Str.nl content)) = Spec.file_lines content.
Proof.
  intros Hall.
  assert (Hne : Forall (fun a => a <> "") (Spec.file_lines content))
    by (eapply Forall_impl; [exact Hall | exact address_not_empty]).
  pose proof (split_nonempty_lines content Hne) as Hsplit.
  rewrite address_list_of_join; [exact Hsplit |].
  rewrite Forall_forall. intros a Ha.
  destruct (String.eqb_spec a "") as [-> | Hnot]; [left; reflexivity | right].
  assert (Hin : a ∈ Spec.file_lines content).
  { rewrite <- Hsplit. apply list_elem_of_In. apply List.filter_In.
    split; [apply list_elem_of_In; exact Ha |].
    unfold nonempty. destruct (String.eqb_spec a ""); [contradiction | reflexivity]. }
  rewrite Forall_forall in Hall. apply Hall. exact Hin.
Qed.

(** C7: the recipients of every message [_format_mail] returns, that is
    the entries of the address list of its [To] header, follow the order
    of lines 41-50.  With an explicit list of addresses they are that
    list, in order; otherwise, with a recipient-list file that holds one
    address per line, they are the lines of the file, in order, whether
    the last line is ended by a newline or not; otherwise the one
    recipient is the receiver of the [defaults] section, and the fallback
    is logged at level INFO. *)
Theorem recipients_follow_resolution_order (args : NotifyArgs)
    (sender subject body : string) (s : State) (email : Email) :
  outcome_of (_format_mail w args sender subject body s) = Ret email ->
  (forall addresses,
      to args = Some addresses -> Forall address addresses ->
      recipients w email = addresses)
  /\ (forall content,
        to args = None -> destlist args = Some content -> st_destlist_read s = false ->
        Forall address (Spec.file_lines content) ->
        recipients w email = Spec.file_lines content)
  /\ (to args = None -> destlist args = None ->
      exists receiver,
        configured_receiver s = Some receiver
        /\ EvLog INFO ("E-mail header 'To' wasn't fed to cmd, defaulting to " +:+ receiver)
           ∈ events_of (_format_mail w args sender subject body s)
        /\ (address receiver -> recipients w email = [receiver])).
Proof.
  intros Hrun.
  destruct (format_mail_result w args sender subject body s email Hrun)
    as (_ & _ & _ & (to_header & Hheader & Hemail) & _).
  unfold recipients. rewrite Hemail.
  split; [| split].
  - intros addresses Hto Hall.
    rewrite (resolve_to_explicit args addresses s Hto) in Hheader. injection Hheader as <-.
    apply recipients_of_addresses. exact Hall.
  - intros content Hto Hfile Hfresh Hall.
    rewrite (resolve_to_destlist args content s Hto Hfile Hfresh) in Hheader.
    injection Hheader as <-. apply recipients_of_lines. exact Hall.
  - intros Hto Hfile.
    destruct (configured_receiver s) as [receiver|] eqn:Hdefault.
    2:{ destruct (resolve_to_without_default args s Hto Hfile Hdefault) as (e & Hres & _).
        rewrite Hres in Hheader. discriminate. }
    pose proof (resolve_to_with_default args s receiver Hto Hfile Hdefault) as Hres.
    rewrite Hres in Hheader. injection Hheader as <-.
    exists receiver. split; [reflexivity |]. split.
    + unfold _format_mail, log. rewrite (bind_Ret_run _ _ _ _ _ _ eq_refl).
      unfold events_of at 1. cbn [snd].
      rewrite (bind_Ret_run _ _ _ _ _ _ Hres). unfold events_of at 1. cbn [snd].
      apply elem_of_app. right. apply elem_of_app. left.
      apply list_elem_of_In. left. reflexivity.
    + intros Haddr.
      exact (recipients_of_addresses [receiver] (Forall_cons_2 _ _ _ Haddr (Forall_nil_2 _))).
Qed.

End Recipients.

(** ** The sample reader of address lists *)

(** A piece that is not empty and has neither comma nor blank. *)
Definition plain_address (a : string) : bool :=
  nonempty a
  && forallb (fun c => negb (Ascii.eqb c ",") && negb (Ascii.eqb c " "))
             (list_ascii_of_string a).

Definition strip (piece : string) : string :=
  Sample.strip_right (Sample.strip_left piece).

Definition spaceless (a : string) : Prop :=
  forallb (fun c => negb (Ascii.eqb c ",") && negb (Ascii.eqb c " "))
          (list_ascii_of_string a) = true.

Lemma plain_or_empty_spaceless (a : string) :
  a = "" \/ plain_address a = true -> spaceless a.
Proof.
  intros [-> | Hplain]; [reflexivity |].
  unfold plain_address in Hplain. apply andb_prop in Hplain as [_ H]. exact H.
Qed.

Lemma strip_right_spaceless (a : string) : spaceless a -> Sample.strip_right a = a.
Proof.
  unfold spaceless. induction a as [|c rest IH]; [reflexivity |].
  cbn. intros H. apply andb_prop in H as [Hc Hrest].
  rewrite (IH Hrest). apply andb_prop in Hc as [_ Hspace].
  destruct rest; [| reflexivity].
  destruct (Ascii.eqb c " "); [discriminate | reflexivity].
Qed.

Lemma strip_spaceless (a : string) : spaceless a -> strip a = a.
Proof.
  intros H. unfold strip.
  assert (Hleft : Sample.strip_left a = a).
  { destruct a as [|c rest]; [reflexivity |].
    unfold spaceless in H. cbn in H. apply andb_prop in H as [Hc _].
    apply andb_prop in Hc as [_ Hspace].
    cbn. destruct c as [[] [] [] [] [] [] [] []]; try reflexivity. discriminate. }
  rewrite Hleft. apply strip_right_spaceless. exact H.
Qed.

Lemma split_prefix (sep : ascii) (x s : string) :
  forallb (fun c => negb (Ascii.eqb c sep)) (list_ascii_of_string x) = true ->
  Str.split sep (x +:+ s) = onto_first x (Str.split sep s).
Proof.
  induction x as [|a x IH]; intros H.
  - cbn. rewrite onto_first_empty. reflexivity.
  - cbn in H. apply andb_prop in H as [Ha Hx].
    change (String a x +:+ s) with (String a (x +:+ s)). cbn [Str.split].
    destruct (Ascii.eqb a sep); [discriminate |].
    rewrite (IH Hx). pose proof (split_not_nil sep s) as Hne.
    destruct (Str.split sep s) as [|p ps]; [contradiction | reflexivity].
Qed.

Lemma spaceless_no_comma (a : string) :
  spaceless a ->
  forallb (fun c => negb (Ascii.eqb c ",")) (list_ascii_of_string a) = true.
Proof.
  unfold spaceless. induction (list_ascii_of_string a) as [|c l IH]; [reflexivity |].
  cbn. intros H. apply andb_prop in H as [Hc Hl]. apply andb_prop in Hc as [-> _].
  exact (IH Hl).
Qed.

Lemma map_strip_onto_blank (pieces : list string) :
  map strip (onto_first " " pieces) = map strip pieces.
Proof. destruct pieces; reflexivity. Qed.

(** Cut at the commas and stripped, a joined list of pieces without comma
    and blank is the list. *)
Lemma strip_split_join (x : string) (rest : list string) :
  Forall spaceless (x :: rest) ->
  map strip (Str.split "," (Str.join ", " (x :: rest))) = x :: rest.
Proof.
  revert x. induction rest as [|y more IH]; intros x Hall.
  - apply Forall_cons_1 in Hall as [Hx _]. cbn [Str.join].
    rewrite <- (append_empty_r x) at 1.
    rewrite (split_prefix _ _ _ (spaceless_no_comma x Hx)). cbn.
    rewrite append_empty_r, (strip_spaceless x Hx). reflexivity.
  - apply Forall_cons_1 in Hall as [Hx Hrest].
    change (Str.join ", " (x :: y :: more))
      with (x +:+ String "," (String " " (Str.join ", " (y :: more)))).
    rewrite (split_prefix _ _ _ (spaceless_no_comma x Hx)).
    change (Str.split "," (String "," (String " " (Str.join ", " (y :: more)))))
      with ("" :: Str.split "," (" " +:+ Str.join ", " (y :: more))).
    rewrite (split_prefix "," " " _ eq_refl).
    cbn [onto_first map]. rewrite append_empty_r, (strip_spaceless x Hx).
    rewrite map_strip_onto_blank, (IH y Hrest). reflexivity.
Qed.

Lemma comma_separated_join (items : list string) :
  Forall (fun a => a = "" \/ plain_address a = true) items ->
  Sample.comma_separated (Str.join ", " items) = List.filter nonempty items.
Proof.
  intros Hall. destruct items as [|x rest]; [reflexivity |].
  unfold Sample.comma_separated.
  change (map (fun piece => Sample.strip_right (Sample.strip_left piece)))
    with (map strip).
  rewrite strip_split_join; [reflexivity |].
  eapply Forall_impl; [exact Hall | exact plain_or_empty_spaceless].
Qed.

Lemma plain_address_not_empty (a : string) : plain_address a = true -> a <> "".
Proof. intros H ->. discriminate H. Qed.

Lemma recipients_follow_resolution_order_witness :
  recipients (Sample.world 5 (fun _ => Sample.accepting) None)
             (mkEmail "subject" "me@example.org" "body"
                      (Some "alice@example.org, bob@example.org, ") [])
  = ["alice@example.org"; "bob@example.org"].
Proof.
  refine (proj1 (proj2 (recipients_follow_resolution_order
                   (Sample.world 5 (fun _ => Sample.accepting) None)
                   (fun a => plain_address a = true)
                   plain_address_not_empty comma_separated_join
                   (mkNotifyArgs 42 None None
                      (Some ("alice@example.org" +:+ String Str.nl "bob@example.org"
                             +:+ String Str.nl "")))
                   "me@example.org" "subject" "body" Sample.configured
                   (mkEmail "subject" "me@example.org" "body"
                            (Some "alice@example.org, bob@example.org, ") [])
                   eq_refl))
                _ eq_refl eq_refl eq_refl _).
  repeat constructor.
Defined.
